(** * Hit testing, the extended data API and the audio endpoints

    A shallow embedding of [api/services/hit_testing_service.py]
    (class [HitTestingService]) and the properties of it that the
    specification states, followed by further properties of that service and
    by embeddings of [api/controllers/console/datasets/segments_extended_data_api.py]
    and of the error handling of [api/controllers/console/app/audio.py].

    The Python code talks to several collaborators that are not part of the
    service: the model manager, the two search strategies of
    [RetrievalService], the rerank runner, the embedding provider, numpy's
    random generator, scikit-learn's t-SNE solver and the segment table of the
    database.  They are gathered in one record, [World]; every function of
    the service takes the world as its first argument.  Calls that can be
    observed from outside (a model lookup, a started search thread, a rerank
    run, a database insert, an embedding request, a noise draw, a solver run)
    are recorded, in program order, in a trace of [event]s, and an uncaught
    Python exception ends the computation with the trace built so far.  The
    functions of the extended data API are embedded the same way, over the
    record [Web] of what they reach over HTTP. *)

From Stdlib Require Import ZArith QArith Lia.
From stdpp Require Import gmap strings list pretty.

#[local] Set Warnings "-register-all".
#[local] Open Scope Z_scope.

(** ** Text *)

(** A Python [str] is a sequence of code points.  A string of this
    development holds its UTF-8 encoding, one byte per [ascii]: that is how
    the literals of the source files are written here, the non-ASCII ones
    included.  (A lone surrogate, which a Python [str] may hold, is written
    in the same three-byte form as its neighbours.) *)
Module Utf8.

Definition code_point : Type := N.

(** The code points a [str] can hold. *)
Definition valid (c : code_point) : Prop := (c < 1114112)%N.

Definition byte (n : N) : Ascii.ascii := Ascii.ascii_of_N n.

(** The encoding of one code point: one to four bytes. *)
Definition encode (c : code_point) : string :=
  if (c <? 128)%N then String (byte c) ""
  else if (c <? 2048)%N then
    String (byte (192 + c / 64)) (String (byte (128 + c mod 64)) "")
  else if (c <? 65536)%N then
    String (byte (224 + c / 4096))
      (String (byte (128 + (c / 64) mod 64)) (String (byte (128 + c mod 64)) ""))
  else
    String (byte (240 + c / 262144))
      (String (byte (128 + (c / 4096) mod 64))
         (String (byte (128 + (c / 64) mod 64)) (String (byte (128 + c mod 64)) ""))).

Fixpoint utf8 (text : list code_point) : string :=
  match text with
  | [] => ""
  | c :: rest => encode c +:+ utf8 rest
  end.

(** A continuation byte, [10xxxxxx]. *)
Definition is_continuation (b : Ascii.ascii) : bool :=
  ((128 <=? Ascii.N_of_ascii b) && (Ascii.N_of_ascii b <? 192))%N.

(** [len(s)]: the number of code points.  Every byte that is not a
    continuation byte starts one. *)
Fixpoint code_points (s : string) : nat :=
  match s with
  | EmptyString => 0
  | String b rest => ((if is_continuation b then 0 else 1) + code_points rest)%nat
  end.

(** Whether [s] goes on the character before it. *)
Definition continues (s : string) : bool :=
  match s with
  | String b _ => is_continuation b
  | EmptyString => false
  end.

(** The characters of [s], each as a string of its own: a byte belongs to
    the character of the byte before it when it is a continuation byte. *)
Fixpoint chars (s : string) : list string :=
  match s with
  | EmptyString => []
  | String b rest =>
      match chars rest with
      | next :: more =>
          if continues rest then String b next :: more else String b "" :: next :: more
      | [] => [String b ""]
      end
  end.

(** [s[:n]] *)
Definition prefix (n : nat) (s : string) : string :=
  foldr String.append "" (take n (chars s)).

End Utf8.

(** ** Python values *)

Module Py.

(** The values that travel through the service as untyped Python objects:
    the retrieval configuration (a [dict], possibly nested, or [None]), a
    fragment's metadata, the request arguments.  A [PStr] holds the UTF-8
    encoding of the Python [str] ([Utf8]). *)
Inductive pyval : Type :=
| PNone
| PBool (b : bool)
| PInt (z : Z)
| PFloat (q : Q)
| PStr (s : string)
| PDict (d : gmap string pyval).

(** Uncaught exceptions.  [ProviderError] stands for the errors of the model
    providers (not initialised, quota exceeded, unsupported, invocation). *)
Inductive exn : Type :=
| KeyError (key : string)
| TypeError
| IndexError
| ValueError (msg : string)
| ProviderError (kind : string).

(** Truth value of an object, as [if v] and [not v] test it. *)
Definition truthy (v : pyval) : bool :=
  match v with
  | PNone => false
  | PBool b => b
  | PInt z => negb (z =? 0)
  | PFloat q => negb (Qeq_bool q 0)
  | PStr s => negb (String.eqb s "")
  | PDict d => negb (Nat.eqb (size d) 0)
  end.

(** [v == 'literal'] for a string literal. *)
Definition eq_str (v : pyval) (s : string) : bool :=
  match v with
  | PStr t => String.eqb t s
  | _ => false
  end.

End Py.
Import Py.

(** ** Data model *)

Inductive ModelType : Type := TEXT_EMBEDDING | RERANK.

(** What [ModelManager.get_model_instance] hands back; [CacheEmbedding] and
    [RerankRunner] only wrap it. *)
Record ModelInstance : Type := {
  mi_tenant_id : string;
  mi_model_type : ModelType;
  mi_provider : pyval;
  mi_model : pyval
}.

Record Dataset : Type := {
  ds_id : string;
  ds_tenant_id : string;
  available_document_count : Z;
  available_segment_count : Z;
  embedding_model_provider : pyval;
  embedding_model : pyval;
  ds_retrieval_model : pyval
}.

Record Account : Type := { account_id : string }.

(** langchain's [Document]. *)
Record Document : Type := {
  page_content : string;
  metadata : gmap string pyval
}.

(** A row of the segment table, with the columns the service filters on. *)
Record DocumentSegment : Type := {
  seg_id : string;
  seg_dataset_id : string;
  seg_enabled : bool;
  seg_status : string;
  seg_index_node_id : string
}.

(** A row of the query log. *)
Record DatasetQuery : Type := {
  dq_dataset_id : string;
  dq_content : string;
  dq_source : string;
  dq_created_by_role : string;
  dq_created_by : string
}.

(** The keyword arguments a search thread is started with. *)
Record SearchKwargs : Type := {
  kw_dataset_id : string;
  kw_query : string;
  kw_top_k : pyval;
  kw_score_threshold : pyval;
  kw_reranking_model : pyval;
  kw_search_method : pyval;
  kw_embeddings : ModelInstance
}.

(** An embedding vector and a [{'x': .., 'y': ..}] position. *)
Definition vec : Type := list Q.

Record Position : Type := { pos_x : pyval; pos_y : pyval }.

Record HitRecord : Type := {
  rec_segment : DocumentSegment;
  rec_score : pyval;
  rec_tsne_position : Position
}.

Record RetrievalResult : Type := {
  query_content : string;
  query_tsne_position : Position;
  records : list HitRecord
}.

(** ** Observable calls *)

(** The calls the service makes itself.  What a search strategy does inside
    its thread (its own index lookups, a rerank of its own) belongs to
    [RetrievalService] and is not recorded. *)
Inductive event : Type :=
| GetModelInstance (tenant_id : string) (model_type : ModelType) (provider model : pyval)
| EmbeddingSearch (kwargs : SearchKwargs)
| FullTextIndexSearch (kwargs : SearchKwargs)
| RerankRun (query : string) (documents : list Document)
            (score_threshold top_n : pyval) (user : string)
| DbAddCommit (row : DatasetQuery)
| EmbedQuery (text : string)
| EmbedDocuments (texts : list string)
| RandomNormal (rows : nat)
| TsneFitTransform (perplexity : pyval) (data : list vec).

Definition is_embedding_search (e : event) : bool :=
  match e with EmbeddingSearch _ => true | _ => false end.
Definition is_full_text_search (e : event) : bool :=
  match e with FullTextIndexSearch _ => true | _ => false end.
Definition is_search (e : event) : bool :=
  is_embedding_search e || is_full_text_search e.
Definition is_rerank (e : event) : bool :=
  match e with RerankRun _ _ _ _ _ => true | _ => false end.
Definition is_log_write (e : event) : bool :=
  match e with DbAddCommit _ => true | _ => false end.
Definition is_model_lookup (e : event) : bool :=
  match e with GetModelInstance _ _ _ _ => true | _ => false end.
Definition is_noise (e : event) : bool :=
  match e with RandomNormal _ => true | _ => false end.
Definition is_solver (e : event) : bool :=
  match e with TsneFitTransform _ _ => true | _ => false end.
Definition is_projection (e : event) : bool :=
  match e with
  | EmbedQuery _ | EmbedDocuments _ | RandomNormal _ | TsneFitTransform _ _ => true
  | _ => false
  end.

(** Number of calls of one kind in a trace. *)
Fixpoint calls (p : event → bool) (t : list event) : nat :=
  match t with
  | [] => 0
  | e :: t' => (if p e then 1 else 0) + calls p t'
  end.

(** ** Computations: a trace and either an exception or a value *)

Definition M (A : Type) : Type := (list event * (exn + A))%type.

Definition trace_of {A} (m : M A) : list event := m.1.
Definition outcome {A} (m : M A) : exn + A := m.2.

#[export] Instance M_ret : MRet M := λ A a, ([], inr a).
#[export] Instance M_bind : MBind M := λ A B f m,
  match m.2 with
  | inl e => (m.1, inl e)
  | inr a => let r := f a in (m.1 ++ r.1, r.2)
  end.

Definition raise {A} (e : exn) : M A := ([], inl e).
Definition emit (e : event) : M unit := ([e], inr tt).
Definition lift {A} (r : exn + A) : M A := ([], r).

(** [d[k]] *)
Definition subscript (d : pyval) (k : string) : M pyval :=
  match d with
  | PDict m => match m !! k with
               | Some v => mret v
               | None => raise (KeyError k)
               end
  | _ => raise TypeError
  end.

(** [len(v)] *)
Definition py_len (v : pyval) : M Z :=
  match v with
  | PStr s => mret (Z.of_nat (Utf8.code_points s))
  | PDict d => mret (Z.of_nat (size d))
  | _ => raise TypeError
  end.

(** ** The collaborators *)

Record World : Type := {
  (** [ModelManager.get_model_instance]: the exception it raises, if any. *)
  model_error : string → ModelType → pyval → pyval → option exn;
  (** The two thread targets of [RetrievalService]; each one gets the shared
      list [all_documents] and leaves it changed. *)
  embedding_search : SearchKwargs → list Document → list Document;
  full_text_index_search : SearchKwargs → list Document → list Document;
  (** Which of two running threads writes to the shared list first. *)
  full_text_thread_first : bool;
  (** [RerankRunner(instance).run(query, documents, score_threshold, top_n, user)] *)
  rerank_run : ModelInstance → string → list Document → pyval → pyval → string
               → exn + list Document;
  (** The embedding provider behind [CacheEmbedding]. *)
  embed_query : ModelInstance → string → exn + vec;
  embed_documents : ModelInstance → list string → exn + list vec;
  (** [document_embeddings[i] += np.random.normal(0, 1e-4, len(..))] for the
      [i]-th fragment: the vector after the in-place [+=].  What [+=] does
      depends on the vector type of the provider, which the service does not
      fix (an entrywise sum for a numpy array, an extension for a list). *)
  perturbed : nat → vec → vec;
  (** [(np.array(embeddings) + np.random.normal(0, 1e-4, shape)).reshape(n, -1)] *)
  add_noise : list vec → list vec;
  (** [TSNE(n_components=2, perplexity=p, early_exaggeration=12.0).fit_transform] *)
  fit_transform : pyval → list vec → list (Q * Q);
  (** The segment table. *)
  document_segments : list DocumentSegment
}.

(** ** The service *)

Module HitTestingService.

(** The module-level [default_retrieval_model]. *)
Definition default_retrieval_model : pyval :=
  PDict (list_to_map [
    ("search_method", PStr "semantic_search");
    ("reranking_enable", PBool false);
    ("reranking_model", PDict (list_to_map [
       ("reranking_provider_name", PStr "");
       ("reranking_model_name", PStr "")]));
    ("top_k", PInt 2);
    ("score_threshold_enabled", PBool false)]).

(** [ModelManager().get_model_instance(tenant_id=.., model_type=.., provider=.., model=..)] *)
Definition get_model_instance (w : World) (tenant_id : string) (model_type : ModelType)
    (provider model : pyval) : M ModelInstance :=
  emit (GetModelInstance tenant_id model_type provider model);;
  match model_error w tenant_id model_type provider model with
  | Some e => raise e
  | None => mret {| mi_tenant_id := tenant_id; mi_model_type := model_type;
                    mi_provider := provider; mi_model := model |}
  end.

(** [retrieval_model[key] if retrieval_model[flag] else None] *)
Definition subscript_if (retrieval_model : pyval) (flag key : string) : M pyval :=
  enabled ← subscript retrieval_model flag;
  if truthy enabled then subscript retrieval_model key else mret PNone.

(** [retrieval_model['search_method'] == first or retrieval_model['search_method'] == second] *)
Definition search_method_is (retrieval_model : pyval) (first second : string) : M bool :=
  a ← subscript retrieval_model "search_method";
  if eq_str a first then mret true
  else b ← subscript retrieval_model "search_method"; mret (eq_str b second).

(** Lines 64-77: the semantic search thread, when it is started. *)
Definition start_embedding_thread (w : World) (dataset : Dataset) (query : string)
    (retrieval_model : pyval) (embeddings : ModelInstance) : M (option SearchKwargs) :=
  selected ← search_method_is retrieval_model "semantic_search" "hybrid_search";
  if selected : bool then
    top_k ← subscript retrieval_model "top_k";
    score_threshold ← subscript_if retrieval_model "score_threshold_enabled" "score_threshold";
    reranking_model ← subscript_if retrieval_model "reranking_enable" "reranking_model";
    search_method ← subscript retrieval_model "search_method";
    let kwargs := {| kw_dataset_id := ds_id dataset; kw_query := query; kw_top_k := top_k;
                     kw_score_threshold := score_threshold;
                     kw_reranking_model := reranking_model;
                     kw_search_method := search_method; kw_embeddings := embeddings |} in
    emit (EmbeddingSearch kwargs);;
    mret (Some kwargs)
  else mret None.

(** Lines 80-93: the full-text search thread, when it is started. *)
Definition start_full_text_index_thread (w : World) (dataset : Dataset) (query : string)
    (retrieval_model : pyval) (embeddings : ModelInstance) : M (option SearchKwargs) :=
  selected ← search_method_is retrieval_model "full_text_search" "hybrid_search";
  if selected : bool then
    search_method ← subscript retrieval_model "search_method";
    score_threshold ← subscript_if retrieval_model "score_threshold_enabled" "score_threshold";
    top_k ← subscript retrieval_model "top_k";
    reranking_model ← subscript_if retrieval_model "reranking_enable" "reranking_model";
    let kwargs := {| kw_dataset_id := ds_id dataset; kw_query := query; kw_top_k := top_k;
                     kw_score_threshold := score_threshold;
                     kw_reranking_model := reranking_model;
                     kw_search_method := search_method; kw_embeddings := embeddings |} in
    emit (FullTextIndexSearch kwargs);;
    mret (Some kwargs)
  else mret None.

(** Lines 95-96: the shared list [all_documents] once every started thread
    has been joined.  It starts empty. *)
Definition joined (w : World) (embedding_thread full_text_index_thread : option SearchKwargs)
    : list Document :=
  match embedding_thread, full_text_index_thread with
  | Some ke, Some kf =>
      if full_text_thread_first w
      then embedding_search w ke (full_text_index_search w kf [])
      else full_text_index_search w kf (embedding_search w ke [])
  | Some ke, None => embedding_search w ke []
  | None, Some kf => full_text_index_search w kf []
  | None, None => []
  end.

(** Lines 98-114: reranking of the pooled fragments in hybrid mode. *)
Definition rerank (w : World) (dataset : Dataset) (query : string) (account : Account)
    (retrieval_model : pyval) (all_documents : list Document) : M (list Document) :=
  search_method ← subscript retrieval_model "search_method";
  if eq_str search_method "hybrid_search" then
    provider ← (r ← subscript retrieval_model "reranking_model";
                subscript r "reranking_provider_name");
    model ← (r ← subscript retrieval_model "reranking_model";
             subscript r "reranking_model_name");
    rerank_model_instance ← get_model_instance w (ds_tenant_id dataset) RERANK provider model;
    score_threshold ← subscript_if retrieval_model "score_threshold_enabled" "score_threshold";
    top_n ← subscript retrieval_model "top_k";
    let user := ("account-" +:+ account_id account)%string in
    emit (RerankRun query all_documents score_threshold top_n user);;
    lift (rerank_run w rerank_model_instance query all_documents score_threshold top_n user)
  else mret all_documents.

(** Lines 46-47: the configuration in force. *)
Definition effective_retrieval_model (dataset : Dataset) (retrieval_model : pyval) : pyval :=
  if truthy retrieval_model then retrieval_model
  else if truthy (ds_retrieval_model dataset) then ds_retrieval_model dataset
  else default_retrieval_model.

(** Lines 43-114 of [retrieve]: everything between the short-circuit and the
    query log, yielding the embedding handle and the final fragment list. *)
Definition retrieve_search (w : World) (dataset : Dataset) (query : string) (account : Account)
    (retrieval_model : pyval) : M (ModelInstance * list Document) :=
  let retrieval_model := effective_retrieval_model dataset retrieval_model in
  embedding_model ← get_model_instance w (ds_tenant_id dataset) TEXT_EMBEDDING
                       (embedding_model_provider dataset) (embedding_model dataset);
  let embeddings := embedding_model in
  embedding_thread ← start_embedding_thread w dataset query retrieval_model embeddings;
  full_text_index_thread ←
    start_full_text_index_thread w dataset query retrieval_model embeddings;
  let all_documents := joined w embedding_thread full_text_index_thread in
  all_documents ← rerank w dataset query account retrieval_model all_documents;
  mret (embeddings, all_documents).

(** Lines 194-196. *)
Definition tsne_perplexity (embedding_length : nat) : pyval :=
  let perplexity := (inject_Z (Z.of_nat embedding_length) / 2 + 1)%Q in
  if Qle_bool (inject_Z (Z.of_nat embedding_length)) perplexity
  then PInt (Z.max (Z.of_nat embedding_length - 1) 1)
  else PFloat perplexity.

Definition get_tsne_positions_from_embeddings (w : World) (embeddings : list vec)
    : M (list Position) :=
  let embedding_length := length embeddings in
  if (embedding_length <=? 1)%nat then mret [ {| pos_x := PInt 0; pos_y := PInt 0 |} ]
  else
    emit (RandomNormal embedding_length);;
    let concatenate_data := add_noise w embeddings in
    let perplexity := tsne_perplexity embedding_length in
    emit (TsneFitTransform perplexity concatenate_data);;
    let data_tsne := fit_transform w perplexity concatenate_data in
    mret ((λ row, {| pos_x := PFloat row.1; pos_y := PFloat row.2 |}) <$> data_tsne).

(** [np.array_equal] on two vectors: same length, equal entry by entry. *)
Fixpoint array_equal (a b : vec) : bool :=
  match a, b with
  | [], [] => true
  | x :: a', y :: b' => Qeq_bool x y && array_equal a' b'
  | _, _ => false
  end.

(** Lines 141-145: vectors equal to the query's are perturbed in place. *)
Definition perturb_identical (w : World) (query_embedding : vec)
    (document_embeddings : list vec) : list vec :=
  imap (λ i document_embedding,
          if array_equal query_embedding document_embedding
          then perturbed w i document_embedding
          else document_embedding) document_embeddings.

(** Lines 157-162: the first enabled, completed segment of the dataset with
    the given index key. *)
Definition segment_matches (dataset : Dataset) (index_node_id : pyval)
    (s : DocumentSegment) : bool :=
  String.eqb (seg_dataset_id s) (ds_id dataset)
  && seg_enabled s
  && String.eqb (seg_status s) "completed"
  && eq_str index_node_id (seg_index_node_id s).

Definition first_segment (w : World) (dataset : Dataset) (index_node_id : pyval)
    : option DocumentSegment :=
  List.find (segment_matches dataset index_node_id) (document_segments w).

(** Lines 154-176: the loop over the fragments, with its cursor [i]. *)
Fixpoint collect_records (w : World) (dataset : Dataset) (tsne_position_data : list Position)
    (documents : list Document) (i : nat) : M (list HitRecord) :=
  match documents with
  | [] => mret []
  | document :: rest =>
      index_node_id ← subscript (PDict (metadata document)) "doc_id";
      match first_segment w dataset index_node_id with
      | None => collect_records w dataset tsne_position_data rest (S i)
      | Some segment =>
          position ← match tsne_position_data !! i with
                     | Some p => mret p
                     | None => raise IndexError
                     end;
          let record := {| rec_segment := segment;
                           rec_score := default PNone (metadata document !! "score");
                           rec_tsne_position := position |} in
          records ← collect_records w dataset tsne_position_data rest (S i);
          mret (record :: records)
      end
  end.

(** Lines 151-184: from the computed positions to the response. *)
Definition assemble_response (w : World) (dataset : Dataset) (query : string)
    (documents : list Document) (tsne_position_data : list Position) : M RetrievalResult :=
  match tsne_position_data with
  | [] => raise IndexError
  | query_position :: tsne_position_data =>
      records ← collect_records w dataset tsne_position_data documents 0;
      mret {| query_content := query; query_tsne_position := query_position;
              records := records |}
  end.

Definition compact_retrieve_response (w : World) (dataset : Dataset) (embeddings : ModelInstance)
    (query : string) (documents : list Document) : M RetrievalResult :=
  query_embedding ← (emit (EmbedQuery query);; lift (embed_query w embeddings query));
  let texts := page_content <$> documents in
  document_embeddings ← (emit (EmbedDocuments texts);;
                         lift (embed_documents w embeddings texts));
  let document_embeddings := perturb_identical w query_embedding document_embeddings in
  let text_embeddings := query_embedding :: document_embeddings in
  tsne_position_data ← get_tsne_positions_from_embeddings w text_embeddings;
  assemble_response w dataset query documents tsne_position_data.

(** The row written to the query log (lines 119-125). *)
Definition dataset_query (dataset : Dataset) (query : string) (account : Account)
    : DatasetQuery :=
  {| dq_dataset_id := ds_id dataset; dq_content := query; dq_source := "hit_testing";
     dq_created_by_role := "account"; dq_created_by := account_id account |}.

Definition empty_result (query : string) : RetrievalResult :=
  {| query_content := query;
     query_tsne_position := {| pos_x := PInt 0; pos_y := PInt 0 |};
     records := [] |}.

Definition retrieve (w : World) (dataset : Dataset) (query : string) (account : Account)
    (retrieval_model : pyval) (limit : Z) : M RetrievalResult :=
  if (available_document_count dataset =? 0) || (available_segment_count dataset =? 0)
  then mret (empty_result query)
  else
    '(embeddings, all_documents) ← retrieve_search w dataset query account retrieval_model;
    emit (DbAddCommit (dataset_query dataset query account));;
    compact_retrieve_response w dataset embeddings query all_documents.

Definition hit_testing_args_check (args : pyval) : M unit :=
  query ← subscript args "query";
  invalid ← (if truthy query then n ← py_len query; mret (250 <? n) else mret true);
  if invalid : bool
  then raise (ValueError "Query is required and cannot exceed 250 characters")
  else mret tt.

End HitTestingService.
Import HitTestingService.

(** ** Vocabulary of the specification *)

(** A dataset on which [retrieve] short-circuits. *)
Definition empty_dataset (dataset : Dataset) : Prop :=
  available_document_count dataset = 0 ∨ available_segment_count dataset = 0.

(** The search phase ran to its end: no exception up to and including the
    rerank step. *)
Definition search_completed (w : World) (dataset : Dataset) (query : string)
    (account : Account) (retrieval_model : pyval) : Prop :=
  ∃ x, outcome (retrieve_search w dataset query account retrieval_model) = inr x.

(** The error of the query check. *)
Definition query_error : exn :=
  ValueError "Query is required and cannot exceed 250 characters".

(** The record built for a fragment that has a stored segment. *)
Definition hit_record (segment : DocumentSegment) (document : Document) (p : Position)
    : HitRecord :=
  {| rec_segment := segment;
     rec_score := default PNone (metadata document !! "score");
     rec_tsne_position := p |}.

(** A computation without observable calls. *)
Definition silent {A} (m : M A) : Prop := trace_of m = [].

Definition bit (b : bool) : nat := if b then 1%nat else 0%nat.

(** The search phase only looks up models, starts searches and reranks. *)
Definition is_search_phase (e : event) : bool :=
  is_model_lookup e || is_search e || is_rerank e.

(** How a search thread comes to be started: not selected by the search
    method, selected but a configuration read raises first, or started. *)
Inductive thread_choice (target : SearchKwargs → event) :
    bool → M (option SearchKwargs) → Prop :=
| thread_skipped : thread_choice target false (mret None)
| thread_raises e : thread_choice target true (raise e)
| thread_started kwargs : thread_choice target true ([target kwargs], inr (Some kwargs)).

(** How the rerank step ends: skipped outside hybrid mode; in hybrid mode a
    configuration read raises, or the rerank model does not resolve (or a
    later configuration read raises), or the reranker is run. *)
Inductive rerank_choice (all_documents : list Document) :
    bool → M (list Document) → Prop :=
| rerank_skipped : rerank_choice all_documents false (mret all_documents)
| rerank_config_raises e : rerank_choice all_documents true (raise e)
| rerank_model_raises t ty p m e :
    rerank_choice all_documents true ([GetModelInstance t ty p m], inl e)
| rerank_ran t ty p m q s n u r :
    rerank_choice all_documents true
      ([GetModelInstance t ty p m; RerankRun q all_documents s n u], r).

(** Strategy selection read as a statement about every call on a non-empty
    dataset, whether or not the call gets as far as the searches: the
    selected strategies are invoked, the others are not, and the reranker is
    run once in hybrid mode and never otherwise. *)
Definition claimed_strategy_selection (w : World) (dataset : Dataset) (query : string)
    (account : Account) (retrieval_model : pyval) (limit : Z) : Prop :=
  ¬ empty_dataset dataset →
  ∀ m method,
    effective_retrieval_model dataset retrieval_model = PDict m →
    m !! "search_method" = Some (PStr method) →
    let t := trace_of (retrieve w dataset query account retrieval_model limit) in
    (method = "semantic_search" →
     (1 ≤ calls is_embedding_search t)%nat ∧ calls is_full_text_search t = 0%nat
     ∧ calls is_rerank t = 0%nat)
    ∧ (method = "full_text_search" →
       (1 ≤ calls is_full_text_search t)%nat ∧ calls is_embedding_search t = 0%nat
       ∧ calls is_rerank t = 0%nat)
    ∧ (method = "hybrid_search" →
       (1 ≤ calls is_embedding_search t)%nat ∧ (1 ≤ calls is_full_text_search t)%nat
       ∧ calls is_rerank t = 1%nat).

(** ** Sample inputs *)

Module Sample.

Definition account : Account := {| account_id := "acct-7" |}.

Definition dataset : Dataset :=
  {| ds_id := "ds-1"; ds_tenant_id := "tenant-1";
     available_document_count := 4; available_segment_count := 9;
     embedding_model_provider := PStr "openai";
     embedding_model := PStr "text-embedding-ada-002";
     ds_retrieval_model := PNone |}.

(** A dataset whose documents are all disabled or archived. *)
Definition vacant_dataset : Dataset :=
  {| ds_id := "ds-2"; ds_tenant_id := "tenant-1";
     available_document_count := 0; available_segment_count := 0;
     embedding_model_provider := PNone;
     embedding_model := PNone;
     ds_retrieval_model := PNone |}.

Definition hybrid_config_map : gmap string pyval :=
  list_to_map [
    ("search_method", PStr "hybrid_search");
    ("reranking_enable", PBool true);
    ("reranking_model", PDict (list_to_map [
       ("reranking_provider_name", PStr "cohere");
       ("reranking_model_name", PStr "rerank-english-v2.0")]));
    ("top_k", PInt 3);
    ("score_threshold_enabled", PBool false)].

Definition hybrid_config : pyval := PDict hybrid_config_map.

Definition fragment (text node : string) (score : Q) : Document :=
  {| page_content := text;
     metadata := list_to_map [("doc_id", PStr node); ("score", PFloat score)] |}.

Definition fragment1 : Document := fragment "alpha" "node-1" (9 # 10).
Definition fragment2 : Document := fragment "beta" "node-2" (8 # 10).
Definition fragment3 : Document := fragment "gamma" "node-3" (7 # 10).

Definition stored (id node : string) (enabled : bool) : DocumentSegment :=
  {| seg_id := id; seg_dataset_id := "ds-1"; seg_enabled := enabled;
     seg_status := "completed"; seg_index_node_id := node |}.

(** Every model resolves; the search strategies find nothing; the segment
    table has a row for each of the three fragments, the second one disabled
    in the meantime. *)
Definition world : World :=
  {| model_error := λ _ _ _ _, None;
     embedding_search := λ _ all_documents, all_documents;
     full_text_index_search := λ _ all_documents, all_documents;
     full_text_thread_first := false;
     rerank_run := λ _ _ documents _ _ _, inr documents;
     embed_query := λ _ _, inr [1; 0]%Q;
     embed_documents := λ _ texts, inr ((λ _, [0; 1]%Q) <$> texts);
     perturbed := λ _ v, v;
     add_noise := λ embeddings, embeddings;
     fit_transform := λ _ data, imap (λ i _, (inject_Z (Z.of_nat i), 0%Q)) data;
     document_segments :=
       [stored "seg-1" "node-1" true; stored "seg-2" "node-2" false;
        stored "seg-3" "node-3" true] |}.

(** The same, but no model resolves. *)
Definition world_without_models : World :=
  {| model_error := λ _ _ _ _, Some (ProviderError "ModelNotInitializedError");
     embedding_search := embedding_search world;
     full_text_index_search := full_text_index_search world;
     full_text_thread_first := false;
     rerank_run := rerank_run world;
     embed_query := embed_query world;
     embed_documents := embed_documents world;
     perturbed := perturbed world;
     add_noise := add_noise world;
     fit_transform := fit_transform world;
     document_segments := document_segments world |}.

(** The same as [world], but the rerank model does not resolve. *)
Definition world_without_rerank_model : World :=
  {| model_error := λ _ model_type _ _,
       match model_type with
       | RERANK => Some (ProviderError "ModelNotInitializedError")
       | TEXT_EMBEDDING => None
       end;
     embedding_search := embedding_search world;
     full_text_index_search := full_text_index_search world;
     full_text_thread_first := false;
     rerank_run := rerank_run world;
     embed_query := embed_query world;
     embed_documents := embed_documents world;
     perturbed := perturbed world;
     add_noise := add_noise world;
     fit_transform := fit_transform world;
     document_segments := document_segments world |}.

Definition embedding_handle : ModelInstance :=
  {| mi_tenant_id := "tenant-1"; mi_model_type := TEXT_EMBEDDING;
     mi_provider := PStr "openai"; mi_model := PStr "text-embedding-ada-002" |}.

Definition position (i : Z) : Position :=
  {| pos_x := PFloat (inject_Z i); pos_y := PFloat 0 |}.

End Sample.

(** ** Vocabulary of the further properties *)

(** The fragment's index key, when it has one. *)
Definition doc_id (document : Document) : option pyval := metadata document !! "doc_id".

(** The stored segment behind a fragment. *)
Definition stored_segment (w : World) (dataset : Dataset) (document : Document)
    : option DocumentSegment :=
  doc_id document ≫= first_segment w dataset.

(** The record of the fragment at index [j], when it has a stored segment. *)
Definition aligned_record (w : World) (dataset : Dataset) (positions : list Position)
    (j : nat) (document : Document) : option HitRecord :=
  segment ← stored_segment w dataset document;
  p ← positions !! j;
  Some (hit_record segment document p).

(** The records as a comprehension: one per fragment with a stored segment,
    each with the position at the fragment's own index. *)
Definition aligned_records (w : World) (dataset : Dataset) (positions : list Position)
    (documents : list Document) : list HitRecord :=
  omap id (imap (aligned_record w dataset positions) documents).

(** [m[key] if m[flag] else None], with [None] for a missing key. *)
Definition config_value_if (m : gmap string pyval) (flag key : string) : option pyval :=
  enabled ← m !! flag;
  if truthy enabled then m !! key else Some PNone.

(** The keyword arguments built from the configuration [m]. *)
Definition search_kwargs (dataset : Dataset) (query : string) (m : gmap string pyval)
    (embeddings : ModelInstance) : option SearchKwargs :=
  top_k ← m !! "top_k";
  score_threshold ← config_value_if m "score_threshold_enabled" "score_threshold";
  reranking_model ← config_value_if m "reranking_enable" "reranking_model";
  search_method ← m !! "search_method";
  Some {| kw_dataset_id := ds_id dataset; kw_query := query; kw_top_k := top_k;
          kw_score_threshold := score_threshold; kw_reranking_model := reranking_model;
          kw_search_method := search_method; kw_embeddings := embeddings |}.

(** The handle [get_model_instance] yields for the dataset's embedding model. *)
Definition dataset_embeddings (dataset : Dataset) : ModelInstance :=
  {| mi_tenant_id := ds_tenant_id dataset; mi_model_type := TEXT_EMBEDDING;
     mi_provider := embedding_model_provider dataset;
     mi_model := embedding_model dataset |}.

(** What the searches and the rerank run of a call depend on. *)

(** The embedding model of the dataset resolves. *)
Definition embedding_model_resolves (w : World) (dataset : Dataset) : Prop :=
  model_error w (ds_tenant_id dataset) TEXT_EMBEDDING
    (embedding_model_provider dataset) (embedding_model dataset) = None.

(** Every key the keyword arguments of a search read besides [search_method]
    is present: [top_k], the two switches, and the value behind each switch
    that is on. *)
Definition kwargs_readable (m : gmap string pyval) : Prop :=
  is_Some (m !! "top_k")
  ∧ is_Some (config_value_if m "score_threshold_enabled" "score_threshold")
  ∧ is_Some (config_value_if m "reranking_enable" "reranking_model").

(** The configuration names a rerank model, and it resolves. *)
Definition rerank_model_resolves (w : World) (dataset : Dataset) (m : gmap string pyval)
    : Prop :=
  ∃ rr provider model,
    m !! "reranking_model" = Some (PDict rr)
    ∧ rr !! "reranking_provider_name" = Some provider
    ∧ rr !! "reranking_model_name" = Some model
    ∧ model_error w (ds_tenant_id dataset) RERANK provider model = None.

(** ** The extended data API: registry and listing *)

Module ExtendedDataApi.

(** The state of an object: whether it can be called, and the attributes set
    on it. *)
Record pyobject : Type := {
  callable : bool;
  attributes : gmap string pyval
}.

(** Objects are mutable and shared: a name is bound to the identity of an
    object, and the store holds the state of every object.  Setting an
    attribute changes the object under every name bound to it. *)
Definition ref : Type := nat.
Definition store : Type := ref → pyobject.

(** The store in which [obj] has a new state. *)
Definition update (obj : ref) (state : pyobject) (objects : store) : store :=
  λ r, if Nat.eqb r obj then state else objects r.

(** What a [def] or a [class] statement creates. *)
Definition new_callable : pyobject := {| callable := true; attributes := ∅ |}.

(** [obj.name = value] *)
Definition setattr (obj : ref) (name : string) (value : pyval) (objects : store) : store :=
  update obj {| callable := callable (objects obj);
                attributes := <[name := value]> (attributes (objects obj)) |} objects.

(** [api_description(description_text)(func)]: sets [func._description] on
    the object itself and returns [func]. *)
Definition api_description (description_text : pyval) (func : ref) (objects : store)
    : store :=
  setattr func "_description" description_text objects.

(** [api_parameter_format(parameterFormat)(func)]: sets
    [func._parameterFormat] on the object itself and returns [func]. *)
Definition api_parameter_format (parameterFormat : pyval) (func : ref) (objects : store)
    : store :=
  setattr func "_parameterFormat" parameterFormat objects.

(** [globals()]: the names of the module in the order they were first bound,
    each with the object it is bound to. *)
Definition namespace : Type := list (string * ref).

(** [globals()[name] = obj]: a name that is already bound keeps its place. *)
Fixpoint bind (name : string) (obj : ref) (globals : namespace) : namespace :=
  match globals with
  | [] => [(name, obj)]
  | (n, o) :: rest =>
      if String.eqb n name then (name, obj) :: rest else (n, o) :: bind name obj rest
  end.

(** The module while it is executed: its names, the objects, and the
    identity the next new object gets. *)
Record module_state : Type := {
  globals : namespace;
  objects : store;
  next : ref
}.

(** A decorator line of the module. *)
Inductive decorator : Type :=
| Description (description_text : pyval)
| ParameterFormat (parameterFormat : pyval).

Definition decorate (d : decorator) : ref → store → store :=
  match d with
  | Description description_text => api_description description_text
  | ParameterFormat parameterFormat => api_parameter_format parameterFormat
  end.

(** A [def] or [class] statement under decorator lines, given from top to
    bottom: a new object is created, the decorators are applied to it from
    the bottom one up, each returning the object it was given, and the name
    is bound to that object. *)
Definition def (name : string) (decorators : list decorator) (st : module_state)
    : module_state :=
  let func := next st in
  {| globals := bind name func (globals st);
     objects := foldr (λ d objects, decorate d func objects)
                  (update func new_callable (objects st)) decorators;
     next := S func |}.

(** An entry [{"value": .., "name": ..}] of the listing. *)
Record entry : Type := { entry_value : string; entry_name : pyval }.

(** [ExtendedDataApiList.get], lines 36-44 (behind the login decorators), in
    a module in state [st]. *)
Definition get (st : module_state) : list entry :=
  foldl (λ descriptions_list item,
           let '(name, func) := item in
           if callable (objects st func) then
             match attributes (objects st func) !! "_description" with
             | Some description =>
                 descriptions_list ++ [ {| entry_value := name; entry_name := description |} ]
             | None => descriptions_list
             end
           else descriptions_list)
        [] (globals st).

(** The descriptions of lines 47, 76, 82 and 93 (their UTF-8 bytes) and the
    parameter formats of lines 48, 77 and 94. *)
Definition balance_description : pyval := PStr "该接口传入学号即可查看学生余额".
Definition weather_description : pyval := PStr "该接口传入位置即可查看对应位置天气".
Definition time_description : pyval := PStr "当前时间".
Definition bing_description : pyval := PStr "该接口通过传入问题查找bing".

(** The module once it has been executed, starting from the state before
    line 13 (the module attributes and the imports). *)
Definition module_globals (imports : module_state) : module_state :=
  let st := def "api_description" [] imports in
  let st := def "api_parameter_format" [] st in
  let st := def "ExtendedDataApiList" [] st in
  let st := def "query_user_balance"
              [Description balance_description;
               ParameterFormat (PStr "{stu_num='*******'}")] st in
  let st := def "query_weather"
              [Description weather_description;
               ParameterFormat (PStr "{location='*****'}")] st in
  let st := def "query_current_time" [Description time_description] st in
  def "query_bing"
    [Description bing_description; ParameterFormat (PStr "{query='*****'}")] st.

End ExtendedDataApi.
Import ExtendedDataApi.

(** The entry a binding contributes to the listing, if any. *)
Definition described (objects : store) (item : string * ref) : option entry :=
  if callable (objects item.2) then
    description ← attributes (objects item.2) !! "_description";
    Some {| entry_value := item.1; entry_name := description |}
  else None.

(** Every object a name is bound to exists already: the next new object is
    none of them. *)
Definition well_formed (st : module_state) : Prop :=
  Forall (λ item, item.2 < next st)%nat (globals st).

(** The description a [def] under these decorator lines ends up with: that of
    the topmost [api_description] line. *)
Fixpoint described_as (decorators : list decorator) : option pyval :=
  match decorators with
  | [] => None
  | Description description_text :: _ => Some description_text
  | ParameterFormat _ :: rest => described_as rest
  end.

(** The module after an assignment to an attribute of an object. *)
Definition with_objects (change : store → store) (st : module_state) : module_state :=
  {| globals := globals st; objects := change (objects st); next := next st |}.

(** ** The extended data API: the registered functions *)

(** [query_user_balance], [query_weather] and [query_bing].
    [query_current_time] only formats the clock's reading and is left out. *)

Module ExtendedDataFunctions.

(** A decoded JSON document, which is also the type of the arguments the
    functions are called with.  A string holds the UTF-8 encoding of the
    Python [str] ([Utf8]).  A float is given by the rational number it is
    the correctly rounded value of (Python's [int / int] rounds the exact
    quotient); infinities and NaN are left out. *)
Inductive json : Type :=
| JNull
| JBool (b : bool)
| JInt (z : Z)
| JFloat (q : Q)
| JStr (s : string)
| JList (l : list json)
| JObj (o : gmap string json).

(** Exceptions.  [EKey] carries the missing key; [ERequest] stands for what
    the requests library raises (connection errors, [HTTPError], a body that
    is not JSON). *)
Inductive error : Type :=
| EKey (key : json)
| EType
| EIndex
| EValue
| EOverflow
| ERequest (kind : string).

(** What the functions do to the outside: HTTP requests and [print]. *)
Inductive web_event : Type :=
| BalanceRequest (url : string)
| BingRequest (query : json)
| Printed (output : json).

Definition is_request (e : web_event) : bool :=
  match e with BalanceRequest _ | BingRequest _ => true | Printed _ => false end.

Definition W (A : Type) : Type := (list web_event * (error + A))%type.

#[export] Instance W_ret : MRet W := λ A a, ([], inr a).
#[export] Instance W_bind : MBind W := λ A B f m,
  match m.2 with
  | inl e => (m.1, inl e)
  | inr a => let r := f a in (m.1 ++ r.1, r.2)
  end.

Definition fail {A} (e : error) : W A := ([], inl e).
Definition tell (e : web_event) : W unit := ([e], inr tt).
Definition of_result {A} (r : error + A) : W A := ([], r).

(** A response of the requests library. *)
Record http_response : Type := {
  status_code : Z;
  (** [response.json()] *)
  body : error + json
}.

(** The outside world of the functions. *)
Record Web : Type := {
  (** The URL of line 55 up to and including [idserial=]; it carries an
      application key and is not reproduced. *)
  balance_endpoint : string;
  (** [requests.request("GET", url, ..).json()] *)
  get_json : string → error + json;
  (** [requests.get(endpoint, headers=.., params={'q': query, 'mkt': 'zh-CN'})];
      the header holds the subscription key of line 96. *)
  bing_get : json → error + http_response;
  (** [int(s)] on a string: [None] when it raises [ValueError]. *)
  int_of_str : string → option Z;
  (** [datetime.strptime(s, "%Y%m%d%H%M%S").strftime("%Y-%m-%d %H:%M:%S")]:
      [None] when the string does not parse. *)
  reformat_time : string → option string;
  (** [str(v)] for a value that is not a string. *)
  str_of : json → string;
  (** What [d[:3]] raises on a dict: a [TypeError] before Python 3.12, a
      [KeyError] from then on. *)
  dict_slice_error : error
}.

(** [v[key]] with a string key. *)
Definition item (v : json) (key : string) : W json :=
  match v with
  | JObj o => match o !! key with
              | Some x => mret x
              | None => fail (EKey (JStr key))
              end
  | _ => fail EType
  end.

(** [v[0]] *)
Definition first_item (v : json) : W json :=
  match v with
  | JList [] => fail EIndex
  | JList (x :: _) => mret x
  | JStr s => match Utf8.chars s with
              | [] => fail EIndex
              | c :: _ => mret (JStr c)
              end
  | JObj _ => fail (EKey (JInt 0))
  | _ => fail EType
  end.

(** [int(v)] *)
Definition python_int (w : Web) (v : json) : W Z :=
  match v with
  | JInt z => mret z
  | JBool b => mret (if b then 1 else 0)
  | JFloat q => mret (Z.quot (Qnum q) (Z.pos (Qden q)))
  | JStr s => match int_of_str w s with
              | Some z => mret z
              | None => fail EValue
              end
  | _ => fail EType
  end.

(** The answer to an empty student number (line 52, its UTF-8 bytes). *)
Definition missing_number : json :=
  JObj {[ "result" := JStr "请提供学号" ]}.

(** [response["retJSON"]["result"][0][field]] *)
Definition first_result (response : json) (field : string) : W json :=
  a ← item response "retJSON";
  b ← item a "result";
  c ← first_item b;
  item c field.

(** The magnitude from which on a quotient of integers is no float: the
    midpoint between the largest float, [2^1024 - 2^971], and [2^1024]. *)
Definition float_limit : Z := 2 ^ 1024 - 2 ^ 970.

(** [n / 100] on an integer [n]: the quotient, correctly rounded, unless it
    reaches [float_limit]; then the division raises [OverflowError]. *)
Definition hundredth (n : Z) : W Q :=
  if 100 * float_limit <=? Z.abs n then fail EOverflow else mret (inject_Z n / 100)%Q.

(** [query_user_balance], lines 49-73. *)
Definition query_user_balance (w : Web) (stu_num : json) : W json :=
  match stu_num with
  | JStr EmptyString => mret missing_number
  | JStr s =>
      let url := (balance_endpoint w +:+ s)%string in
      tell (BalanceRequest url);;
      response ← of_result (get_json w url);
      student_number ← first_result response "idserial";
      last_swipe_time ← first_result response "txdate";
      balance ← (x ← first_result response "balance";
                 cents ← python_int w x;
                 hundredth cents);
      last_swipe_time_formatted ←
        match last_swipe_time with
        | JStr t => match reformat_time w t with
                    | Some t' => mret t'
                    | None => fail EValue
                    end
        | _ => fail EType
        end;
      let output := JObj (<["student_number" := student_number]>
                          (<["last_swipe_time" := JStr last_swipe_time_formatted]>
                           {[ "balance" := JFloat balance ]})) in
      tell (Printed output);;
      mret output
  | _ => fail EType
  end.

(** [query_weather], lines 78-79: the body is [pass]. *)
Definition query_weather (location : json) : W json := mret JNull.

(** [response.raise_for_status()] *)
Definition raise_for_status (response : http_response) : W unit :=
  if (400 <=? status_code response) && (status_code response <? 600)
  then fail (ERequest "HTTPError")
  else mret tt.

(** [v[:3]] *)
Definition first_three (w : Web) (v : json) : W json :=
  match v with
  | JList l => mret (JList (take 3 l))
  | JStr s => mret (JStr (Utf8.prefix 3 s))
  | JObj _ => fail (dict_slice_error w)
  | _ => fail EType
  end.

(** How an f-string shows a value. *)
Definition shown (w : Web) (v : json) : string :=
  match v with
  | JStr s => s
  | _ => str_of w v
  end.

Definition newline : string := String (Ascii.ascii_of_nat 10) EmptyString.

(** Lines 109-112: the loop over the search results, [i] being the index of
    the next one and [text] what has been written so far. *)
Fixpoint render (w : Web) (search_results : list json) (i : nat) (text : string) : W string :=
  match search_results with
  | [] => mret text
  | result :: rest =>
      name ← item result "name";
      snippet ← item result "snippet";
      render w rest (S i)
        (text +:+ pretty (i + 1)%nat +:+ ": " +:+ shown w name +:+ " - "
              +:+ shown w snippet +:+ newline)
  end.

(** The characters of a string, each as a string of its own: what a [for]
    loop over a [str] yields. *)
Definition characters (s : string) : list json := JStr <$> Utf8.chars s.

(** [query_bing], lines 95-114.  The [except] clause raises what it caught. *)
Definition query_bing (w : Web) (query : json) : W string :=
  tell (BingRequest query);;
  response ← of_result (bing_get w query);
  raise_for_status response;;
  response ← of_result (body response);
  pages ← item response "webPages";
  value ← item pages "value";
  search_results ← first_three w value;
  match search_results with
  | JList results => render w results 0 ""
  | JStr s => render w (characters s) 0 ""
  | _ => fail EType
  end.

End ExtendedDataFunctions.
Import ExtendedDataFunctions.

(** What one search result contributes: name and snippet, both strings. *)
Definition well_formed_result (result : json) (shown_as : string * string) : Prop :=
  ∃ r, result = JObj r
       ∧ r !! "name" = Some (JStr shown_as.1)
       ∧ r !! "snippet" = Some (JStr shown_as.2).

(** The text for a list of (name, snippet) pairs, numbered from [i + 1]. *)
Fixpoint rendered (lines : list (string * string)) (i : nat) : string :=
  match lines with
  | [] => ""
  | (name, snippet) :: rest =>
      pretty (i + 1)%nat +:+ ": " +:+ name +:+ " - " +:+ snippet +:+ newline
      +:+ rendered rest (S i)
  end.

(** A computation that neither sends a request nor prints. *)
Definition quiet {A} (m : W A) : Prop := m.1 = [].

(** ** The audio endpoints: translation of service errors *)

Module Audio.

(** The exception classes the [except] clauses name. *)
Inductive exception_class : Type :=
| AppModelConfigBrokenError
| NoAudioUploadedServiceError
| AudioTooLargeServiceError
| UnsupportedAudioTypeServiceError
| ProviderNotSupportSpeechToTextServiceError
| ProviderNotSupportTextToSpeechLanageServiceError
| ProviderTokenNotInitError
| QuotaExceededError
| ModelCurrentlyNotSupportError
| InvokeError
| ValueError
| Exception.

(** A raised exception: the classes above it is an instance of (the class
    hierarchy is declared elsewhere), [str(e)], and [e.description] when the
    attribute exists. *)
Record exception : Type := {
  instance_of : exception_class → bool;
  message : string;
  description : option pyval
}.

(** The errors of [controllers.console.app.error] and werkzeug's
    [InternalServerError], with their constructor argument. *)
Inductive http_error : Type :=
| AppUnavailableError (text : option string)
| NoAudioUploadedError
| AudioTooLargeError (text : string)
| UnsupportedAudioTypeError
| ProviderNotSupportSpeechToTextError
| ProviderNotInitializeError (text : pyval)
| ProviderQuotaExceededError
| ProviderModelCurrentlyNotSupportError
| CompletionRequestError (text : pyval)
| InternalServerError.

(** What leaves a [try] statement whose body raised. *)
Inductive raised : Type :=
| Http (e : http_error)
| Same (e : exception)
| AttributeError.

(** [raise Error(e.description)] *)
Definition with_description (error : pyval → http_error) (e : exception) : raised :=
  match description e with
  | Some text => Http (error text)
  | None => AttributeError
  end.

(** The clauses every endpoint has after its first one (lines 57-77, 100-120
    and 140-160), with the lines they log. *)
Definition common_clauses (e : exception) : list string * raised :=
  if instance_of e NoAudioUploadedServiceError then ([], Http NoAudioUploadedError)
  else if instance_of e AudioTooLargeServiceError
       then ([], Http (AudioTooLargeError (message e)))
  else if instance_of e UnsupportedAudioTypeServiceError
       then ([], Http UnsupportedAudioTypeError)
  else if instance_of e ProviderNotSupportSpeechToTextServiceError
       then ([], Http ProviderNotSupportSpeechToTextError)
  else if instance_of e ProviderTokenNotInitError
       then ([], with_description ProviderNotInitializeError e)
  else if instance_of e QuotaExceededError then ([], Http ProviderQuotaExceededError)
  else if instance_of e ModelCurrentlyNotSupportError
       then ([], Http ProviderModelCurrentlyNotSupportError)
  else if instance_of e InvokeError then ([], with_description CompletionRequestError e)
  else if instance_of e ValueError then ([], Same e)
  else if instance_of e Exception
       then ([("internal server error, " +:+ message e +:+ ".")%string],
             Http InternalServerError)
  else ([], Same e).

(** [ChatMessageAudioApi.post], lines 45-77, given what the body of the [try]
    does: it returns the service's response or raises. *)
Definition chat_message_audio {R} (body : exception + R) : list string * (raised + R) :=
  match body with
  | inr response => ([], inr response)
  | inl e =>
      if instance_of e AppModelConfigBrokenError
      then (["App model config broken."], inl (Http (AppUnavailableError None)))
      else let (log, r) := common_clauses e in (log, inl r)
  end.

(** [ChatMessageTextApi.post], lines 88-120; [decoded] is
    [{'data': response.data.decode('latin1')}]. *)
Definition chat_message_text {R} (body : exception + R) : list string * (raised + R) :=
  match body with
  | inr decoded => ([], inr decoded)
  | inl e =>
      if instance_of e AppModelConfigBrokenError
      then (["App model config broken."], inl (Http (AppUnavailableError None)))
      else let (log, r) := common_clauses e in (log, inl r)
  end.

(** [TextModesApi.get], lines 127-160. *)
Definition text_modes {R} (body : exception + R) : list string * (raised + R) :=
  match body with
  | inr response => ([], inr response)
  | inl e =>
      if instance_of e ProviderNotSupportTextToSpeechLanageServiceError
      then ([], inl (Http (AppUnavailableError
                             (Some "Text to audio voices language parameter loss."))))
      else let (log, r) := common_clauses e in (log, inl r)
  end.

End Audio.

(** The classes whose instances an endpoint turns into an error of its own,
    apart from its first clause. *)
Definition translated_classes : list Audio.exception_class :=
  [Audio.NoAudioUploadedServiceError; Audio.AudioTooLargeServiceError;
   Audio.UnsupportedAudioTypeServiceError;
   Audio.ProviderNotSupportSpeechToTextServiceError; Audio.ProviderTokenNotInitError;
   Audio.QuotaExceededError; Audio.ModelCurrentlyNotSupportError; Audio.InvokeError].

(** What may leave an endpoint when the service raises [e], [first] being the
    class of the endpoint's first clause: an HTTP error; [e] itself, and then
    [e] is a [ValueError] or no [Exception] at all and matches none of the
    translated classes; or an [AttributeError], and then [e] has no
    [description]. *)
Definition translation_sound (first : Audio.exception_class) (e : Audio.exception)
    (r : Audio.raised) : Prop :=
  match r with
  | Audio.Http _ => True
  | Audio.Same e' =>
      e' = e
      ∧ (Audio.instance_of e Audio.ValueError = true
         ∨ Audio.instance_of e Audio.Exception = false)
      ∧ Audio.instance_of e first = false
      ∧ Forall (λ c, Audio.instance_of e c = false) translated_classes
  | Audio.AttributeError =>
      Audio.description e = None
      ∧ (Audio.instance_of e Audio.ProviderTokenNotInitError = true
         ∨ Audio.instance_of e Audio.InvokeError = true)
  end.

(** ** Sample inputs for the further properties *)

Module Scenario.

(** A fragment without index key. *)
Definition stray_fragment : Document := {| page_content := "delta"; metadata := ∅ |}.

(** [Sample.world] with a solver that returns two rows whatever it is given. *)
Definition world_with_short_solver : World :=
  {| model_error := model_error Sample.world;
     embedding_search := embedding_search Sample.world;
     full_text_index_search := full_text_index_search Sample.world;
     full_text_thread_first := false;
     rerank_run := rerank_run Sample.world;
     embed_query := embed_query Sample.world;
     embed_documents := embed_documents Sample.world;
     perturbed := perturbed Sample.world;
     add_noise := add_noise Sample.world;
     fit_transform := λ _ _, [(inject_Z 0, 0%Q); (inject_Z 1, 0%Q)];
     document_segments := document_segments Sample.world |}.

(** [Sample.world] with a reranker that fails. *)
Definition world_with_failing_reranker : World :=
  {| model_error := model_error Sample.world;
     embedding_search := embedding_search Sample.world;
     full_text_index_search := full_text_index_search Sample.world;
     full_text_thread_first := false;
     rerank_run := λ _ _ _ _ _ _, inl (ProviderError "InvokeServerUnavailableError");
     embed_query := embed_query Sample.world;
     embed_documents := embed_documents Sample.world;
     perturbed := perturbed Sample.world;
     add_noise := add_noise Sample.world;
     fit_transform := fit_transform Sample.world;
     document_segments := document_segments Sample.world |}.

(** [Sample.world] with an embedding provider that fails. *)
Definition world_without_embeddings : World :=
  {| model_error := model_error Sample.world;
     embedding_search := embedding_search Sample.world;
     full_text_index_search := full_text_index_search Sample.world;
     full_text_thread_first := false;
     rerank_run := rerank_run Sample.world;
     embed_query := λ _ _, inl (ProviderError "InvokeConnectionError");
     embed_documents := embed_documents Sample.world;
     perturbed := perturbed Sample.world;
     add_noise := add_noise Sample.world;
     fit_transform := fit_transform Sample.world;
     document_segments := document_segments Sample.world |}.

Definition rerank_names : gmap string pyval :=
  list_to_map [
    ("reranking_provider_name", PStr "cohere");
    ("reranking_model_name", PStr "rerank-english-v2.0")].

(** The arguments [Sample.hybrid_config] gives a search on [Sample.dataset]. *)
Definition hybrid_kwargs : SearchKwargs :=
  {| kw_dataset_id := "ds-1"; kw_query := "what is alpha"; kw_top_k := PInt 3;
     kw_score_threshold := PNone; kw_reranking_model := PDict rerank_names;
     kw_search_method := PStr "hybrid_search";
     kw_embeddings := Sample.embedding_handle |}.

(** A configuration with a search method the service does not know. *)
Definition keyword_config_map : gmap string pyval :=
  {[ "search_method" := PStr "keyword_search" ]}.

(** What the module imports: classes and functions without description, and
    objects that cannot be called ([requests] and [api]). *)
Definition imports : module_state :=
  {| globals := [("datetime", 0%nat); ("ZoneInfo", 1%nat); ("requests", 2%nat);
                 ("Resource", 3%nat); ("api", 4%nat); ("setup_required", 5%nat);
                 ("account_initialization_required", 6%nat);
                 ("login_required", 7%nat)];
     objects := λ r, if Nat.eqb r 2 || Nat.eqb r 4
                     then {| callable := false; attributes := ∅ |}
                     else new_callable;
     next := 8%nat |}.


Definition search_result (name snippet : string) : json :=
  JObj (list_to_map [("name", JStr name); ("snippet", JStr snippet)]).

Definition bing_body (results : list json) : json :=
  JObj {[ "webPages" := JObj {[ "value" := JList results ]} ]}.

Definition four_results : list json :=
  [search_result "Dify" "An LLM application platform";
   search_result "Dify docs" "Getting started";
   search_result "Dify on GitHub" "Source code";
   search_result "Dify blog" "Release notes"].

Definition nameless_result : gmap string json := {[ "snippet" := JStr "Lost title" ]}.

Definition card_record : gmap string json :=
  list_to_map [("idserial", JStr "2021000001"); ("txdate", JStr "20240301120000");
               ("balance", JStr "1250")].

(** A record whose balance is too large for a float. *)
Definition huge_record : gmap string json :=
  list_to_map [("idserial", JStr "2021000009"); ("txdate", JStr "20240301120000");
               ("balance", JInt (10 ^ 400))].

Definition card_result (records : list json) : gmap string json :=
  {[ "result" := JList records ]}.

Definition card_body (records : list json) : gmap string json :=
  {[ "retJSON" := JObj (card_result records) ]}.

(** A world in which the card system knows two students and the search
    service answers three queries. *)
Definition web : Web :=
  {| balance_endpoint := "http://cards.example/balance?idserial=";
     get_json := λ url,
       if String.eqb url "http://cards.example/balance?idserial=2021000001"
       then inr (JObj (card_body [JObj card_record; JNull]))
       else if String.eqb url "http://cards.example/balance?idserial=0"
       then inr (JObj (card_body []))
       else if String.eqb url "http://cards.example/balance?idserial=2021000009"
       then inr (JObj (card_body [JObj huge_record]))
       else inl (ERequest "ConnectionError");
     bing_get := λ query,
       match query with
       | JStr "dify" => inr {| status_code := 200; body := inr (bing_body four_results) |}
       | JStr "partial" =>
           inr {| status_code := 200;
                  body := inr (bing_body [search_result "Dify" "An LLM application platform";
                                          JObj nameless_result]) |}
       | JStr "down" => inr {| status_code := 503; body := inl (ERequest "JSONDecodeError") |}
       | _ => inl (ERequest "ConnectionError")
       end;
     int_of_str := λ s, if String.eqb s "1250" then Some 1250 else None;
     reformat_time := λ s,
       if String.eqb s "20240301120000" then Some "2024-03-01 12:00:00"%string else None;
     str_of := λ _, "?"%string;
     dict_slice_error := EType |}.

Definition card_output : json :=
  JObj (<["student_number" := JStr "2021000001"]>
        (<["last_swipe_time" := JStr "2024-03-01 12:00:00"]>
         {[ "balance" := JFloat (inject_Z 1250 / 100)%Q ]})).

End Scenario.

(** ** Reasoning about computations *)

Section Computations.
Context {A B : Type}.

Lemma trace_ret (a : A) : trace_of (mret a : M A) = [].
Proof. reflexivity. Qed.

Lemma bind_ok (m : M A) (f : A → M B) a :
  outcome m = inr a →
  m ≫= f = (trace_of m ++ trace_of (f a), outcome (f a)).
Proof. destruct m as [t r]; simpl; intros ->; reflexivity. Qed.

Lemma bind_raises (m : M A) (f : A → M B) e :
  outcome m = inl e → m ≫= f = (trace_of m, inl e).
Proof. destruct m as [t r]; simpl; intros ->; reflexivity. Qed.

Lemma trace_bind (m : M A) (f : A → M B) :
  trace_of (m ≫= f) =
  trace_of m ++ match outcome m with inr a => trace_of (f a) | inl _ => [] end.
Proof.
  destruct m as [t [e|a]]; unfold mbind, M_bind, trace_of; simpl;
    [by rewrite app_nil_r | done].
Qed.

Lemma outcome_bind (m : M A) (f : A → M B) :
  outcome (m ≫= f) =
  match outcome m with inr a => outcome (f a) | inl e => inl e end.
Proof. by destruct m as [t [e|a]]. Qed.
End Computations.

Lemma calls_app p t1 t2 : calls p (t1 ++ t2) = (calls p t1 + calls p t2)%nat.
Proof. induction t1 as [|e t1 IH]; simpl; [done | rewrite IH; lia]. Qed.

Lemma calls_none p t : Forall (λ e, p e = false) t → calls p t = 0%nat.
Proof. induction 1 as [|e t He _ IH]; simpl; [done | by rewrite He, IH]. Qed.

(** Evaluation of the small steps. *)
Ltac step :=
  unfold mbind, M_bind, mret, M_ret, raise, emit, lift, trace_of, outcome in *; simpl in *.

(** ** The empty-dataset short-circuit *)

Lemma retrieve_short_circuit w dataset query account retrieval_model limit :
  empty_dataset dataset →
  retrieve w dataset query account retrieval_model limit = mret (empty_result query).
Proof.
  intros Hempty. unfold retrieve.
  replace ((available_document_count dataset =? 0)
           || (available_segment_count dataset =? 0)) with true; [done|].
  symmetry. apply orb_true_iff.
  destruct Hempty as [->| ->]; [left | right]; reflexivity.
Qed.

Lemma retrieve_not_short_circuit w dataset query account retrieval_model limit :
  ¬ empty_dataset dataset →
  retrieve w dataset query account retrieval_model limit =
  (retrieve_search w dataset query account retrieval_model ≫= λ '(embeddings, all_documents),
     emit (DbAddCommit (dataset_query dataset query account));;
     compact_retrieve_response w dataset embeddings query all_documents).
Proof.
  intros Hne. unfold retrieve.
  destruct (available_document_count dataset =? 0) eqn:Hd.
  { exfalso. apply Hne. left. by apply Z.eqb_eq. }
  destruct (available_segment_count dataset =? 0) eqn:Hs; [|done].
  exfalso. apply Hne. right. by apply Z.eqb_eq.
Qed.

(** C2. On a dataset with no available document or no available segment,
    [retrieve] returns a result whose records list is empty and whose query
    position is [{x: 0, y: 0}]; neither search strategy is started and no
    row is written to the query log. *)
Theorem empty_dataset_short_circuit w dataset query account retrieval_model limit :
  empty_dataset dataset →
  let r := retrieve w dataset query account retrieval_model limit in
  (∃ result, outcome r = inr result
             ∧ query_content result = query
             ∧ records result = []
             ∧ query_tsne_position result = {| pos_x := PInt 0; pos_y := PInt 0 |})
  ∧ calls is_embedding_search (trace_of r) = 0%nat
  ∧ calls is_full_text_search (trace_of r) = 0%nat
  ∧ calls is_log_write (trace_of r) = 0%nat.
Proof.
  intros Hempty r. subst r. rewrite retrieve_short_circuit by done.
  split; [by exists (empty_result query) | done].
Qed.

(** C10. The short-circuit comes first: on such a dataset [retrieve] returns
    the empty result and does not raise, whatever the supplied configuration
    (empty or not), the saved configuration (present or not) and the model
    manager's answer; the model manager is not even asked. *)
Theorem short_circuit_precedes_model_lookup w dataset query account retrieval_model limit :
  empty_dataset dataset →
  let r := retrieve w dataset query account retrieval_model limit in
  outcome r = inr (empty_result query)
  ∧ calls is_model_lookup (trace_of r) = 0%nat
  ∧ trace_of r = [].
Proof.
  intros Hempty r. subst r. by rewrite retrieve_short_circuit.
Qed.

(** For contrast: past the short-circuit an unresolvable embedding model
    makes the call raise. *)
Lemma retrieve_unresolvable_model_raises w dataset query account retrieval_model limit e :
  ¬ empty_dataset dataset →
  model_error w (ds_tenant_id dataset) TEXT_EMBEDDING
    (embedding_model_provider dataset) (embedding_model dataset) = Some e →
  outcome (retrieve w dataset query account retrieval_model limit) = inl e.
Proof.
  intros Hne He. rewrite retrieve_not_short_circuit by done.
  unfold retrieve_search, get_model_instance. step. rewrite He. reflexivity.
Qed.

(** ** The 2D positioning step *)

(** C8. A collection of at most one vector gets the single position
    [{x: 0, y: 0}]; the solver is not run and no noise is drawn. *)
Theorem tsne_degenerate_collection w (embeddings : list vec) :
  (length embeddings ≤ 1)%nat →
  let r := get_tsne_positions_from_embeddings w embeddings in
  outcome r = inr [ {| pos_x := PInt 0; pos_y := PInt 0 |} ]
  ∧ calls is_solver (trace_of r) = 0%nat
  ∧ calls is_noise (trace_of r) = 0%nat.
Proof.
  intros Hlen r. subst r. unfold get_tsne_positions_from_embeddings.
  replace (length embeddings <=? 1)%nat with true; [done|].
  symmetry. by apply Nat.leb_le.
Qed.

Lemma tsne_trace w (embeddings : list vec) :
  (2 ≤ length embeddings)%nat →
  trace_of (get_tsne_positions_from_embeddings w embeddings) =
  [ RandomNormal (length embeddings);
    TsneFitTransform (tsne_perplexity (length embeddings)) (add_noise w embeddings) ].
Proof.
  intros Hlen. unfold get_tsne_positions_from_embeddings.
  replace (length embeddings <=? 1)%nat with false; [done|].
  symmetry. apply Nat.leb_gt. lia.
Qed.

Lemma half_plus_one (n : Z) : (inject_Z n / 2 + 1 == (n + 2) # 2)%Q.
Proof.
  unfold Qeq, Qdiv, Qplus, Qmult, Qinv, inject_Z; simpl. lia.
Qed.

Lemma clamp_triggers (count : nat) :
  (2 ≤ count)%nat →
  (inject_Z (Z.of_nat count) <= inject_Z (Z.of_nat count) / 2 + 1)%Q ↔ count = 2%nat.
Proof.
  intros Hc. rewrite half_plus_one. unfold Qle, inject_Z; simpl. lia.
Qed.

(** C5. With [count >= 2] vectors the solver is run once, on the noisy data,
    with this perplexity: [count/2 + 1] when that is below [count], and
    [max(count - 1, 1)] when it is not.  For [count = 2] the value before
    the clamp is 2, the clamp applies and the perplexity is 1. *)
Theorem tsne_perplexity_clamp w (embeddings : list vec) :
  let count := length embeddings in
  let unclamped := (inject_Z (Z.of_nat count) / 2 + 1)%Q in
  (2 ≤ count)%nat →
  ∃ perplexity,
    filter (λ e, is_solver e = true)
      (trace_of (get_tsne_positions_from_embeddings w embeddings))
    = [TsneFitTransform perplexity (add_noise w embeddings)]
    ∧ ((unclamped >= inject_Z (Z.of_nat count))%Q →
       perplexity = PInt (Z.max (Z.of_nat count - 1) 1))
    ∧ ((unclamped < inject_Z (Z.of_nat count))%Q → perplexity = PFloat unclamped)
    ∧ (count = 2%nat →
       (unclamped == 2)%Q
       ∧ (unclamped >= inject_Z (Z.of_nat count))%Q
       ∧ perplexity = PInt 1).
Proof.
  intros count unclamped Hc.
  exists (tsne_perplexity count). rewrite tsne_trace by done.
  split; [reflexivity|]. unfold tsne_perplexity. fold unclamped.
  destruct (Qle_bool (inject_Z (Z.of_nat count)) unclamped) eqn:Hle.
  - split; [done|]. split.
    + intros Hlt. apply Qle_bool_iff in Hle.
      exfalso. eapply Qlt_not_le; eassumption.
    + intros H2. subst unclamped. rewrite H2. repeat split.
      unfold Qle; simpl; lia.
  - split; [|split; [done|]].
    + intros Hge. apply Qle_bool_iff in Hge. congruence.
    + intros H2. subst unclamped. rewrite H2 in Hle. discriminate Hle.
Qed.

(** The perplexity handed to the solver always stays below the number of
    samples. *)
Lemma tsne_perplexity_below_count (count : nat) :
  (2 ≤ count)%nat →
  match tsne_perplexity count with
  | PInt z => 1 ≤ z < Z.of_nat count
  | PFloat q => (1 < q)%Q ∧ (q < inject_Z (Z.of_nat count))%Q
  | _ => False
  end.
Proof.
  intros Hc. unfold tsne_perplexity.
  destruct (Qle_bool _ _) eqn:Hle.
  - apply Qle_bool_iff, clamp_triggers in Hle; [|done]. subst. simpl. lia.
  - split.
    + rewrite half_plus_one. unfold Qlt; simpl. lia.
    + apply Qnot_le_lt. intros Hq. apply Qle_bool_iff in Hq. congruence.
Qed.

(** ** Text: the encoding and its length *)

Lemma byte_value n : (n < 256)%N → Ascii.N_of_ascii (Utf8.byte n) = n.
Proof. apply Ascii.N_ascii_embedding. Qed.

Lemma lead_byte n :
  (n < 128)%N ∨ ((192 ≤ n)%N ∧ (n < 256)%N) → Utf8.is_continuation (Utf8.byte n) = false.
Proof.
  intros H. unfold Utf8.is_continuation. rewrite byte_value by lia.
  destruct (N.leb_spec 128 n), (N.ltb_spec n 192); simpl; try done; lia.
Qed.

Lemma continuation_byte n : (n < 64)%N → Utf8.is_continuation (Utf8.byte (128 + n)) = true.
Proof.
  intros H. unfold Utf8.is_continuation. rewrite byte_value by lia.
  destruct (N.leb_spec 128 (128 + n)), (N.ltb_spec (128 + n) 192); simpl; try done; lia.
Qed.

Lemma code_points_app a b :
  Utf8.code_points (a +:+ b) = (Utf8.code_points a + Utf8.code_points b)%nat.
Proof.
  induction a as [|c a IH]; [done|].
  change (String c a +:+ b)%string with (String c (a +:+ b)).
  cbn [Utf8.code_points]. rewrite IH. lia.
Qed.

Lemma code_points_encode (c : N) : Utf8.valid c → Utf8.code_points (Utf8.encode c) = 1%nat.
Proof.
  unfold Utf8.valid, Utf8.encode. intros Hc.
  destruct (N.ltb_spec c 128); [|destruct (N.ltb_spec c 2048); [|destruct (N.ltb_spec c 65536)]];
    cbn [Utf8.code_points]; rewrite ?continuation_byte by (by apply N.mod_lt).
  - rewrite (lead_byte c) by (left; lia). done.
  - assert (c / 64 < 32)%N by (apply N.Div0.div_lt_upper_bound; lia).
    pose proof (N.le_0_l (c / 64)).
    rewrite (lead_byte (192 + c / 64)) by (right; split; lia). done.
  - assert (c / 4096 < 16)%N by (apply N.Div0.div_lt_upper_bound; lia).
    pose proof (N.le_0_l (c / 4096)).
    rewrite (lead_byte (224 + c / 4096)) by (right; split; lia). done.
  - assert (c / 262144 < 5)%N by (apply N.Div0.div_lt_upper_bound; lia).
    pose proof (N.le_0_l (c / 262144)).
    rewrite (lead_byte (240 + c / 262144)) by (right; split; lia). done.
Qed.

(** The length of a text is the number of its code points, whatever the
    number of bytes each one takes. *)
Lemma code_points_utf8 text :
  Forall Utf8.valid text → Utf8.code_points (Utf8.utf8 text) = length text.
Proof.
  induction 1 as [|c text Hc _ IH]; [done|].
  cbn [Utf8.utf8 length]. by rewrite code_points_app, code_points_encode, IH.
Qed.

Lemma utf8_nil text : Utf8.utf8 text = "" → text = [].
Proof.
  destruct text as [|c text]; [done|]. cbn [Utf8.utf8]. unfold Utf8.encode.
  by repeat case_match.
Qed.

Lemma chars_last b s :
  Utf8.continues s = false → Utf8.chars (String b s) = String b "" :: Utf8.chars s.
Proof. intros Hs. cbn [Utf8.chars]. rewrite Hs. by destruct (Utf8.chars s). Qed.

Lemma chars_continued b n s rest more :
  (n < 64)%N →
  Utf8.chars (String (Utf8.byte (128 + n)) s) = rest :: more →
  Utf8.chars (String b (String (Utf8.byte (128 + n)) s)) = String b rest :: more.
Proof.
  intros Hn Hs. change (Utf8.chars (String b ?t)) with
    (match Utf8.chars t with
     | next :: more' =>
         if Utf8.continues t then String b next :: more' else String b "" :: next :: more'
     | [] => [String b ""]
     end).
  rewrite Hs. cbn [Utf8.continues]. by rewrite continuation_byte.
Qed.

Lemma chars_encode (c : N) s :
  Utf8.valid c → Utf8.continues s = false →
  Utf8.chars (Utf8.encode c +:+ s) = Utf8.encode c :: Utf8.chars s.
Proof.
  intros Hc Hs. unfold Utf8.encode.
  repeat case_match;
    repeat match goal with
           | |- context [(String ?b ?t +:+ s)%string] =>
               change (String b t +:+ s)%string with (String b (t +:+ s))
           end;
    change ("" +:+ s)%string with s.
  - by apply chars_last.
  - apply chars_continued; [by apply N.mod_lt|]. by apply chars_last.
  - apply chars_continued; [by apply N.mod_lt|].
    apply chars_continued; [by apply N.mod_lt|]. by apply chars_last.
  - apply chars_continued; [by apply N.mod_lt|].
    apply chars_continued; [by apply N.mod_lt|].
    apply chars_continued; [by apply N.mod_lt|]. by apply chars_last.
Qed.

Lemma continues_utf8 text : Forall Utf8.valid text → Utf8.continues (Utf8.utf8 text) = false.
Proof.
  destruct 1 as [|c text Hc _]; [done|]. cbn [Utf8.utf8]. unfold Utf8.valid in Hc.
  unfold Utf8.encode.
  destruct (N.ltb_spec c 128); [|destruct (N.ltb_spec c 2048); [|destruct (N.ltb_spec c 65536)]];
    match goal with
    | |- context [(String ?b ?t +:+ ?s)%string] =>
        change (String b t +:+ s)%string with (String b (t +:+ s))
    end; cbn [Utf8.continues].
  - apply lead_byte. left. lia.
  - assert (c / 64 < 32)%N by (apply N.Div0.div_lt_upper_bound; lia).
    pose proof (N.le_0_l (c / 64)). apply lead_byte. right. split; lia.
  - assert (c / 4096 < 16)%N by (apply N.Div0.div_lt_upper_bound; lia).
    pose proof (N.le_0_l (c / 4096)). apply lead_byte. right. split; lia.
  - assert (c / 262144 < 5)%N by (apply N.Div0.div_lt_upper_bound; lia).
    pose proof (N.le_0_l (c / 262144)). apply lead_byte. right. split; lia.
Qed.

(** The characters of a text are the encodings of its code points. *)
Lemma chars_utf8 text :
  Forall Utf8.valid text → Utf8.chars (Utf8.utf8 text) = Utf8.encode <$> text.
Proof.
  induction 1 as [|c text Hc Htext IH]; [done|].
  cbn [Utf8.utf8 fmap list_fmap]. rewrite chars_encode; [by rewrite IH | done |].
  by apply continues_utf8.
Qed.

(** ** Query validation *)

(** C7. The check raises for the empty query and for every query of more than
    250 characters, and passes every other query; so 251 characters raise and
    250 do not.  Characters are code points, as [len] counts them, not bytes
    of the encoding: for the encoding of a text the count is the length of
    the text.  (The error the specification calls InvalidQueryError is this
    [ValueError].) *)
Theorem hit_testing_args_check_query (args : gmap string pyval) (q : string) :
  args !! "query" = Some (PStr q) →
  let r := outcome (hit_testing_args_check (PDict args)) in
  let count := Utf8.code_points q in
  ((q = "" ∨ (250 < count)%nat) → r = inl query_error)
  ∧ ((q ≠ "" ∧ (count ≤ 250)%nat) → r = inr tt)
  ∧ (count = 251%nat → r = inl query_error)
  ∧ (count = 250%nat → r = inr tt)
  ∧ (∀ text, Forall Utf8.valid text → q = Utf8.utf8 text → count = length text).
Proof.
  intros Hq r count.
  assert (Hr : r = if negb (String.eqb q "") && negb (250 <? Z.of_nat count)
                   then inr tt else inl query_error).
  { subst r count. unfold hit_testing_args_check, subscript. rewrite Hq. step.
    destruct (String.eqb q ""); simpl; [done|].
    by destruct (250 <? Z.of_nat (Utf8.code_points q)). }
  rewrite Hr. clear Hr r.
  assert (Hempty : String.eqb q "" = true ↔ q = "") by apply String.eqb_eq.
  assert (Htext : ∀ text, Forall Utf8.valid text → q = Utf8.utf8 text →
                          count = length text).
  { intros text Hv ->. by apply code_points_utf8. }
  destruct (String.eqb q "") eqn:He; simpl.
  - assert (q = "") as -> by (by apply Hempty). subst count. simpl in *.
    repeat split; try done. by intros [? _].
  - assert (q ≠ "") by (intros ->; by apply Hempty in He || discriminate).
    destruct (250 <? Z.of_nat count) eqn:Hl; simpl.
    + apply Z.ltb_lt in Hl. repeat split; try done; intros; lia.
    + apply Z.ltb_ge in Hl. repeat split; try done.
      * intros [?|?]; [done | lia].
      * intros; lia.
Qed.

(** ** Projection: fragments, stored segments and positions *)

Section Cursor.
Variables (w : World) (dataset : Dataset) (tsne_position_data : list Position).

(** A fragment without a stored segment yields no record and no error; the
    cursor moves on. *)
Lemma collect_records_dropped document rest i k :
  metadata document !! "doc_id" = Some k →
  first_segment w dataset k = None →
  collect_records w dataset tsne_position_data (document :: rest) i =
  collect_records w dataset tsne_position_data rest (S i).
Proof.
  intros Hk Hs. simpl. unfold subscript. rewrite Hk. step. rewrite Hs.
  by destruct (collect_records _ _ _ _ _).
Qed.

(** A fragment with a stored segment takes the position under the cursor. *)
Lemma collect_records_kept document rest i k segment p :
  metadata document !! "doc_id" = Some k →
  first_segment w dataset k = Some segment →
  tsne_position_data !! i = Some p →
  collect_records w dataset tsne_position_data (document :: rest) i =
  (records ← collect_records w dataset tsne_position_data rest (S i);
   mret (hit_record segment document p :: records)).
Proof.
  intros Hk Hs Hp. simpl. unfold subscript. rewrite Hk. step. rewrite Hs, Hp.
  by destruct (collect_records _ _ _ _ _) as [t [e|recs]].
Qed.

(** The loop has no observable call of its own. *)
Lemma collect_records_trace documents i :
  trace_of (collect_records w dataset tsne_position_data documents i) = [].
Proof.
  revert i. induction documents as [|d rest IH]; intros i; [done|].
  simpl. unfold subscript.
  destruct (metadata d !! "doc_id") as [k|]; [|done]. step.
  destruct (first_segment w dataset k) as [s|].
  - destruct (tsne_position_data !! i) as [p|]; [|done]. simpl.
    specialize (IH (S i)). unfold trace_of in IH.
    destruct (collect_records _ _ _ rest (S i)) as [t [e|recs]]; simpl in *;
      by subst.
  - apply IH.
Qed.

(** Alignment in general: every record that comes out belongs to one input
    fragment, and carries the position at that fragment's own index. *)
Lemma collect_records_aligned documents i records :
  outcome (collect_records w dataset tsne_position_data documents i) = inr records →
  Forall (λ r, ∃ j document k,
              documents !! j = Some document
              ∧ metadata document !! "doc_id" = Some k
              ∧ first_segment w dataset k = Some (rec_segment r)
              ∧ tsne_position_data !! (i + j)%nat = Some (rec_tsne_position r))
         records.
Proof.
  revert i records. induction documents as [|d rest IH]; intros i records.
  { intros [= <-]. constructor. }
  simpl. unfold subscript.
  destruct (metadata d !! "doc_id") as [k|] eqn:Hk; [|done]. step.
  destruct (first_segment w dataset k) as [s|] eqn:Hs.
  - destruct (tsne_position_data !! i) as [p|] eqn:Hp; [|done]. simpl.
    destruct (collect_records _ _ _ rest (S i)) as [t [e|recs]] eqn:Hrest;
      simpl; [done|].
    intros [= <-]. constructor.
    + exists 0%nat, d, k. simpl. by rewrite Nat.add_0_r.
    + specialize (IH (S i) recs). rewrite Hrest in IH.
      eapply Forall_impl; [by apply IH|].
      intros r (j & d' & k' & ? & ? & ? & ?).
      exists (S j), d', k'. by replace (i + S j)%nat with (S i + j)%nat by lia.
  - intros Hrec. eapply Forall_impl; [by apply IH|].
    intros r (j & d' & k' & ? & ? & ? & ?).
    exists (S j), d', k'. by replace (i + S j)%nat with (S i + j)%nat by lia.
Qed.
End Cursor.

Lemma assemble_response_three w dataset query d1 d2 d3 k1 k2 k3 s1 s3 positions p0 p1 p3 :
  metadata d1 !! "doc_id" = Some k1 →
  metadata d2 !! "doc_id" = Some k2 →
  metadata d3 !! "doc_id" = Some k3 →
  first_segment w dataset k1 = Some s1 →
  first_segment w dataset k2 = None →
  first_segment w dataset k3 = Some s3 →
  positions !! 0%nat = Some p0 →
  positions !! 1%nat = Some p1 →
  positions !! 3%nat = Some p3 →
  assemble_response w dataset query [d1; d2; d3] positions =
  mret {| query_content := query; query_tsne_position := p0;
          records := [hit_record s1 d1 p1; hit_record s3 d3 p3] |}.
Proof.
  intros Hk1 Hk2 Hk3 Hs1 Hs2 Hs3 Hp0 Hp1 Hp3.
  destruct positions as [|q0 rest]; [done|]. simpl in Hp0, Hp1, Hp3.
  injection Hp0 as ->. unfold assemble_response.
  rewrite (collect_records_kept _ _ _ _ _ _ _ _ _ Hk1 Hs1 Hp1).
  rewrite (collect_records_dropped _ _ _ _ _ _ _ Hk2 Hs2).
  rewrite (collect_records_kept _ _ _ _ _ _ _ _ _ Hk3 Hs3 Hp3).
  reflexivity.
Qed.

(** C1. Three fragments go into the projection step; the first and the third
    have a stored segment (of the dataset, enabled, completed), the second
    has none.  Then the response holds two records, for the first and the
    third fragment; the first record has the second of the computed
    positions and the second record the fourth, the first computed position
    being the query's. *)
Theorem fragment_record_alignment w dataset embeddings query d1 d2 d3 k1 k2 k3 s1 s3
    query_embedding document_embeddings positions p0 p1 p3 :
  metadata d1 !! "doc_id" = Some k1 →
  metadata d2 !! "doc_id" = Some k2 →
  metadata d3 !! "doc_id" = Some k3 →
  first_segment w dataset k1 = Some s1 →
  first_segment w dataset k2 = None →
  first_segment w dataset k3 = Some s3 →
  embed_query w embeddings query = inr query_embedding →
  embed_documents w embeddings (page_content <$> [d1; d2; d3]) = inr document_embeddings →
  outcome (get_tsne_positions_from_embeddings w
             (query_embedding :: perturb_identical w query_embedding document_embeddings))
    = inr positions →
  positions !! 0%nat = Some p0 →
  positions !! 1%nat = Some p1 →
  positions !! 3%nat = Some p3 →
  ∃ result,
    outcome (compact_retrieve_response w dataset embeddings query [d1; d2; d3]) = inr result
    ∧ length (records result) = 2%nat
    ∧ rec_segment <$> records result = [s1; s3]
    ∧ rec_tsne_position <$> records result = [p1; p3]
    ∧ query_tsne_position result = p0.
Proof.
  intros Hk1 Hk2 Hk3 Hs1 Hs2 Hs3 Hq Hd Hpos Hp0 Hp1 Hp3.
  exists {| query_content := query; query_tsne_position := p0;
            records := [hit_record s1 d1 p1; hit_record s3 d3 p3] |}.
  split; [|done].
  unfold compact_retrieve_response.
  rewrite outcome_bind.
  replace (outcome (emit (EmbedQuery query);; lift (embed_query w embeddings query)))
    with (inr query_embedding : exn + vec) by (by rewrite Hq).
  rewrite outcome_bind.
  replace (outcome (emit (EmbedDocuments (page_content <$> [d1; d2; d3]));;
                    lift (embed_documents w embeddings (page_content <$> [d1; d2; d3]))))
    with (inr document_embeddings : exn + list vec) by (by rewrite Hd).
  rewrite outcome_bind, Hpos.
  by rewrite (assemble_response_three _ _ _ _ _ _ _ _ _ _ _ _ _ _ _
                Hk1 Hk2 Hk3 Hs1 Hs2 Hs3 Hp0 Hp1 Hp3).
Qed.

(** ** Shapes of the search phase *)

Lemma silent_cases {A} (m : M A) :
  silent m → (∃ e, m = raise e) ∨ (∃ a, m = mret a).
Proof.
  destruct m as [t [e|a]]; unfold silent; simpl; intros ->; [left | right]; by eexists.
Qed.

Lemma raise_bind {A B} e (f : A → M B) : raise e ≫= f = raise e.
Proof. reflexivity. Qed.

Lemma ret_bind {A B} (a : A) (f : A → M B) : mret a ≫= f = f a.
Proof. unfold mbind, M_bind, mret, M_ret; simpl. by destruct (f a). Qed.

Lemma subscript_silent d k : silent (subscript d k).
Proof. destruct d; try done. simpl. by destruct (d !! k). Qed.

Lemma silent_bind {A B} (m : M A) (f : A → M B) :
  silent m → (∀ a, silent (f a)) → silent (m ≫= f).
Proof.
  intros Hm Hf. destruct (silent_cases m Hm) as [[e ->]|[a ->]].
  - by rewrite raise_bind.
  - rewrite ret_bind. apply Hf.
Qed.

Lemma subscript_if_silent d flag key : silent (subscript_if d flag key).
Proof.
  apply silent_bind; [apply subscript_silent|].
  intros v. destruct (truthy v); [apply subscript_silent | done].
Qed.

Lemma search_method_is_silent d a b : silent (search_method_is d a b).
Proof.
  apply silent_bind; [apply subscript_silent|].
  intros v. destruct (eq_str v a); [done|].
  apply silent_bind; [apply subscript_silent | done].
Qed.

Create HintDb silent.
#[local] Hint Resolve subscript_silent subscript_if_silent search_method_is_silent : silent.

(** Case analysis on the first step of a computation when that step is
    silent: either it raises, and so does the whole, or it yields a value. *)
Ltac silent_step :=
  match goal with
  | |- context [@mbind M _ _ _ ?f ?m] =>
      let H := fresh "Hsilent" in
      assert (H : silent m) by auto with silent;
      destruct (silent_cases m H) as [[? ->]|[? ->]]; clear H;
      [rewrite ?raise_bind | rewrite !ret_bind]
  end.

Lemma get_model_instance_cases w t ty p m :
  (∃ e, get_model_instance w t ty p m = ([GetModelInstance t ty p m], inl e))
  ∨ (∃ i, get_model_instance w t ty p m = ([GetModelInstance t ty p m], inr i)).
Proof.
  unfold get_model_instance.
  destruct (model_error w t ty p m); [left | right]; by eexists.
Qed.

Lemma bind_prefix {A B} t (a : A) (f : A → M B) :
  ((t, inr a) : M A) ≫= f = (t ++ trace_of (f a), outcome (f a)).
Proof. reflexivity. Qed.

Ltac model_step :=
  match goal with
  | |- context [get_model_instance ?w ?t ?ty ?p ?m] =>
      destruct (get_model_instance_cases w t ty p m) as [[? ->]|[? ->]]
  end.

Lemma subscript_eval (m : gmap string pyval) k v :
  m !! k = Some v → subscript (PDict m) k = mret v.
Proof. intros H. unfold subscript. by rewrite H. Qed.

Lemma start_embedding_thread_any w dataset query retrieval_model embeddings :
  ∃ selected, thread_choice EmbeddingSearch selected
                (start_embedding_thread w dataset query retrieval_model embeddings).
Proof.
  unfold start_embedding_thread.
  silent_step; [eexists; apply thread_raises|].
  destruct x; [|eexists; apply thread_skipped].
  do 4 (silent_step; [eexists; apply thread_raises|]).
  eexists; apply thread_started.
Qed.

Lemma start_full_text_index_thread_any w dataset query retrieval_model embeddings :
  ∃ selected, thread_choice FullTextIndexSearch selected
                (start_full_text_index_thread w dataset query retrieval_model embeddings).
Proof.
  unfold start_full_text_index_thread.
  silent_step; [eexists; apply thread_raises|].
  destruct x; [|eexists; apply thread_skipped].
  do 4 (silent_step; [eexists; apply thread_raises|]).
  eexists; apply thread_started.
Qed.

Lemma rerank_any w dataset query account retrieval_model all_documents :
  ∃ hybrid, rerank_choice all_documents hybrid
              (rerank w dataset query account retrieval_model all_documents).
Proof.
  unfold rerank.
  silent_step; [eexists; apply rerank_config_raises|].
  destruct (eq_str x "hybrid_search"); [|eexists; apply rerank_skipped].
  do 3 (silent_step; [eexists; apply rerank_config_raises|]).
  model_step; [eexists; apply rerank_model_raises|].
  rewrite bind_prefix.
  do 2 (silent_step; [eexists; apply rerank_model_raises|]).
  eexists; apply rerank_ran.
Qed.

(** With the search method known, the choices are determined by it. *)
Section Selection.
Variables (m : gmap string pyval) (method : string).
Hypothesis Hmethod : m !! "search_method" = Some (PStr method).

Lemma search_method_is_eval a b :
  search_method_is (PDict m) a b = mret (String.eqb method a || String.eqb method b).
Proof.
  unfold search_method_is. rewrite (subscript_eval _ _ _ Hmethod), ret_bind.
  simpl eq_str.
  destruct (String.eqb method a); [done|]. by rewrite ret_bind.
Qed.

Lemma start_embedding_thread_choice w dataset query embeddings :
  thread_choice EmbeddingSearch
    (String.eqb method "semantic_search" || String.eqb method "hybrid_search")
    (start_embedding_thread w dataset query (PDict m) embeddings).
Proof.
  unfold start_embedding_thread. rewrite search_method_is_eval, ret_bind.
  destruct (_ || _); [|apply thread_skipped].
  do 4 (silent_step; [apply thread_raises|]).
  apply thread_started.
Qed.

Lemma start_full_text_index_thread_choice w dataset query embeddings :
  thread_choice FullTextIndexSearch
    (String.eqb method "full_text_search" || String.eqb method "hybrid_search")
    (start_full_text_index_thread w dataset query (PDict m) embeddings).
Proof.
  unfold start_full_text_index_thread. rewrite search_method_is_eval, ret_bind.
  destruct (_ || _); [|apply thread_skipped].
  do 4 (silent_step; [apply thread_raises|]).
  apply thread_started.
Qed.

Lemma rerank_choice_of_method w dataset query account all_documents :
  rerank_choice all_documents (String.eqb method "hybrid_search")
    (rerank w dataset query account (PDict m) all_documents).
Proof.
  unfold rerank. rewrite (subscript_eval _ _ _ Hmethod), ret_bind.
  simpl eq_str. destruct (String.eqb method "hybrid_search"); [|apply rerank_skipped].
  do 3 (silent_step; [apply rerank_config_raises|]).
  model_step; [apply rerank_model_raises|].
  rewrite bind_prefix.
  do 2 (silent_step; [apply rerank_model_raises|]).
  apply rerank_ran.
Qed.
End Selection.

(** The projection step only embeds, draws noise and runs the solver. *)
Lemma get_tsne_positions_projection w embeddings :
  Forall (λ e, is_projection e = true)
    (trace_of (get_tsne_positions_from_embeddings w embeddings)).
Proof.
  unfold get_tsne_positions_from_embeddings.
  destruct (length embeddings <=? 1)%nat; [constructor|].
  repeat constructor.
Qed.

Lemma assemble_response_trace w dataset query documents positions :
  trace_of (assemble_response w dataset query documents positions) = [].
Proof.
  destruct positions as [|p ps]; [done|]. unfold assemble_response.
  rewrite trace_bind, collect_records_trace.
  by destruct (outcome _).
Qed.

Lemma compact_retrieve_response_projection w dataset embeddings query documents :
  Forall (λ e, is_projection e = true)
    (trace_of (compact_retrieve_response w dataset embeddings query documents)).
Proof.
  unfold compact_retrieve_response.
  rewrite trace_bind. apply Forall_app. split.
  { destruct (embed_query w embeddings query); repeat constructor. }
  destruct (outcome _) as [e|qe]; [constructor|].
  rewrite trace_bind. apply Forall_app. split.
  { destruct (embed_documents w embeddings _); repeat constructor. }
  destruct (outcome _) as [e|des]; [constructor|].
  rewrite trace_bind. apply Forall_app. split.
  { apply get_tsne_positions_projection. }
  destruct (outcome _) as [e|ps]; [constructor|].
  rewrite assemble_response_trace. constructor.
Qed.

Lemma calls_excluded p q t :
  (∀ e, q e = true → p e = false) →
  Forall (λ e, q e = true) t → calls p t = 0%nat.
Proof.
  intros Hpq Ht. apply calls_none. eapply Forall_impl; [exact Ht | exact Hpq].
Qed.

Lemma bit_le_1 b : (bit b ≤ 1)%nat.
Proof. destruct b; simpl; lia. Qed.

(** The calls of the search phase, by search method. *)
Lemma retrieve_search_calls w dataset query account retrieval_model m method :
  effective_retrieval_model dataset retrieval_model = PDict m →
  m !! "search_method" = Some (PStr method) →
  let t := trace_of (retrieve_search w dataset query account retrieval_model) in
  let semantic := String.eqb method "semantic_search" || String.eqb method "hybrid_search" in
  let full_text := String.eqb method "full_text_search" || String.eqb method "hybrid_search" in
  let hybrid := String.eqb method "hybrid_search" in
  (calls is_embedding_search t ≤ bit semantic
   ∧ calls is_full_text_search t ≤ bit full_text
   ∧ calls is_rerank t ≤ bit hybrid)%nat
  ∧ (search_completed w dataset query account retrieval_model →
     calls is_embedding_search t = bit semantic
     ∧ calls is_full_text_search t = bit full_text
     ∧ calls is_rerank t = bit hybrid).
Proof.
  intros Heff Hm. unfold search_completed, retrieve_search. rewrite Heff. cbv zeta.
  model_step.
  { split; [simpl; lia | by intros [? ?]]. }
  rewrite bind_prefix. cbv beta.
  destruct (start_embedding_thread_choice m method Hm w dataset query x) as [|e1|k1].
  all: rewrite ?raise_bind, ?ret_bind, ?bind_prefix; cbv beta.
  2: { split; [simpl; lia | by intros [? ?]]. }
  all: destruct (start_full_text_index_thread_choice m method Hm w dataset query x)
         as [|e2|k2].
  all: rewrite ?raise_bind, ?ret_bind, ?bind_prefix; cbv beta.
  all: try (split; [simpl; lia | by intros [? ?]]).
  all: match goal with
       | Hm : ?m !! "search_method" = Some (PStr ?method)
         |- context [rerank ?w ?d ?q ?a (PDict ?m) ?docs] =>
           destruct (rerank_choice_of_method m method Hm w d q a docs)
       end.
  all: rewrite ?raise_bind, ?ret_bind, ?bind_prefix; cbv beta.
  all: try (split; [simpl; lia | by intros [? ?]]).
  all: try (split; [simpl; lia | intros _; simpl; lia]).
  all: match goal with r : exn + list Document |- _ => destruct r end.
  all: split; [simpl; lia | first [by intros [? ?] | intros _; simpl; lia]].
Qed.

Lemma retrieve_search_events w dataset query account retrieval_model :
  Forall (λ e, is_search_phase e = true)
    (trace_of (retrieve_search w dataset query account retrieval_model)).
Proof.
  unfold retrieve_search. cbv zeta.
  model_step; [by repeat constructor|].
  rewrite bind_prefix. cbv beta.
  match goal with
  | |- context [start_embedding_thread ?w ?d ?q ?rm ?x] =>
      destruct (start_embedding_thread_any w d q rm x) as [? [|e1|k1]]
  end.
  all: rewrite ?raise_bind, ?ret_bind, ?bind_prefix; cbv beta.
  all: try (by repeat constructor).
  all: match goal with
       | |- context [start_full_text_index_thread ?w ?d ?q ?rm ?x] =>
           destruct (start_full_text_index_thread_any w d q rm x) as [? [|e2|k2]]
       end.
  all: rewrite ?raise_bind, ?ret_bind, ?bind_prefix; cbv beta.
  all: try (by repeat constructor).
  all: match goal with
       | |- context [rerank ?w ?d ?q ?a ?rm ?docs] =>
           destruct (rerank_any w d q a rm docs) as [? []]
       end.
  all: rewrite ?raise_bind, ?ret_bind, ?bind_prefix; cbv beta.
  all: try (by repeat constructor).
  all: match goal with r : exn + list Document |- _ => destruct r end.
  all: by repeat constructor.
Qed.

Lemma retrieve_trace w dataset query account retrieval_model limit :
  ¬ empty_dataset dataset →
  trace_of (retrieve w dataset query account retrieval_model limit) =
  trace_of (retrieve_search w dataset query account retrieval_model)
  ++ match outcome (retrieve_search w dataset query account retrieval_model) with
     | inr (embeddings, all_documents) =>
         DbAddCommit (dataset_query dataset query account)
         :: trace_of (compact_retrieve_response w dataset embeddings query all_documents)
     | inl _ => []
     end.
Proof.
  intros Hne. rewrite retrieve_not_short_circuit by done. rewrite trace_bind.
  f_equal. destruct (outcome _) as [e|[emb docs]]; [done|].
  by rewrite trace_bind.
Qed.

(** Calls that belong to the search phase are counted there. *)
Lemma retrieve_calls_in_search p w dataset query account retrieval_model limit :
  (∀ e, is_projection e = true → p e = false) →
  (∀ row, p (DbAddCommit row) = false) →
  ¬ empty_dataset dataset →
  calls p (trace_of (retrieve w dataset query account retrieval_model limit)) =
  calls p (trace_of (retrieve_search w dataset query account retrieval_model)).
Proof.
  intros Hproj Hlog Hne. rewrite retrieve_trace by done. rewrite calls_app.
  destruct (outcome _) as [e|[emb docs]]; cbn [calls]; [lia|].
  rewrite Hlog.
  rewrite (calls_excluded p is_projection (trace_of (compact_retrieve_response _ _ _ _ _)));
    [lia | done |].
  apply compact_retrieve_response_projection.
Qed.

(** C6. On a non-empty dataset, once the search phase has returned (with any
    fragment list, the empty one included), the call writes exactly one row
    to the query log: dataset id, the query text, source "hit_testing", role
    "account" and the account's id.  The row comes after every model lookup,
    search start and rerank run, and before every call of the projection
    step. *)
Theorem query_log_written_once w dataset query account retrieval_model limit
    embeddings all_documents :
  ¬ empty_dataset dataset →
  outcome (retrieve_search w dataset query account retrieval_model)
    = inr (embeddings, all_documents) →
  let t := trace_of (retrieve w dataset query account retrieval_model limit) in
  let before := trace_of (retrieve_search w dataset query account retrieval_model) in
  let after :=
    trace_of (compact_retrieve_response w dataset embeddings query all_documents) in
  t = before
      ++ DbAddCommit {| dq_dataset_id := ds_id dataset; dq_content := query;
                        dq_source := "hit_testing"; dq_created_by_role := "account";
                        dq_created_by := account_id account |}
      :: after
  ∧ calls is_log_write t = 1%nat
  ∧ calls is_rerank after = 0%nat
  ∧ calls is_search after = 0%nat
  ∧ calls is_projection before = 0%nat.
Proof.
  intros Hne Hdone t before after. subst t before after.
  rewrite retrieve_trace by done. rewrite Hdone.
  pose proof (retrieve_search_events w dataset query account retrieval_model) as Hs.
  pose proof (compact_retrieve_response_projection w dataset embeddings query all_documents)
    as Hp.
  split; [done|]. rewrite calls_app. simpl.
  rewrite (calls_excluded is_log_write is_search_phase _ ltac:(by intros []) Hs).
  rewrite (calls_excluded is_log_write is_projection _ ltac:(by intros []) Hp).
  rewrite (calls_excluded is_rerank is_projection _ ltac:(by intros []) Hp).
  rewrite (calls_excluded is_search is_projection _ ltac:(by intros []) Hp).
  rewrite (calls_excluded is_projection is_search_phase _ ltac:(by intros []) Hs).
  done.
Qed.

(** ** The degenerate-vector correction, as far as it is deterministic *)

Lemma perturb_identical_length w query_embedding document_embeddings :
  length (perturb_identical w query_embedding document_embeddings)
  = length document_embeddings.
Proof. unfold perturb_identical. by rewrite length_imap. Qed.

Lemma perturb_identical_lookup w query_embedding document_embeddings i :
  perturb_identical w query_embedding document_embeddings !! i =
  (λ v, if array_equal query_embedding v then perturbed w i v else v)
    <$> document_embeddings !! i.
Proof. unfold perturb_identical. by rewrite list_lookup_imap. Qed.

(** A fragment embedding that differs from the query's is left as it is. *)
Lemma perturb_identical_other w query_embedding document_embeddings i v :
  document_embeddings !! i = Some v →
  array_equal query_embedding v = false →
  perturb_identical w query_embedding document_embeddings !! i = Some v.
Proof. intros Hv Hne. rewrite perturb_identical_lookup, Hv. simpl. by rewrite Hne. Qed.

(** ** The statements at sample inputs *)

(** What [retrieve] does when no model resolves: one model lookup, then the
    provider's error. *)
Lemma retrieve_without_models :
  retrieve Sample.world_without_models Sample.dataset "what is alpha" Sample.account
    Sample.hybrid_config 10
  = ([GetModelInstance "tenant-1" TEXT_EMBEDDING (PStr "openai")
        (PStr "text-embedding-ada-002")],
     inl (ProviderError "ModelNotInitializedError")).
Proof. vm_compute. reflexivity. Qed.

(** In hybrid mode with a rerank model that does not resolve, both searches
    are started and the call raises before the reranker is run. *)
Lemma retrieve_without_rerank_model :
  let r := retrieve Sample.world_without_rerank_model Sample.dataset "what is alpha"
             Sample.account Sample.hybrid_config 10 in
  outcome r = inl (ProviderError "ModelNotInitializedError")
  ∧ calls is_embedding_search (trace_of r) = 1%nat
  ∧ calls is_full_text_search (trace_of r) = 1%nat
  ∧ calls is_rerank (trace_of r) = 0%nat
  ∧ calls is_log_write (trace_of r) = 0%nat.
Proof. vm_compute. repeat split; reflexivity. Qed.

(** C1 on three sample fragments whose second segment has been disabled. *)
Lemma fragment_record_alignment_witness :
  ∃ result,
    outcome (compact_retrieve_response Sample.world Sample.dataset Sample.embedding_handle
               "what is alpha"
               [Sample.fragment1; Sample.fragment2; Sample.fragment3]) = inr result
    ∧ length (records result) = 2%nat
    ∧ rec_segment <$> records result
      = [Sample.stored "seg-1" "node-1" true; Sample.stored "seg-3" "node-3" true]
    ∧ rec_tsne_position <$> records result = [Sample.position 1; Sample.position 3]
    ∧ query_tsne_position result = Sample.position 0.
Proof.
  apply (fragment_record_alignment Sample.world Sample.dataset Sample.embedding_handle
           "what is alpha" Sample.fragment1 Sample.fragment2 Sample.fragment3
           (PStr "node-1") (PStr "node-2") (PStr "node-3")
           (Sample.stored "seg-1" "node-1" true) (Sample.stored "seg-3" "node-3" true)
           [1; 0]%Q [[0; 1]; [0; 1]; [0; 1]]%Q
           [Sample.position 0; Sample.position 1; Sample.position 2; Sample.position 3]
           (Sample.position 0) (Sample.position 1) (Sample.position 3));
    vm_compute; reflexivity.
Defined.

(** C2 on a dataset without available documents. *)
Lemma empty_dataset_short_circuit_witness :
  let r := retrieve Sample.world Sample.vacant_dataset "what is alpha"
             Sample.account Sample.hybrid_config 10 in
  (∃ result, outcome r = inr result ∧ records result = [])
  ∧ calls is_embedding_search (trace_of r) = 0%nat
  ∧ calls is_full_text_search (trace_of r) = 0%nat
  ∧ calls is_log_write (trace_of r) = 0%nat.
Proof.
  destruct (empty_dataset_short_circuit Sample.world Sample.vacant_dataset "what is alpha"
              Sample.account Sample.hybrid_config 10 (or_introl eq_refl))
    as [(result & Hr & _ & Hrec & _) Hcalls].
  split; [by exists result | exact Hcalls].
Defined.

(** C10 with an empty configuration, no saved configuration and a model
    manager that resolves nothing. *)
Lemma short_circuit_precedes_model_lookup_witness :
  outcome (retrieve Sample.world_without_models Sample.vacant_dataset "what is alpha"
             Sample.account (PDict ∅) 10) = inr (empty_result "what is alpha").
Proof.
  apply (short_circuit_precedes_model_lookup Sample.world_without_models
           Sample.vacant_dataset "what is alpha" Sample.account (PDict ∅) 10).
  left. reflexivity.
Defined.

(** C8 on a single vector. *)
Lemma tsne_degenerate_collection_witness :
  outcome (get_tsne_positions_from_embeddings Sample.world [[1; 0]%Q])
  = inr [ {| pos_x := PInt 0; pos_y := PInt 0 |} ].
Proof.
  apply (tsne_degenerate_collection Sample.world [[1; 0]%Q]). simpl. lia.
Defined.

(** C5 on two vectors. *)
Lemma tsne_perplexity_clamp_witness :
  ∃ perplexity,
    filter (λ e, is_solver e = true)
      (trace_of (get_tsne_positions_from_embeddings Sample.world [[1; 0]; [0; 1]]%Q))
    = [TsneFitTransform perplexity [[1; 0]; [0; 1]]%Q]
    ∧ perplexity = PInt 1.
Proof.
  destruct (tsne_perplexity_clamp Sample.world [[1; 0]; [0; 1]]%Q)
    as (perplexity & Hrun & _ & _ & Htwo).
  - simpl. lia.
  - exists perplexity. split; [exact Hrun|]. by destruct (Htwo eq_refl) as (_ & _ & ->).
Defined.

(** C7 on a query of 100 Chinese characters, 300 bytes in UTF-8: it passes. *)
Lemma hit_testing_args_check_query_witness :
  outcome (hit_testing_args_check
             (PDict {[ "query" := PStr (Utf8.utf8 (replicate 100 23398%N)) ]})) = inr tt
  ∧ String.length (Utf8.utf8 (replicate 100 23398%N)) = 300%nat.
Proof.
  split; [|vm_compute; reflexivity].
  destruct (hit_testing_args_check_query
              {[ "query" := PStr (Utf8.utf8 (replicate 100 23398%N)) ]}
              (Utf8.utf8 (replicate 100 23398%N))) as (_ & Hok & _).
  - vm_compute. reflexivity.
  - apply Hok. split; [discriminate | vm_compute; lia].
Defined.

(** C3, as stated, at a sample input: the embedding model of the dataset does
    not resolve, [retrieve] raises at the model lookup and starts no search,
    although the search method is hybrid. *)
Lemma strategy_selection_unresolvable_model :
  ¬ claimed_strategy_selection Sample.world_without_models Sample.dataset "what is alpha"
      Sample.account Sample.hybrid_config 10.
Proof.
  intros Hclaim.
  destruct (Hclaim ltac:(unfold empty_dataset; simpl; lia)
              Sample.hybrid_config_map "hybrid_search")
    as (_ & _ & H).
  - reflexivity.
  - vm_compute. reflexivity.
  - destruct (H eq_refl) as [Hcalls _]. vm_compute in Hcalls. lia.
Qed.

(** C6 with the default configuration and search strategies that find
    nothing. *)
Lemma query_log_written_once_witness :
  calls is_log_write
    (trace_of (retrieve Sample.world Sample.dataset "what is alpha" Sample.account PNone 10))
  = 1%nat.
Proof.
  destruct (query_log_written_once Sample.world Sample.dataset "what is alpha"
              Sample.account PNone 10 Sample.embedding_handle [])
    as (_ & H & _).
  - unfold empty_dataset. simpl. lia.
  - vm_compute. reflexivity.
  - exact H.
Defined.

(** * Further properties of the hit testing service *)

Lemma aligned_record_kept w dataset ps j d k s p :
  metadata d !! "doc_id" = Some k → first_segment w dataset k = Some s →
  ps !! j = Some p → aligned_record w dataset ps j d = Some (hit_record s d p).
Proof.
  intros Hk Hs Hp. unfold aligned_record, stored_segment, doc_id.
  rewrite Hk. simpl. rewrite Hs. simpl. by rewrite Hp.
Qed.

Lemma aligned_record_dropped w dataset ps j d k :
  metadata d !! "doc_id" = Some k → first_segment w dataset k = None →
  aligned_record w dataset ps j d = None.
Proof.
  intros Hk Hs. unfold aligned_record, stored_segment, doc_id.
  rewrite Hk. simpl. by rewrite Hs.
Qed.

Lemma collect_records_comprehension w dataset ps documents i :
  Forall (λ d, is_Some (doc_id d)) documents →
  (i + length documents ≤ length ps)%nat →
  collect_records w dataset ps documents i =
  mret (omap id (imap (λ j, aligned_record w dataset ps (i + j)) documents)).
Proof.
  revert i. induction documents as [|d rest IH]; intros i Hid Hlen; [done|].
  apply Forall_cons in Hid as [[k Hk] Hid]. simpl in Hlen. unfold doc_id in Hk.
  assert (Hrest : collect_records w dataset ps rest (S i) = mret
            (omap id (imap (λ j, aligned_record w dataset ps (i + S j)) rest))).
  { rewrite IH by (done || lia). do 2 f_equal. apply imap_ext. intros j x _.
    f_equal. lia. }
  cbn [imap omap]. unfold compose. replace (i + 0)%nat with i by lia.
  destruct (first_segment w dataset k) as [s|] eqn:Hs.
  - destruct (lookup_lt_is_Some_2 ps i ltac:(lia)) as [p Hp].
    rewrite (collect_records_kept _ _ _ _ _ _ _ _ _ Hk Hs Hp), Hrest, ret_bind.
    by rewrite (aligned_record_kept _ _ _ _ _ _ _ _ Hk Hs Hp).
  - rewrite (collect_records_dropped _ _ _ _ _ _ _ Hk Hs), Hrest.
    by rewrite (aligned_record_dropped _ _ _ _ _ _ Hk Hs).
Qed.

Lemma stored_segment_eq w dataset d k :
  metadata d !! "doc_id" = Some k →
  stored_segment w dataset d = first_segment w dataset k.
Proof. intros Hk. unfold stored_segment, doc_id. by rewrite Hk. Qed.

Lemma omap_length_le {A B} (f : A → option B) l : (length (omap f l) ≤ length l)%nat.
Proof.
  induction l as [|x l IH]; [done|]. change (omap f (x :: l)) with
    (match f x with Some y => y :: omap f l | None => omap f l end).
  destruct (f x); simpl; lia.
Qed.

Lemma omap_cons_Some {A B} (f : A → option B) x l y :
  f x = Some y → omap f (x :: l) = y :: omap f l.
Proof. intros H. simpl. by rewrite H. Qed.

Lemma omap_cons_None {A B} (f : A → option B) x l :
  f x = None → omap f (x :: l) = omap f l.
Proof. intros H. simpl. by rewrite H. Qed.

Lemma collect_records_segments w dataset ps documents i recs :
  outcome (collect_records w dataset ps documents i) = inr recs →
  rec_segment <$> recs = omap (stored_segment w dataset) documents.
Proof.
  revert i recs. induction documents as [|d rest IH]; intros i recs.
  { by intros [= <-]. }
  cbn [collect_records]. unfold subscript.
  destruct (metadata d !! "doc_id") as [k|] eqn:Hk; [|done].
  rewrite ret_bind.
  destruct (first_segment w dataset k) as [s|] eqn:Hs.
  - rewrite (omap_cons_Some _ _ _ s) by (by rewrite (stored_segment_eq _ _ _ _ Hk)).
    destruct (ps !! i) as [p|]; [|done]. rewrite ret_bind, outcome_bind.
    destruct (outcome (collect_records w dataset ps rest (S i))) as [e|recs'] eqn:Hrest;
      [done|].
    intros [= <-]. cbn [fmap list_fmap rec_segment]. f_equal. by eapply IH.
  - rewrite omap_cons_None by (by rewrite (stored_segment_eq _ _ _ _ Hk)).
    apply IH.
Qed.

Lemma collect_records_index_error w dataset ps documents i :
  Forall (λ d, is_Some (doc_id d)) documents →
  (∃ j d, documents !! j = Some d ∧ is_Some (stored_segment w dataset d)
          ∧ ps !! (i + j)%nat = None) →
  collect_records w dataset ps documents i = raise IndexError.
Proof.
  revert i. induction documents as [|d rest IH]; intros i Hid (j & dj & Hj & Hseg & Hp).
  { done. }
  apply Forall_cons in Hid as [[k Hk] Hid]. unfold doc_id in Hk.
  assert (Hrest : j ≠ 0%nat → collect_records w dataset ps rest (S i) = raise IndexError).
  { intros Hne. destruct j as [|j']; [done|]. apply IH; [done|].
    exists j', dj. repeat split; try done. by replace (S i + j')%nat with (i + S j')%nat by lia. }
  destruct (first_segment w dataset k) as [s|] eqn:Hs.
  - destruct (ps !! i) as [p|] eqn:Hpi.
    + rewrite (collect_records_kept _ _ _ _ _ _ _ _ _ Hk Hs Hpi).
      rewrite Hrest; [done|]. intros ->. rewrite Nat.add_0_r in Hp. congruence.
    + cbn [collect_records]. rewrite (subscript_eval _ _ _ Hk), ret_bind, Hs, Hpi. done.
  - rewrite (collect_records_dropped _ _ _ _ _ _ _ Hk Hs). apply Hrest.
    intros ->. simpl in Hj. injection Hj as <-.
    rewrite (stored_segment_eq _ _ _ _ Hk), Hs in Hseg. by destruct Hseg.
Qed.

Lemma collect_records_key_error w dataset ps documents i :
  (i + length documents ≤ length ps)%nat →
  Exists (λ d, doc_id d = None) documents →
  collect_records w dataset ps documents i = raise (KeyError "doc_id").
Proof.
  revert i. induction documents as [|d rest IH]; intros i Hlen Hex.
  { by apply Exists_nil in Hex. }
  simpl in Hlen. cbn [collect_records]. unfold subscript.
  destruct (metadata d !! "doc_id") as [k|] eqn:Hk; [|done].
  apply Exists_cons in Hex as [Hd|Hex]; [unfold doc_id in Hd; congruence|].
  rewrite ret_bind.
  destruct (first_segment w dataset k) as [s|].
  - destruct (lookup_lt_is_Some_2 ps i ltac:(lia)) as [p ->]. rewrite ret_bind.
    by rewrite IH by (done || lia).
  - apply IH; [lia | done].
Qed.

Lemma emit_lift_bind {A B} ev (x : A) (f : A → M B) :
  (emit ev;; lift (inr x)) ≫= f = (emit ev;; f x).
Proof. unfold mbind, M_bind, emit, lift. simpl. by destruct (f x). Qed.

Lemma outcome_emit {A} ev (m : M A) : outcome (emit ev;; m) = outcome m.
Proof. reflexivity. Qed.

Lemma trace_emit {A} ev (m : M A) : trace_of (emit ev;; m) = ev :: trace_of m.
Proof. reflexivity. Qed.

(** Once both embedding requests have succeeded, the projection is the solver
    step followed by the assembly of the response. *)
Lemma compact_retrieve_response_embedded w dataset embeddings query documents qe des :
  embed_query w embeddings query = inr qe →
  embed_documents w embeddings (page_content <$> documents) = inr des →
  compact_retrieve_response w dataset embeddings query documents =
  (emit (EmbedQuery query);; emit (EmbedDocuments (page_content <$> documents));;
   positions ← get_tsne_positions_from_embeddings w (qe :: perturb_identical w qe des);
   assemble_response w dataset query documents positions).
Proof.
  intros Hq Hd. unfold compact_retrieve_response. rewrite Hq, Hd.
  by rewrite !emit_lift_bind.
Qed.

Lemma compact_retrieve_response_query_raises w dataset embeddings query documents e :
  embed_query w embeddings query = inl e →
  compact_retrieve_response w dataset embeddings query documents
  = ([EmbedQuery query], inl e).
Proof. intros Hq. unfold compact_retrieve_response. by rewrite Hq. Qed.

Lemma compact_retrieve_response_documents_raise w dataset embeddings query documents qe e :
  embed_query w embeddings query = inr qe →
  embed_documents w embeddings (page_content <$> documents) = inl e →
  compact_retrieve_response w dataset embeddings query documents
  = ([EmbedQuery query; EmbedDocuments (page_content <$> documents)], inl e).
Proof.
  intros Hq Hd. unfold compact_retrieve_response. rewrite Hq, Hd.
  by rewrite emit_lift_bind.
Qed.

(** The records of the response, in general: when both embedding requests
    succeed, every fragment has a [doc_id] and the solver returns a position
    for the query and one for each fragment, the response holds the query's
    position and exactly one record per fragment whose segment is stored, in
    fragment order, each with the position at its fragment's own index: a
    dropped fragment uses up its position. *)
Theorem projection_records w dataset embeddings query documents qe des p0 ps :
  embed_query w embeddings query = inr qe →
  embed_documents w embeddings (page_content <$> documents) = inr des →
  outcome (get_tsne_positions_from_embeddings w (qe :: perturb_identical w qe des))
    = inr (p0 :: ps) →
  Forall (λ d, is_Some (doc_id d)) documents →
  (length documents ≤ length ps)%nat →
  outcome (compact_retrieve_response w dataset embeddings query documents)
  = inr {| query_content := query; query_tsne_position := p0;
           records := aligned_records w dataset ps documents |}.
Proof.
  intros Hq Hd Hpos Hid Hlen.
  rewrite (compact_retrieve_response_embedded _ _ _ _ _ _ _ Hq Hd).
  rewrite !outcome_emit, outcome_bind, Hpos.
  unfold assemble_response.
  rewrite (collect_records_comprehension _ _ _ _ 0%nat Hid) by (simpl; lia).
  reflexivity.
Qed.

(** Whenever the projection returns, the segments of its records are the
    stored segments of the fragments, in fragment order; there are never more
    records than fragments, and the response carries the query unchanged. *)
Theorem records_follow_fragments w dataset embeddings query documents result :
  outcome (compact_retrieve_response w dataset embeddings query documents) = inr result →
  rec_segment <$> records result = omap (stored_segment w dataset) documents
  ∧ (length (records result) ≤ length documents)%nat
  ∧ query_content result = query.
Proof.
  destruct (embed_query w embeddings query) as [e|qe] eqn:Hq.
  { by rewrite (compact_retrieve_response_query_raises _ _ _ _ _ _ Hq). }
  destruct (embed_documents w embeddings (page_content <$> documents)) as [e|des] eqn:Hd.
  { by rewrite (compact_retrieve_response_documents_raise _ _ _ _ _ _ _ Hq Hd). }
  rewrite (compact_retrieve_response_embedded _ _ _ _ _ _ _ Hq Hd).
  rewrite !outcome_emit, outcome_bind.
  destruct (outcome (get_tsne_positions_from_embeddings w _)) as [e|[|p0 ps]]; [done..|].
  unfold assemble_response. rewrite outcome_bind.
  destruct (outcome (collect_records w dataset ps documents 0)) as [e|recs] eqn:Hrecs;
    [done|].
  intros [= <-]. cbn [records query_content].
  pose proof (collect_records_segments _ _ _ _ _ _ Hrecs) as Hseg.
  split; [done|]. split; [|done].
  rewrite <- (length_fmap rec_segment), Hseg. apply omap_length_le.
Qed.

(** When the solver returns no position for a fragment whose segment is
    stored (fewer rows than vectors), the projection raises [IndexError]
    instead of returning the records it has. *)
Theorem projection_index_error w dataset embeddings query documents qe des positions j d :
  embed_query w embeddings query = inr qe →
  embed_documents w embeddings (page_content <$> documents) = inr des →
  outcome (get_tsne_positions_from_embeddings w (qe :: perturb_identical w qe des))
    = inr positions →
  Forall (λ d, is_Some (doc_id d)) documents →
  documents !! j = Some d →
  is_Some (stored_segment w dataset d) →
  (length positions ≤ S j)%nat →
  outcome (compact_retrieve_response w dataset embeddings query documents)
  = inl IndexError.
Proof.
  intros Hq Hd Hpos Hid Hj Hseg Hlen.
  rewrite (compact_retrieve_response_embedded _ _ _ _ _ _ _ Hq Hd).
  rewrite !outcome_emit, outcome_bind, Hpos.
  destruct positions as [|p0 ps]; [done|]. unfold assemble_response.
  rewrite (collect_records_index_error _ _ _ _ 0%nat Hid); [done|].
  exists j, d. repeat split; try done. apply lookup_ge_None. simpl in *. lia.
Qed.

(** A fragment whose metadata has no [doc_id] makes the projection raise
    [KeyError('doc_id')]; this happens only in the record loop, after the
    solver has run once. *)
Theorem projection_key_error w dataset embeddings query documents qe des positions :
  embed_query w embeddings query = inr qe →
  embed_documents w embeddings (page_content <$> documents) = inr des →
  outcome (get_tsne_positions_from_embeddings w (qe :: perturb_identical w qe des))
    = inr positions →
  (length documents < length positions)%nat →
  Exists (λ d, doc_id d = None) documents →
  outcome (compact_retrieve_response w dataset embeddings query documents)
  = inl (KeyError "doc_id")
  ∧ calls is_solver
      (trace_of (compact_retrieve_response w dataset embeddings query documents)) = 1%nat.
Proof.
  intros Hq Hd Hpos Hlen Hex.
  rewrite (compact_retrieve_response_embedded _ _ _ _ _ _ _ Hq Hd).
  split.
  - rewrite !outcome_emit, outcome_bind, Hpos.
    destruct positions as [|p0 ps]; [simpl in Hlen; lia|]. unfold assemble_response.
    rewrite (collect_records_key_error _ _ _ _ 0%nat); [done | simpl in *; lia | done].
  - rewrite !trace_emit, trace_bind, Hpos, assemble_response_trace, app_nil_r.
    assert (Hn : (2 ≤ length (qe :: perturb_identical w qe des))%nat).
    { destruct documents as [|d0 rest]; [by apply Exists_nil in Hex|].
      destruct (length (qe :: perturb_identical w qe des) <=? 1)%nat eqn:Hle; [|apply Nat.leb_gt in Hle; lia].
      exfalso. unfold get_tsne_positions_from_embeddings in Hpos. rewrite Hle in Hpos.
      injection Hpos as <-. simpl in Hlen. lia. }
    by rewrite (tsne_trace _ _ Hn).
Qed.

(** ** The whole call *)

Lemma filter_none p q (t : list event) :
  (∀ e, q e = true → p e = false) →
  Forall (λ e, q e = true) t → filter (λ e, p e = true) t = [].
Proof.
  intros Hpq Ht. induction Ht as [|e t He _ IH]; [done|].
  rewrite filter_cons_False; [done|]. rewrite (Hpq e He). done.
Qed.

Lemma retrieve_outcome w dataset query account retrieval_model limit :
  ¬ empty_dataset dataset →
  outcome (retrieve w dataset query account retrieval_model limit) =
  match outcome (retrieve_search w dataset query account retrieval_model) with
  | inr (embeddings, all_documents) =>
      outcome (compact_retrieve_response w dataset embeddings query all_documents)
  | inl e => inl e
  end.
Proof.
  intros Hne. rewrite retrieve_not_short_circuit by done. rewrite outcome_bind.
  by destruct (outcome _) as [e|[emb docs]].
Qed.

(** When the search phase raises (a model that does not resolve, an
    unreadable configuration, a failing rerank), [retrieve] raises the same
    exception and neither writes the query log nor starts the projection. *)
Theorem failed_search_is_not_logged w dataset query account retrieval_model limit e :
  ¬ empty_dataset dataset →
  outcome (retrieve_search w dataset query account retrieval_model) = inl e →
  let r := retrieve w dataset query account retrieval_model limit in
  outcome r = inl e
  ∧ calls is_log_write (trace_of r) = 0%nat
  ∧ calls is_projection (trace_of r) = 0%nat.
Proof.
  intros Hne He r. subst r.
  rewrite retrieve_outcome, retrieve_trace by done. rewrite He, app_nil_r.
  pose proof (retrieve_search_events w dataset query account retrieval_model) as Hs.
  split; [done|].
  rewrite (calls_excluded is_log_write is_search_phase _ ltac:(by intros []) Hs).
  by rewrite (calls_excluded is_projection is_search_phase _ ltac:(by intros []) Hs).
Qed.

(** When the search phase returns and the projection raises, [retrieve]
    raises the same exception and the query has been logged all the same:
    the row is committed before the projection starts. *)
Theorem failed_projection_is_logged w dataset query account retrieval_model limit
    embeddings all_documents e :
  ¬ empty_dataset dataset →
  outcome (retrieve_search w dataset query account retrieval_model)
    = inr (embeddings, all_documents) →
  outcome (compact_retrieve_response w dataset embeddings query all_documents) = inl e →
  let r := retrieve w dataset query account retrieval_model limit in
  outcome r = inl e
  ∧ filter (λ ev, is_log_write ev = true) (trace_of r)
    = [DbAddCommit (dataset_query dataset query account)].
Proof.
  intros Hne Hs He r. subst r.
  rewrite retrieve_outcome, retrieve_trace by done. rewrite Hs. split; [done|].
  pose proof (retrieve_search_events w dataset query account retrieval_model) as Hev.
  pose proof (compact_retrieve_response_projection w dataset embeddings query all_documents)
    as Hp.
  rewrite filter_app, filter_cons_True by done.
  rewrite (filter_none is_log_write is_search_phase) by (done || by intros []).
  rewrite (filter_none is_log_write is_projection) by (done || by intros []).
  done.
Qed.

(** When the searches find nothing, [retrieve] on a dataset with documents
    returns the same response as on an empty one (no records, the query at
    the origin), but it has logged the query once; the solver does not run. *)
Theorem no_hits_result w dataset query account retrieval_model limit embeddings qe :
  ¬ empty_dataset dataset →
  outcome (retrieve_search w dataset query account retrieval_model) = inr (embeddings, []) →
  embed_query w embeddings query = inr qe →
  embed_documents w embeddings [] = inr [] →
  let r := retrieve w dataset query account retrieval_model limit in
  outcome r = inr (empty_result query)
  ∧ calls is_log_write (trace_of r) = 1%nat
  ∧ calls is_solver (trace_of r) = 0%nat.
Proof.
  intros Hne Hs Hq Hd r. subst r.
  pose proof (retrieve_search_events w dataset query account retrieval_model) as Hev.
  rewrite retrieve_outcome, retrieve_trace by done. rewrite Hs.
  rewrite (compact_retrieve_response_embedded _ _ _ _ [] _ _ Hq Hd).
  split; [done|]. rewrite !calls_app.
  rewrite (calls_excluded is_log_write is_search_phase _ ltac:(by intros []) Hev).
  by rewrite (calls_excluded is_solver is_search_phase _ ltac:(by intros []) Hev).
Qed.

(** ** The arguments of the searches *)

Lemma subscript_cases (m : gmap string pyval) k :
  (m !! k = None ∧ subscript (PDict m) k = raise (KeyError k))
  ∨ (∃ v, m !! k = Some v ∧ subscript (PDict m) k = mret v).
Proof. unfold subscript. destruct (m !! k) as [v|]; [right; by exists v | by left]. Qed.

Lemma subscript_if_cases (m : gmap string pyval) flag key :
  (config_value_if m flag key = None ∧ ∃ e, subscript_if (PDict m) flag key = raise e)
  ∨ (∃ v, config_value_if m flag key = Some v ∧ subscript_if (PDict m) flag key = mret v).
Proof.
  unfold subscript_if, config_value_if.
  destruct (subscript_cases m flag) as [[-> ->]|(f & -> & ->)].
  { left. split; [done|]. by eexists. }
  rewrite ret_bind. cbn [mbind option_bind]. destruct (truthy f).
  - destruct (subscript_cases m key) as [[-> ->]|(v & -> & ->)].
    + left. split; [done|]. by eexists.
    + right. by exists v.
  - right. by exists PNone.
Qed.

(** What the kwargs block of either thread does: it raises on a missing key,
    or yields [search_kwargs]. *)
Lemma embedding_kwargs_cases (target : SearchKwargs → event) dataset query m embeddings :
  let block :=
    (top_k ← subscript (PDict m) "top_k";
     score_threshold ← subscript_if (PDict m) "score_threshold_enabled" "score_threshold";
     reranking_model ← subscript_if (PDict m) "reranking_enable" "reranking_model";
     search_method ← subscript (PDict m) "search_method";
     let kwargs := {| kw_dataset_id := ds_id dataset; kw_query := query; kw_top_k := top_k;
                      kw_score_threshold := score_threshold;
                      kw_reranking_model := reranking_model;
                      kw_search_method := search_method; kw_embeddings := embeddings |} in
     emit (target kwargs);; mret (Some kwargs)) in
  (search_kwargs dataset query m embeddings = None ∧ ∃ e, block = raise e)
  ∨ (∃ k, search_kwargs dataset query m embeddings = Some k
          ∧ block = ([target k], inr (Some k))).
Proof.
  intros block. subst block. unfold search_kwargs.
  destruct (subscript_cases m "top_k") as [[-> ->]|(v1 & -> & ->)].
  { left. split; [done|]. by eexists. }
  rewrite ret_bind. cbn [mbind option_bind].
  destruct (subscript_if_cases m "score_threshold_enabled" "score_threshold")
    as [[-> [e ->]]|(v2 & -> & ->)].
  { left. split; [done|]. by eexists. }
  rewrite ret_bind. cbn [mbind option_bind].
  destruct (subscript_if_cases m "reranking_enable" "reranking_model")
    as [[-> [e ->]]|(v3 & -> & ->)].
  { left. split; [done|]. by eexists. }
  rewrite ret_bind. cbn [mbind option_bind].
  destruct (subscript_cases m "search_method") as [[-> ->]|(v4 & -> & ->)].
  { left. split; [done|]. by eexists. }
  rewrite ret_bind. cbn [mbind option_bind]. right. eexists. split; reflexivity.
Qed.

Lemma full_text_kwargs_cases (target : SearchKwargs → event) dataset query m embeddings :
  let block :=
    (search_method ← subscript (PDict m) "search_method";
     score_threshold ← subscript_if (PDict m) "score_threshold_enabled" "score_threshold";
     top_k ← subscript (PDict m) "top_k";
     reranking_model ← subscript_if (PDict m) "reranking_enable" "reranking_model";
     let kwargs := {| kw_dataset_id := ds_id dataset; kw_query := query; kw_top_k := top_k;
                      kw_score_threshold := score_threshold;
                      kw_reranking_model := reranking_model;
                      kw_search_method := search_method; kw_embeddings := embeddings |} in
     emit (target kwargs);; mret (Some kwargs)) in
  (search_kwargs dataset query m embeddings = None ∧ ∃ e, block = raise e)
  ∨ (∃ k, search_kwargs dataset query m embeddings = Some k
          ∧ block = ([target k], inr (Some k))).
Proof.
  intros block. subst block. unfold search_kwargs.
  destruct (subscript_cases m "search_method") as [[Hn ->]|(v4 & Hv4 & ->)].
  { left. split; [|by eexists]. rewrite Hn.
    destruct (m !! "top_k"); [|done]. simpl.
    destruct (config_value_if m "score_threshold_enabled" "score_threshold"); [|done].
    simpl. by destruct (config_value_if m "reranking_enable" "reranking_model"). }
  rewrite ret_bind. rewrite Hv4.
  destruct (subscript_if_cases m "score_threshold_enabled" "score_threshold")
    as [[Hn [e ->]]|(v2 & -> & ->)].
  { left. split; [|by eexists]. rewrite Hn. by destruct (m !! "top_k"). }
  rewrite ret_bind.
  destruct (subscript_cases m "top_k") as [[-> ->]|(v1 & -> & ->)].
  { left. split; [done|]. by eexists. }
  rewrite ret_bind. cbn [mbind option_bind].
  destruct (subscript_if_cases m "reranking_enable" "reranking_model")
    as [[-> [e ->]]|(v3 & -> & ->)].
  { left. split; [done|]. by eexists. }
  rewrite ret_bind. cbn [mbind option_bind]. right. eexists. split; reflexivity.
Qed.

Lemma search_method_is_value (m : gmap string pyval) v a b :
  m !! "search_method" = Some v →
  search_method_is (PDict m) a b = mret (eq_str v a || eq_str v b).
Proof.
  intros Hv. unfold search_method_is. rewrite (subscript_eval _ _ _ Hv), ret_bind.
  destruct (eq_str v a); [done|]. by rewrite ret_bind.
Qed.

Lemma get_model_instance_ok w t ty p m :
  model_error w t ty p m = None →
  get_model_instance w t ty p m
  = ([GetModelInstance t ty p m],
     inr {| mi_tenant_id := t; mi_model_type := ty; mi_provider := p; mi_model := m |}).
Proof. intros H. unfold get_model_instance. by rewrite H. Qed.

Lemma get_model_instance_raises w t ty p m e :
  model_error w t ty p m = Some e →
  get_model_instance w t ty p m = ([GetModelInstance t ty p m], inl e).
Proof. intros H. unfold get_model_instance. by rewrite H. Qed.

Lemma start_embedding_thread_started w dataset query retrieval_model embeddings :
  let r := start_embedding_thread w dataset query retrieval_model embeddings in
  trace_of r = []
  ∨ (∃ m k, retrieval_model = PDict m
            ∧ search_kwargs dataset query m embeddings = Some k
            ∧ r = ([EmbeddingSearch k], inr (Some k))).
Proof.
  intros r. subst r. unfold start_embedding_thread.
  destruct retrieval_model as [| | | | |m]; try by left.
  silent_step; [by left|]. destruct x; [|by left].
  pose proof (embedding_kwargs_cases EmbeddingSearch dataset query m embeddings) as Hc.
  cbv beta zeta iota in Hc |- *.
  destruct Hc as [[_ [e ->]]|(k & Hk & ->)]; [by left|].
  right. by exists m, k.
Qed.

Lemma start_full_text_index_thread_started w dataset query retrieval_model embeddings :
  let r := start_full_text_index_thread w dataset query retrieval_model embeddings in
  trace_of r = []
  ∨ (∃ m k, retrieval_model = PDict m
            ∧ search_kwargs dataset query m embeddings = Some k
            ∧ r = ([FullTextIndexSearch k], inr (Some k))).
Proof.
  intros r. subst r. unfold start_full_text_index_thread.
  destruct retrieval_model as [| | | | |m]; try by left.
  silent_step; [by left|]. destruct x; [|by left].
  pose proof (full_text_kwargs_cases FullTextIndexSearch dataset query m embeddings) as Hc.
  cbv beta zeta iota in Hc |- *.
  destruct Hc as [[_ [e ->]]|(k & Hk & ->)]; [by left|].
  right. by exists m, k.
Qed.

Lemma rerank_events w dataset query account retrieval_model all_documents :
  Forall (λ e, is_model_lookup e || is_rerank e = true)
    (trace_of (rerank w dataset query account retrieval_model all_documents)).
Proof.
  destruct (rerank_any w dataset query account retrieval_model all_documents) as [? []];
    by repeat constructor.
Qed.

Lemma elem_of_trace_bind {A B} ev (m : M A) (f : A → M B) :
  ev ∈ trace_of (m ≫= f) →
  ev ∈ trace_of m ∨ ∃ a, outcome m = inr a ∧ ev ∈ trace_of (f a).
Proof.
  rewrite trace_bind, elem_of_app. intros [H|H]; [by left|].
  destruct (outcome m) as [e|a]; [by apply elem_of_nil in H|]. right. by exists a.
Qed.

(** Every search the search phase starts has the arguments [search_kwargs]
    builds from the configuration in force. *)
Lemma retrieve_search_started w dataset query account retrieval_model k ev :
  ev = EmbeddingSearch k ∨ ev = FullTextIndexSearch k →
  ev ∈ trace_of (retrieve_search w dataset query account retrieval_model) →
  ∃ m, effective_retrieval_model dataset retrieval_model = PDict m
       ∧ search_kwargs dataset query m (dataset_embeddings dataset) = Some k.
Proof.
  intros Hev. unfold retrieve_search. cbv zeta.
  set (rm := effective_retrieval_model dataset retrieval_model).
  destruct (model_error w (ds_tenant_id dataset) TEXT_EMBEDDING
              (embedding_model_provider dataset) (embedding_model dataset)) as [e|] eqn:Hme.
  { rewrite (get_model_instance_raises _ _ _ _ _ _ Hme). simpl.
    intros H; apply list_elem_of_singleton in H. by destruct Hev; subst. }
  intros H. apply elem_of_trace_bind in H as [H|(emb & Hemb & H)].
  { rewrite (get_model_instance_ok _ _ _ _ _ Hme) in H.
    apply list_elem_of_singleton in H. by destruct Hev; subst. }
  rewrite (get_model_instance_ok _ _ _ _ _ Hme) in Hemb. injection Hemb as <-.
  fold (dataset_embeddings dataset) in H.
  apply elem_of_trace_bind in H as [H|(th1 & _ & H)].
  { destruct (start_embedding_thread_started w dataset query rm (dataset_embeddings dataset))
      as [He|(m & k' & Hrm & Hk & He)]; rewrite He in H; [by apply elem_of_nil in H|].
    apply list_elem_of_singleton in H. destruct Hev; subst ev; [|done].
    injection H as ->. by exists m. }
  apply elem_of_trace_bind in H as [H|(th2 & _ & H)].
  { destruct (start_full_text_index_thread_started w dataset query rm
                (dataset_embeddings dataset))
      as [He|(m & k' & Hrm & Hk & He)]; rewrite He in H; [by apply elem_of_nil in H|].
    apply list_elem_of_singleton in H. destruct Hev; subst ev; [done|].
    injection H as ->. by exists m. }
  apply elem_of_trace_bind in H as [H|(docs & _ & H)]; [|by apply elem_of_nil in H].
  pose proof (rerank_events w dataset query account rm (joined w th1 th2)) as Hall.
  rewrite Forall_forall in Hall. apply Hall in H. by destruct Hev; subst ev.
Qed.

Lemma retrieve_started w dataset query account retrieval_model limit k ev :
  ¬ empty_dataset dataset →
  ev = EmbeddingSearch k ∨ ev = FullTextIndexSearch k →
  ev ∈ trace_of (retrieve w dataset query account retrieval_model limit) →
  ∃ m, effective_retrieval_model dataset retrieval_model = PDict m
       ∧ search_kwargs dataset query m (dataset_embeddings dataset) = Some k.
Proof.
  intros Hne Hev. rewrite retrieve_trace by done. rewrite elem_of_app.
  intros [H|H]; [by eapply retrieve_search_started|].
  destruct (outcome _) as [e|[emb docs]]; [by apply elem_of_nil in H|].
  apply elem_of_cons in H as [->|H]; [by destruct Hev|].
  pose proof (compact_retrieve_response_projection w dataset emb query docs) as Hall.
  rewrite Forall_forall in Hall. apply Hall in H. by destruct Hev; subst ev.
Qed.

Lemma config_value_if_disabled (m : gmap string pyval) flag key enabled v :
  m !! flag = Some enabled → truthy enabled = false →
  config_value_if m flag key = Some v → v = PNone.
Proof. unfold config_value_if. intros -> Hf. simpl. rewrite Hf. by intros [= <-]. Qed.

Lemma search_kwargs_fields dataset query m embeddings k :
  search_kwargs dataset query m embeddings = Some k →
  kw_dataset_id k = ds_id dataset ∧ kw_query k = query ∧ kw_embeddings k = embeddings
  ∧ m !! "top_k" = Some (kw_top_k k)
  ∧ m !! "search_method" = Some (kw_search_method k)
  ∧ config_value_if m "score_threshold_enabled" "score_threshold"
    = Some (kw_score_threshold k)
  ∧ config_value_if m "reranking_enable" "reranking_model" = Some (kw_reranking_model k).
Proof.
  unfold search_kwargs.
  destruct (m !! "top_k") as [v1|]; [|done]. cbn [mbind option_bind].
  destruct (config_value_if m "score_threshold_enabled" "score_threshold") as [v2|]; [|done].
  cbn [mbind option_bind].
  destruct (config_value_if m "reranking_enable" "reranking_model") as [v3|]; [|done].
  cbn [mbind option_bind].
  destruct (m !! "search_method") as [v4|]; [|done]. cbn [mbind option_bind].
  by intros [= <-].
Qed.

(** The keyword arguments of every search [retrieve] starts: the dataset's
    id, the query, the handle of the dataset's embedding model, and [top_k]
    and [search_method] as configured; the score threshold and the reranking
    model are the configured ones when their switch is on and [None] when it
    is off. *)
Theorem search_arguments w dataset query account retrieval_model limit k :
  ¬ empty_dataset dataset →
  EmbeddingSearch k ∈ trace_of (retrieve w dataset query account retrieval_model limit)
  ∨ FullTextIndexSearch k
    ∈ trace_of (retrieve w dataset query account retrieval_model limit) →
  ∃ m, effective_retrieval_model dataset retrieval_model = PDict m
    ∧ kw_dataset_id k = ds_id dataset
    ∧ kw_query k = query
    ∧ kw_embeddings k = dataset_embeddings dataset
    ∧ m !! "top_k" = Some (kw_top_k k)
    ∧ m !! "search_method" = Some (kw_search_method k)
    ∧ config_value_if m "score_threshold_enabled" "score_threshold"
      = Some (kw_score_threshold k)
    ∧ config_value_if m "reranking_enable" "reranking_model"
      = Some (kw_reranking_model k)
    ∧ (∀ enabled, m !! "score_threshold_enabled" = Some enabled →
                  truthy enabled = false → kw_score_threshold k = PNone)
    ∧ (∀ enabled, m !! "reranking_enable" = Some enabled →
                  truthy enabled = false → kw_reranking_model k = PNone).
Proof.
  intros Hne Hin.
  assert (∃ m, effective_retrieval_model dataset retrieval_model = PDict m
               ∧ search_kwargs dataset query m (dataset_embeddings dataset) = Some k)
    as (m & Hm & Hk).
  { destruct Hin as [H|H].
    - exact (retrieve_started _ _ _ _ _ _ k _ Hne (or_introl eq_refl) H).
    - exact (retrieve_started _ _ _ _ _ _ k _ Hne (or_intror eq_refl) H). }
  exists m. split; [done|].
  destruct (search_kwargs_fields _ _ _ _ _ Hk) as (? & ? & ? & ? & ? & Hst & Hrr).
  repeat split; try done; intros f Hf Hfalse; by eapply config_value_if_disabled.
Qed.

(** When [retrieve] starts both searches, they get the same arguments. *)
Theorem searches_share_arguments w dataset query account retrieval_model limit k1 k2 :
  ¬ empty_dataset dataset →
  EmbeddingSearch k1 ∈ trace_of (retrieve w dataset query account retrieval_model limit) →
  FullTextIndexSearch k2
    ∈ trace_of (retrieve w dataset query account retrieval_model limit) →
  k1 = k2.
Proof.
  intros Hne H1 H2.
  destruct (retrieve_started _ _ _ _ _ _ k1 _ Hne (or_introl eq_refl) H1) as (m1 & Hm1 & Hk1).
  destruct (retrieve_started _ _ _ _ _ _ k2 _ Hne (or_intror eq_refl) H2) as (m2 & Hm2 & Hk2).
  rewrite Hm1 in Hm2. injection Hm2 as <-. congruence.
Qed.

(** ** The search phase, mode by mode *)

Section Modes.
Variables (w : World) (dataset : Dataset) (query : string) (account : Account).
Variables (m : gmap string pyval) (v : pyval).
Hypothesis Hmethod : m !! "search_method" = Some v.

Lemma start_embedding_thread_eval embeddings k :
  eq_str v "semantic_search" || eq_str v "hybrid_search" = true →
  search_kwargs dataset query m embeddings = Some k →
  start_embedding_thread w dataset query (PDict m) embeddings
  = ([EmbeddingSearch k], inr (Some k)).
Proof.
  intros Hsel Hk. unfold start_embedding_thread.
  rewrite (search_method_is_value _ _ _ _ Hmethod), ret_bind, Hsel.
  pose proof (embedding_kwargs_cases EmbeddingSearch dataset query m embeddings) as Hc.
  cbv beta zeta iota in Hc |- *.
  destruct Hc as [[Hn _]|(k' & Hk' & ->)]; congruence.
Qed.

Lemma start_embedding_thread_skip embeddings :
  eq_str v "semantic_search" || eq_str v "hybrid_search" = false →
  start_embedding_thread w dataset query (PDict m) embeddings = mret None.
Proof.
  intros Hsel. unfold start_embedding_thread.
  by rewrite (search_method_is_value _ _ _ _ Hmethod), ret_bind, Hsel.
Qed.

Lemma start_full_text_index_thread_eval embeddings k :
  eq_str v "full_text_search" || eq_str v "hybrid_search" = true →
  search_kwargs dataset query m embeddings = Some k →
  start_full_text_index_thread w dataset query (PDict m) embeddings
  = ([FullTextIndexSearch k], inr (Some k)).
Proof.
  intros Hsel Hk. unfold start_full_text_index_thread.
  rewrite (search_method_is_value _ _ _ _ Hmethod), ret_bind, Hsel.
  pose proof (full_text_kwargs_cases FullTextIndexSearch dataset query m embeddings) as Hc.
  cbv beta zeta iota in Hc |- *.
  destruct Hc as [[Hn _]|(k' & Hk' & ->)]; congruence.
Qed.

Lemma start_full_text_index_thread_skip embeddings :
  eq_str v "full_text_search" || eq_str v "hybrid_search" = false →
  start_full_text_index_thread w dataset query (PDict m) embeddings = mret None.
Proof.
  intros Hsel. unfold start_full_text_index_thread.
  by rewrite (search_method_is_value _ _ _ _ Hmethod), ret_bind, Hsel.
Qed.

Lemma rerank_skip all_documents :
  eq_str v "hybrid_search" = false →
  rerank w dataset query account (PDict m) all_documents = mret all_documents.
Proof.
  intros Hh. unfold rerank. by rewrite (subscript_eval _ _ _ Hmethod), ret_bind, Hh.
Qed.

Lemma rerank_eval all_documents rr provider model score_threshold top_n :
  eq_str v "hybrid_search" = true →
  m !! "reranking_model" = Some (PDict rr) →
  rr !! "reranking_provider_name" = Some provider →
  rr !! "reranking_model_name" = Some model →
  model_error w (ds_tenant_id dataset) RERANK provider model = None →
  config_value_if m "score_threshold_enabled" "score_threshold" = Some score_threshold →
  m !! "top_k" = Some top_n →
  rerank w dataset query account (PDict m) all_documents
  = ([GetModelInstance (ds_tenant_id dataset) RERANK provider model;
      RerankRun query all_documents score_threshold top_n
        ("account-" +:+ account_id account)],
     rerank_run w {| mi_tenant_id := ds_tenant_id dataset; mi_model_type := RERANK;
                     mi_provider := provider; mi_model := model |}
       query all_documents score_threshold top_n ("account-" +:+ account_id account)).
Proof.
  intros Hh Hrr Hp Hmo Hme Hst Hn. unfold rerank.
  rewrite (subscript_eval _ _ _ Hmethod), ret_bind, Hh.
  rewrite !(subscript_eval _ _ _ Hrr), !ret_bind.
  rewrite (subscript_eval _ _ _ Hp), ret_bind, (subscript_eval _ _ _ Hmo), ret_bind.
  rewrite (get_model_instance_ok _ _ _ _ _ Hme), bind_prefix.
  destruct (subscript_if_cases m "score_threshold_enabled" "score_threshold")
    as [[Hnone _]|(st & Hst' & ->)]; [congruence|].
  rewrite Hst in Hst'. injection Hst' as <-.
  rewrite ret_bind, (subscript_eval _ _ _ Hn), ret_bind. reflexivity.
Qed.
End Modes.

Lemma retrieve_search_unfold w dataset query account retrieval_model :
  model_error w (ds_tenant_id dataset) TEXT_EMBEDDING
    (embedding_model_provider dataset) (embedding_model dataset) = None →
  retrieve_search w dataset query account retrieval_model =
  (emit (GetModelInstance (ds_tenant_id dataset) TEXT_EMBEDDING
           (embedding_model_provider dataset) (embedding_model dataset));;
   let rm := effective_retrieval_model dataset retrieval_model in
   embedding_thread ← start_embedding_thread w dataset query rm (dataset_embeddings dataset);
   full_text_index_thread ←
     start_full_text_index_thread w dataset query rm (dataset_embeddings dataset);
   all_documents ← rerank w dataset query account rm
                     (joined w embedding_thread full_text_index_thread);
   mret (dataset_embeddings dataset, all_documents)).
Proof.
  intros Hme. unfold retrieve_search. cbv zeta.
  rewrite (get_model_instance_ok _ _ _ _ _ Hme), bind_prefix. reflexivity.
Qed.

(** ** Strategy selection *)

Lemma kwargs_readable_search_kwargs dataset query (m : gmap string pyval) embeddings v :
  m !! "search_method" = Some v →
  kwargs_readable m ↔ is_Some (search_kwargs dataset query m embeddings).
Proof.
  intros Hv. unfold kwargs_readable, search_kwargs. rewrite Hv.
  destruct (m !! "top_k") as [k|]; cbn [mbind option_bind].
  2:{ split; [by intros [[? ?] _] | by intros [? ?]]. }
  destruct (config_value_if m "score_threshold_enabled" "score_threshold") as [s|];
    cbn [mbind option_bind].
  2:{ split; [by intros (_ & [? ?] & _) | by intros [? ?]]. }
  destruct (config_value_if m "reranking_enable" "reranking_model") as [r|];
    cbn [mbind option_bind].
  2:{ split; [by intros (_ & _ & [? ?]) | by intros [? ?]]. }
  split; [by eexists | intros _; repeat split; by eexists].
Qed.

Lemma subscript_missing (m : gmap string pyval) k :
  m !! k = None → subscript (PDict m) k = raise (KeyError k).
Proof. intros H. unfold subscript. by rewrite H. Qed.

Lemma subscript_not_dict v k : (∀ d, v ≠ PDict d) → subscript v k = raise TypeError.
Proof. intros H. destruct v; try done. by destruct (H d). Qed.

Section Unreadable.
Variables (w : World) (dataset : Dataset) (query : string) (account : Account).
Variables (m : gmap string pyval) (v : pyval).
Hypothesis Hmethod : m !! "search_method" = Some v.

Lemma start_embedding_thread_unreadable embeddings :
  eq_str v "semantic_search" || eq_str v "hybrid_search" = true →
  search_kwargs dataset query m embeddings = None →
  ∃ e, start_embedding_thread w dataset query (PDict m) embeddings = raise e.
Proof.
  intros Hsel Hk. unfold start_embedding_thread.
  rewrite (search_method_is_value _ _ _ _ Hmethod), ret_bind, Hsel.
  pose proof (embedding_kwargs_cases EmbeddingSearch dataset query m embeddings) as Hc.
  cbv beta zeta iota in Hc |- *.
  destruct Hc as [[_ He]|(k' & Hk' & _)]; [done | congruence].
Qed.

Lemma start_full_text_index_thread_unreadable embeddings :
  eq_str v "full_text_search" || eq_str v "hybrid_search" = true →
  search_kwargs dataset query m embeddings = None →
  ∃ e, start_full_text_index_thread w dataset query (PDict m) embeddings = raise e.
Proof.
  intros Hsel Hk. unfold start_full_text_index_thread.
  rewrite (search_method_is_value _ _ _ _ Hmethod), ret_bind, Hsel.
  pose proof (full_text_kwargs_cases FullTextIndexSearch dataset query m embeddings) as Hc.
  cbv beta zeta iota in Hc |- *.
  destruct Hc as [[_ He]|(k' & Hk' & _)]; [done | congruence].
Qed.

(** The rerank step of a hybrid search whose keyword arguments were
    readable: the reranker is run when the rerank model resolves, and not
    otherwise. *)
Lemma rerank_hybrid_cases all_documents :
  eq_str v "hybrid_search" = true →
  kwargs_readable m →
  (rerank_model_resolves w dataset m
   ∧ ∃ provider model score_threshold top_n user r,
       rerank w dataset query account (PDict m) all_documents
       = ([GetModelInstance (ds_tenant_id dataset) RERANK provider model;
           RerankRun query all_documents score_threshold top_n user], r))
  ∨ (¬ rerank_model_resolves w dataset m
     ∧ ∃ t e, rerank w dataset query account (PDict m) all_documents = (t, inl e)
              ∧ (t = [] ∨ ∃ provider model,
                   t = [GetModelInstance (ds_tenant_id dataset) RERANK provider model])).
Proof.
  intros Hh ([top_n Htop] & [st Hst] & _).
  destruct (m !! "reranking_model") as [r|] eqn:Hr.
  2:{ right. split; [intros (? & ? & ? & ? & _); congruence|].
      exists [], (KeyError "reranking_model").
      split; [|by left]. unfold rerank.
      rewrite (subscript_eval _ _ _ Hmethod), ret_bind, Hh.
      by rewrite (subscript_missing _ _ Hr), ?raise_bind. }
  assert (Hnodict : (∀ rr, r ≠ PDict rr) →
            ¬ rerank_model_resolves w dataset m
            ∧ ∃ t e, rerank w dataset query account (PDict m) all_documents = (t, inl e)
                     ∧ (t = [] ∨ ∃ provider model,
                          t = [GetModelInstance (ds_tenant_id dataset) RERANK provider
                                 model])).
  { intros Hn. split; [intros (rr & ? & ? & Hrr & _); destruct (Hn rr); congruence|].
    exists [], TypeError. split; [|by left]. unfold rerank.
    rewrite (subscript_eval _ _ _ Hmethod), ret_bind, Hh.
    rewrite (subscript_eval _ _ _ Hr), !ret_bind.
    rewrite !(subscript_not_dict r) by done. by rewrite ?raise_bind. }
  destruct r as [| | | | |rr]; try (right; by apply Hnodict).
  destruct (rr !! "reranking_provider_name") as [provider|] eqn:Hp.
  2:{ right. split; [intros (rr' & ? & ? & Hrr & Hp' & _); congruence|].
      exists [], (KeyError "reranking_provider_name"). split; [|by left]. unfold rerank.
      rewrite (subscript_eval _ _ _ Hmethod), ret_bind, Hh.
      rewrite (subscript_eval _ _ _ Hr), !ret_bind.
      by rewrite (subscript_missing _ _ Hp), ?raise_bind. }
  destruct (rr !! "reranking_model_name") as [model|] eqn:Hmo.
  2:{ right. split; [intros (rr' & ? & ? & Hrr & _ & Hmo' & _); congruence|].
      exists [], (KeyError "reranking_model_name"). split; [|by left]. unfold rerank.
      rewrite (subscript_eval _ _ _ Hmethod), ret_bind, Hh.
      rewrite !(subscript_eval _ _ _ Hr), !ret_bind.
      rewrite (subscript_eval _ _ _ Hp), ret_bind.
      by rewrite (subscript_missing _ _ Hmo), ?raise_bind. }
  destruct (model_error w (ds_tenant_id dataset) RERANK provider model) as [e|] eqn:Hme.
  - right. split.
    { intros (rr' & p' & m' & Hrr & Hp' & Hmo' & Hme'). congruence. }
    exists [GetModelInstance (ds_tenant_id dataset) RERANK provider model], e.
    split; [|right; by eexists _, _]. unfold rerank.
    rewrite (subscript_eval _ _ _ Hmethod), ret_bind, Hh.
    rewrite !(subscript_eval _ _ _ Hr), !ret_bind.
    rewrite (subscript_eval _ _ _ Hp), ret_bind, (subscript_eval _ _ _ Hmo), ret_bind.
    by rewrite (get_model_instance_raises _ _ _ _ _ _ Hme).
  - left. split; [by exists rr, provider, model|].
    eexists _, _, _, _, _, _.
    by apply (rerank_eval w dataset query account m v Hmethod all_documents rr provider
                model st top_n).
Qed.
End Unreadable.

(** The search phase in the three modes: it stops right after the embedding
    model lookup, or it starts the searches of its mode. *)
Lemma search_phase_cases w dataset query account retrieval_model m method :
  effective_retrieval_model dataset retrieval_model = PDict m →
  m !! "search_method" = Some (PStr method) →
  method = "semantic_search" ∨ method = "full_text_search" ∨ method = "hybrid_search" →
  let r := retrieve_search w dataset query account retrieval_model in
  let lookup := GetModelInstance (ds_tenant_id dataset) TEXT_EMBEDDING
                  (embedding_model_provider dataset) (embedding_model dataset) in
  let embeddings := dataset_embeddings dataset in
  (¬ (embedding_model_resolves w dataset ∧ kwargs_readable m)
   ∧ ∃ e, r = ([lookup], inl e))
  ∨ ((embedding_model_resolves w dataset ∧ kwargs_readable m)
     ∧ ∃ k,
         (method = "semantic_search" →
          r = ([lookup; EmbeddingSearch k], inr (embeddings, embedding_search w k [])))
         ∧ (method = "full_text_search" →
            r = ([lookup; FullTextIndexSearch k],
                 inr (embeddings, full_text_index_search w k [])))
         ∧ (method = "hybrid_search" →
            let reranked :=
              rerank w dataset query account (PDict m) (joined w (Some k) (Some k)) in
            r = (lookup :: EmbeddingSearch k :: FullTextIndexSearch k :: trace_of reranked,
                 match outcome reranked with
                 | inr all_documents => inr (embeddings, all_documents)
                 | inl e => inl e
                 end))).
Proof.
  intros Heff Hm Hmethod r lookup embeddings. subst r lookup embeddings.
  destruct (model_error w (ds_tenant_id dataset) TEXT_EMBEDDING
              (embedding_model_provider dataset) (embedding_model dataset))
    as [e|] eqn:Hme.
  { left. split.
    - intros [Hres _]. unfold embedding_model_resolves in Hres. congruence.
    - exists e. unfold retrieve_search. cbv zeta.
      by rewrite (get_model_instance_raises _ _ _ _ _ _ Hme). }
  rewrite (retrieve_search_unfold _ _ _ _ _ Hme). cbv zeta. rewrite Heff.
  pose proof (kwargs_readable_search_kwargs dataset query m (dataset_embeddings dataset)
                _ Hm) as Hread.
  destruct (search_kwargs dataset query m (dataset_embeddings dataset)) as [k|] eqn:Hk.
  - right. split; [split; [done | apply Hread; by eexists]|]. exists k.
    split; [|split]; intros ->.
    + rewrite (start_embedding_thread_eval w dataset query m _ Hm _ k eq_refl Hk).
      rewrite bind_prefix. cbv beta.
      rewrite (start_full_text_index_thread_skip w dataset query m _ Hm _ eq_refl), ret_bind.
      rewrite (rerank_skip w dataset query account m _ Hm _ eq_refl), ret_bind.
      reflexivity.
    + rewrite (start_embedding_thread_skip w dataset query m _ Hm _ eq_refl), ret_bind.
      rewrite (start_full_text_index_thread_eval w dataset query m _ Hm _ k eq_refl Hk).
      rewrite bind_prefix. cbv beta.
      rewrite (rerank_skip w dataset query account m _ Hm _ eq_refl), ret_bind.
      reflexivity.
    + rewrite (start_embedding_thread_eval w dataset query m _ Hm _ k eq_refl Hk).
      rewrite bind_prefix. cbv beta.
      rewrite (start_full_text_index_thread_eval w dataset query m _ Hm _ k eq_refl Hk).
      rewrite bind_prefix. cbv beta.
      cbv zeta. destruct (rerank _ _ _ _ _ _) as [t [e|docs]]; [done|].
      unfold mbind, M_bind, mret, M_ret, emit, trace_of, outcome. cbn.
      by rewrite app_nil_r.
  - left. split.
    { intros [_ Hkw]. apply Hread in Hkw. by destruct Hkw. }
    destruct Hmethod as [->|[->| ->]].
    + destruct (start_embedding_thread_unreadable w dataset query m _ Hm _ eq_refl Hk)
        as [e ->]. by exists e.
    + rewrite (start_embedding_thread_skip w dataset query m _ Hm _ eq_refl), ret_bind.
      destruct (start_full_text_index_thread_unreadable w dataset query m _ Hm _ eq_refl Hk)
        as [e ->]. by exists e.
    + destruct (start_embedding_thread_unreadable w dataset query m _ Hm _ eq_refl Hk)
        as [e ->]. by exists e.
Qed.

(** C3, amended.  On a non-empty dataset, with the configuration in force
    naming the search method: no strategy and no reranker is invoked more
    than once.  The searches of the mode start exactly when the embedding
    model of the dataset resolves and the configuration keys their keyword
    arguments read are present: then the semantic strategy is invoked exactly
    once under "semantic_search", the full-text strategy exactly once under
    "full_text_search" and both exactly once under "hybrid_search"; otherwise
    none is invoked.  A strategy the mode does not select is never invoked,
    and the reranker is never run outside "hybrid_search".  Under
    "hybrid_search" the reranker is run exactly once when, in addition, the
    configuration names a rerank model that resolves, whether or not the run
    itself then fails, and not at all otherwise.  A search phase that runs to
    its end without an exception meets all these conditions. *)
Theorem strategy_selection w dataset query account retrieval_model limit m method :
  ¬ empty_dataset dataset →
  effective_retrieval_model dataset retrieval_model = PDict m →
  m !! "search_method" = Some (PStr method) →
  let t := trace_of (retrieve w dataset query account retrieval_model limit) in
  let started := embedding_model_resolves w dataset ∧ kwargs_readable m in
  let reranked := started ∧ rerank_model_resolves w dataset m in
  let completed := search_completed w dataset query account retrieval_model in
  (calls is_embedding_search t ≤ 1 ∧ calls is_full_text_search t ≤ 1
   ∧ calls is_rerank t ≤ 1)%nat
  ∧ (method = "semantic_search" →
     calls is_full_text_search t = 0%nat ∧ calls is_rerank t = 0%nat
     ∧ (started → calls is_embedding_search t = 1%nat)
     ∧ (¬ started → calls is_embedding_search t = 0%nat)
     ∧ (completed → started))
  ∧ (method = "full_text_search" →
     calls is_embedding_search t = 0%nat ∧ calls is_rerank t = 0%nat
     ∧ (started → calls is_full_text_search t = 1%nat)
     ∧ (¬ started → calls is_full_text_search t = 0%nat)
     ∧ (completed → started))
  ∧ (method = "hybrid_search" →
     (started →
      calls is_embedding_search t = 1%nat ∧ calls is_full_text_search t = 1%nat)
     ∧ (¬ started →
        calls is_embedding_search t = 0%nat ∧ calls is_full_text_search t = 0%nat)
     ∧ (reranked → calls is_rerank t = 1%nat)
     ∧ (¬ reranked → calls is_rerank t = 0%nat)
     ∧ (completed → reranked)).
Proof.
  intros Hne Heff Hm t started reranked completed. subst t started reranked completed.
  assert (H1 : ∀ e, is_projection e = true → is_embedding_search e = false) by (by intros []).
  assert (H2 : ∀ e, is_projection e = true → is_full_text_search e = false) by (by intros []).
  assert (H3 : ∀ e, is_projection e = true → is_rerank e = false) by (by intros []).
  rewrite (retrieve_calls_in_search is_embedding_search _ _ _ _ _ _ H1) by done.
  rewrite (retrieve_calls_in_search is_full_text_search _ _ _ _ _ _ H2) by done.
  rewrite (retrieve_calls_in_search is_rerank _ _ _ _ _ _ H3) by done.
  clear H1 H2 H3. unfold search_completed.
  pose proof (search_phase_cases w dataset query account retrieval_model m method Heff Hm)
    as Hcases. cbv zeta in Hcases.
  split; [|split; [|split]].
  - destruct (retrieve_search_calls w dataset query account retrieval_model m method Heff Hm)
      as [(He & Hf & Hr) _].
    pose proof (bit_le_1 (String.eqb method "semantic_search"
                          || String.eqb method "hybrid_search")).
    pose proof (bit_le_1 (String.eqb method "full_text_search"
                          || String.eqb method "hybrid_search")).
    pose proof (bit_le_1 (String.eqb method "hybrid_search")).
    lia.
  - intros ->.
    destruct (Hcases (or_introl eq_refl)) as [[Hno [e ->]]|[Hyes (k & Hs & _)]].
    + split; [done|]. split; [done|]. split; [by intros ?|]. split; [done|].
      intros [x Hx]. discriminate Hx.
    + rewrite (Hs eq_refl). split; [done|]. split; [done|]. split; [done|].
      split; [by intros ?|]. done.
  - intros ->.
    destruct (Hcases (or_intror (or_introl eq_refl)))
      as [[Hno [e ->]]|[Hyes (k & _ & Hs & _)]].
    + split; [done|]. split; [done|]. split; [by intros ?|]. split; [done|].
      intros [x Hx]. discriminate Hx.
    + rewrite (Hs eq_refl). split; [done|]. split; [done|]. split; [done|].
      split; [by intros ?|]. done.
  - intros ->.
    destruct (Hcases (or_intror (or_intror eq_refl)))
      as [[Hno [e ->]]|[Hyes (k & _ & _ & Hr)]].
    + split; [by intros ?|]. split; [done|]. split; [by intros [? _]|]. split; [done|].
      intros [x Hx]. discriminate Hx.
    + rewrite (Hr eq_refl). clear Hr Hcases. cbv zeta.
      destruct (rerank_hybrid_cases w dataset query account m (PStr "hybrid_search") Hm
                  (joined w (Some k) (Some k)) eq_refl (proj2 Hyes))
        as [[Hres (p & mo & st & n & u & r & ->)]
           |[Hnres (t & e & -> & [->|(p & mo & ->)])]];
        cbn [trace_of outcome fst snd calls is_embedding_search is_full_text_search
               is_rerank].
      * split; [intros ?; by split|]. split; [by intros ?|]. split; [done|].
        split; [intros Hn; by destruct Hn|]. intros _. by split.
      * split; [intros ?; by split|]. split; [by intros ?|].
        split; [by intros [_ ?]|]. split; [done|]. intros [x Hx]. discriminate Hx.
      * split; [intros ?; by split|]. split; [by intros ?|].
        split; [by intros [_ ?]|]. split; [done|]. intros [x Hx]. discriminate Hx.
Qed.

(** C3, amended, on a hybrid configuration in a world where the rerank run
    fails: both strategies and the reranker have been invoked once each,
    although the search phase raises. *)
Lemma strategy_selection_witness :
  let r := retrieve Scenario.world_with_failing_reranker Sample.dataset "what is alpha"
             Sample.account Sample.hybrid_config 10 in
  calls is_embedding_search (trace_of r) = 1%nat
  ∧ calls is_full_text_search (trace_of r) = 1%nat
  ∧ calls is_rerank (trace_of r) = 1%nat
  ∧ outcome r = inl (ProviderError "InvokeServerUnavailableError").
Proof.
  assert (Hstarted : embedding_model_resolves Scenario.world_with_failing_reranker
                       Sample.dataset
                     ∧ kwargs_readable Sample.hybrid_config_map).
  { split; [reflexivity|]. repeat split; eexists; vm_compute; reflexivity. }
  assert (Hrerank : rerank_model_resolves Scenario.world_with_failing_reranker
                      Sample.dataset Sample.hybrid_config_map).
  { exists Scenario.rerank_names, (PStr "cohere"), (PStr "rerank-english-v2.0").
    repeat split; vm_compute; reflexivity. }
  destruct (strategy_selection Scenario.world_with_failing_reranker Sample.dataset
              "what is alpha" Sample.account Sample.hybrid_config 10
              Sample.hybrid_config_map "hybrid_search")
    as (_ & _ & _ & H).
  - unfold empty_dataset. simpl. lia.
  - reflexivity.
  - vm_compute. reflexivity.
  - destruct (H eq_refl) as (Hs & _ & Hr & _).
    destruct (Hs Hstarted) as [He Hf].
    split; [exact He|]. split; [exact Hf|]. split; [exact (Hr (conj Hstarted Hrerank))|].
    vm_compute. reflexivity.
Defined.

(** The search phase of a hybrid search whose models resolve, call by call:
    the embedding model lookup, the semantic search, the full-text search,
    the rerank model lookup under the configured provider and model names,
    and one rerank run over the pooled fragments with the configured
    threshold, [top_k] as [top_n] and the user [account-<id>]; its result
    replaces the pooled fragments. *)
Theorem hybrid_search_phase w dataset query account retrieval_model m k rr provider model :
  effective_retrieval_model dataset retrieval_model = PDict m →
  m !! "search_method" = Some (PStr "hybrid_search") →
  search_kwargs dataset query m (dataset_embeddings dataset) = Some k →
  m !! "reranking_model" = Some (PDict rr) →
  rr !! "reranking_provider_name" = Some provider →
  rr !! "reranking_model_name" = Some model →
  model_error w (ds_tenant_id dataset) TEXT_EMBEDDING
    (embedding_model_provider dataset) (embedding_model dataset) = None →
  model_error w (ds_tenant_id dataset) RERANK provider model = None →
  let pooled := joined w (Some k) (Some k) in
  let user := ("account-" +:+ account_id account)%string in
  let reranker := {| mi_tenant_id := ds_tenant_id dataset; mi_model_type := RERANK;
                     mi_provider := provider; mi_model := model |} in
  retrieve_search w dataset query account retrieval_model
  = ([GetModelInstance (ds_tenant_id dataset) TEXT_EMBEDDING
        (embedding_model_provider dataset) (embedding_model dataset);
      EmbeddingSearch k;
      FullTextIndexSearch k;
      GetModelInstance (ds_tenant_id dataset) RERANK provider model;
      RerankRun query pooled (kw_score_threshold k) (kw_top_k k) user],
     match rerank_run w reranker query pooled (kw_score_threshold k) (kw_top_k k) user with
     | inr all_documents => inr (dataset_embeddings dataset, all_documents)
     | inl e => inl e
     end).
Proof.
  intros Heff Hm Hk Hrr Hp Hmo Hme Hme2 pooled user reranker.
  destruct (search_kwargs_fields _ _ _ _ _ Hk) as (_ & _ & _ & Hn & _ & Hst & _).
  rewrite (retrieve_search_unfold _ _ _ _ _ Hme), Heff. cbv zeta.
  rewrite (start_embedding_thread_eval w dataset query m _ Hm _ k eq_refl Hk).
  rewrite bind_prefix. cbv beta.
  rewrite (start_full_text_index_thread_eval w dataset query m _ Hm _ k eq_refl Hk).
  rewrite bind_prefix. cbv beta.
  rewrite (rerank_eval w dataset query account m _ Hm _ rr provider model _ _
             eq_refl Hrr Hp Hmo Hme2 Hst Hn).
  subst pooled user reranker.
  by destruct (rerank_run w _ query _ _ _ _).
Qed.

(** With no configuration in the request and none saved on the dataset,
    the built-in default applies: one semantic search with [top_k = 2],
    without score threshold and without reranking model, and no rerank. *)
Theorem default_configuration w dataset query account retrieval_model :
  truthy retrieval_model = false →
  truthy (ds_retrieval_model dataset) = false →
  model_error w (ds_tenant_id dataset) TEXT_EMBEDDING
    (embedding_model_provider dataset) (embedding_model dataset) = None →
  let k := {| kw_dataset_id := ds_id dataset; kw_query := query; kw_top_k := PInt 2;
              kw_score_threshold := PNone; kw_reranking_model := PNone;
              kw_search_method := PStr "semantic_search";
              kw_embeddings := dataset_embeddings dataset |} in
  retrieve_search w dataset query account retrieval_model
  = ([GetModelInstance (ds_tenant_id dataset) TEXT_EMBEDDING
        (embedding_model_provider dataset) (embedding_model dataset);
      EmbeddingSearch k],
     inr (dataset_embeddings dataset, embedding_search w k [])).
Proof.
  intros Hrm Hds Hme k.
  rewrite (retrieve_search_unfold _ _ _ _ _ Hme).
  unfold effective_retrieval_model. rewrite Hrm, Hds. cbv zeta.
  unfold default_retrieval_model.
  set (d := list_to_map _).
  assert (Hm : d !! "search_method" = Some (PStr "semantic_search")) by (vm_compute; done).
  assert (Hk : search_kwargs dataset query d (dataset_embeddings dataset) = Some k)
    by (vm_compute; done).
  rewrite (start_embedding_thread_eval w dataset query d _ Hm _ k eq_refl Hk).
  rewrite bind_prefix. cbv beta.
  rewrite (start_full_text_index_thread_skip w dataset query d _ Hm _ eq_refl), ret_bind.
  rewrite (rerank_skip w dataset query account d _ Hm _ eq_refl), ret_bind.
  reflexivity.
Qed.

(** A [search_method] that is none of the three known ones is not rejected:
    the embedding model is looked up, no search is started, and the search
    phase returns no fragments. *)
Theorem unknown_search_method w dataset query account retrieval_model m v :
  effective_retrieval_model dataset retrieval_model = PDict m →
  m !! "search_method" = Some v →
  eq_str v "semantic_search" = false →
  eq_str v "full_text_search" = false →
  eq_str v "hybrid_search" = false →
  model_error w (ds_tenant_id dataset) TEXT_EMBEDDING
    (embedding_model_provider dataset) (embedding_model dataset) = None →
  retrieve_search w dataset query account retrieval_model
  = ([GetModelInstance (ds_tenant_id dataset) TEXT_EMBEDDING
        (embedding_model_provider dataset) (embedding_model dataset)],
     inr (dataset_embeddings dataset, [])).
Proof.
  intros Heff Hm Hs Hf Hh Hme.
  rewrite (retrieve_search_unfold _ _ _ _ _ Hme), Heff. cbv zeta.
  rewrite (start_embedding_thread_skip w dataset query m _ Hm) by (by rewrite Hs, Hh).
  rewrite ret_bind.
  rewrite (start_full_text_index_thread_skip w dataset query m _ Hm) by (by rewrite Hf, Hh).
  rewrite ret_bind.
  rewrite (rerank_skip w dataset query account m _ Hm _ Hh), ret_bind.
  reflexivity.
Qed.

(** A truthy configuration that is not a dict makes [retrieve] raise
    [TypeError], and a dict without [search_method] [KeyError]; both only
    after the embedding model has been looked up, and before any search,
    log write or projection. *)
Theorem unreadable_configuration w dataset query account retrieval_model limit :
  ¬ empty_dataset dataset →
  model_error w (ds_tenant_id dataset) TEXT_EMBEDDING
    (embedding_model_provider dataset) (embedding_model dataset) = None →
  let lookup := GetModelInstance (ds_tenant_id dataset) TEXT_EMBEDDING
                  (embedding_model_provider dataset) (embedding_model dataset) in
  ((∀ m, effective_retrieval_model dataset retrieval_model ≠ PDict m) →
   retrieve w dataset query account retrieval_model limit = ([lookup], inl TypeError))
  ∧ (∀ m, effective_retrieval_model dataset retrieval_model = PDict m →
          m !! "search_method" = None →
          retrieve w dataset query account retrieval_model limit
          = ([lookup], inl (KeyError "search_method"))).
Proof.
  intros Hne Hme lookup. subst lookup.
  rewrite retrieve_not_short_circuit by done.
  rewrite (retrieve_search_unfold _ _ _ _ _ Hme). cbv zeta.
  split.
  - intros Hnd. unfold start_embedding_thread, search_method_is.
    destruct (effective_retrieval_model dataset retrieval_model) as [| | | | |m];
      try reflexivity.
    by destruct (Hnd m).
  - intros m -> Hnone. unfold start_embedding_thread, search_method_is, subscript.
    rewrite Hnone. reflexivity.
Qed.

(** ** The solver's perplexity and the query check, in general *)

(** For two or more vectors the solver runs once, with a perplexity that is
    at least 1 and strictly below the number of vectors; from three vectors
    on the clamp never fires and the perplexity is [n / 2 + 1]. *)
Theorem tsne_perplexity_valid w (embeddings : list vec) :
  let count := length embeddings in
  (2 ≤ count)%nat →
  ∃ perplexity,
    filter (λ e, is_solver e = true)
      (trace_of (get_tsne_positions_from_embeddings w embeddings))
    = [TsneFitTransform perplexity (add_noise w embeddings)]
    ∧ match perplexity with
      | PInt z => 1 ≤ z < Z.of_nat count
      | PFloat q => (1 < q)%Q ∧ (q < inject_Z (Z.of_nat count))%Q
      | _ => False
      end
    ∧ ((3 ≤ count)%nat →
       perplexity = PFloat (inject_Z (Z.of_nat count) / 2 + 1)%Q).
Proof.
  intros count Hc. exists (tsne_perplexity count).
  rewrite tsne_trace by done. split; [reflexivity|].
  split; [by apply tsne_perplexity_below_count|].
  intros H3. unfold tsne_perplexity.
  destruct (Qle_bool _ _) eqn:Hle; [|done].
  apply Qle_bool_iff, clamp_triggers in Hle; [lia | done].
Qed.

(** The argument check passes only if [query] is present and truthy, and,
    when it is a string, is not empty and has at most 250 characters (code
    points, not bytes): a text that passes has between 1 and 250 of them. *)
Theorem args_check_passes_only (args : gmap string pyval) :
  outcome (hit_testing_args_check (PDict args)) = inr tt →
  ∃ q, args !! "query" = Some q
       ∧ truthy q = true
       ∧ (∀ s, q = PStr s → s ≠ "" ∧ (Utf8.code_points s ≤ 250)%nat)
       ∧ (∀ text, Forall Utf8.valid text → q = PStr (Utf8.utf8 text) →
                  (1 ≤ length text ≤ 250)%nat).
Proof.
  unfold hit_testing_args_check.
  destruct (subscript_cases args "query") as [[_ ->]|(q & Hq & ->)]; [done|].
  rewrite ret_bind. destruct (truthy q) eqn:Ht; [|done].
  intros Hok. exists q. split; [done|]. split; [done|].
  assert (Hs : ∀ s, q = PStr s → s ≠ "" ∧ (Utf8.code_points s ≤ 250)%nat).
  { intros s ->. simpl in Ht. rewrite outcome_bind in Hok. cbn in Hok.
    destruct (250 <? Z.of_nat (Utf8.code_points s)) eqn:Hl; [done|].
    apply Z.ltb_ge in Hl. split; [|lia]. by intros ->. }
  split; [exact Hs|]. intros text Hv ->.
  destruct (Hs _ eq_refl) as [Hne Hle]. rewrite code_points_utf8 in Hle by done.
  split; [|done]. destruct text; [done | simpl; lia].
Qed.

(** Arguments without [query] raise [KeyError]; a [None] query raises the
    [ValueError] of the check; a non-zero integer query raises [TypeError]
    (it has no [len]). *)
Theorem args_check_malformed (args : gmap string pyval) :
  let r := outcome (hit_testing_args_check (PDict args)) in
  (args !! "query" = None → r = inl (KeyError "query"))
  ∧ (args !! "query" = Some PNone → r = inl query_error)
  ∧ (∀ z, z ≠ 0 → args !! "query" = Some (PInt z) → r = inl TypeError).
Proof.
  intros r. subst r. unfold hit_testing_args_check, subscript.
  repeat split.
  - by intros ->.
  - by intros ->.
  - intros z Hz ->. rewrite ret_bind. simpl.
    destruct (z =? 0) eqn:Hz0; [apply Z.eqb_eq in Hz0; done | done].
Qed.

(** * The extended data API *)

Lemma get_from acc (objects : store) (globals : namespace) :
  foldl (λ descriptions_list item,
           let '(name, func) := item in
           if callable (objects func) then
             match attributes (objects func) !! "_description" with
             | Some description =>
                 descriptions_list ++ [ {| entry_value := name; entry_name := description |} ]
             | None => descriptions_list
             end
           else descriptions_list)
        acc globals
  = acc ++ omap (described objects) globals.
Proof.
  revert acc. induction globals as [|[n f] rest IH]; intros acc.
  { by rewrite app_nil_r. }
  cbn [foldl]. rewrite IH. unfold described at 2. cbn [omap list_omap fst snd].
  destruct (callable (objects f)); [|done].
  destruct (attributes (objects f) !! "_description") as [d|]; [|done].
  cbn [mbind option_bind]. by rewrite <- app_assoc.
Qed.

Lemma get_described st : get st = omap (described (objects st)) (globals st).
Proof. apply (get_from []). Qed.

(** The listing holds one entry per binding of the namespace whose object is
    callable and has a [_description], with the bound name as [value] and the
    description as [name], and nothing else; the entries follow the order of
    the namespace. *)
Theorem listing_is_described_callables (st : module_state) :
  get st = omap (described (objects st)) (globals st)
  ∧ (∀ name description,
       {| entry_value := name; entry_name := description |} ∈ get st
       ↔ ∃ func, (name, func) ∈ globals st ∧ callable (objects st func) = true
                 ∧ attributes (objects st func) !! "_description" = Some description)
  ∧ entry_value <$> get st `sublist_of` (globals st).*1.
Proof.
  split; [apply get_described|]. rewrite get_described. split.
  - intros name description. rewrite list_elem_of_omap. split.
    + intros ([n f] & Hin & Hd). unfold described in Hd. cbn [fst snd] in Hd.
      destruct (callable (objects st f)) eqn:Hc; [|done].
      destruct (attributes (objects st f) !! "_description") as [d|] eqn:Ha; [|done].
      injection Hd as -> ->. by exists f.
    + intros (f & Hin & Hc & Ha). exists (name, f). split; [done|].
      unfold described. cbn [fst snd]. by rewrite Hc, Ha.
  - induction (globals st) as [|[n f] rest IH]; [done|].
    cbn [omap list_omap fmap list_fmap fst].
    destruct (described (objects st) (n, f)) as [e|] eqn:Hd.
    + assert (entry_value e = n) as <-.
      { unfold described in Hd. cbn [fst snd] in Hd.
        destruct (callable (objects st f)); [|done].
        destruct (attributes (objects st f) !! "_description"); [|done].
        by injection Hd as <-. }
      cbn [fmap list_fmap]. by apply sublist_skip.
    + by apply sublist_cons.
Qed.

Lemma update_eq obj state objects : update obj state objects obj = state.
Proof. unfold update. by rewrite Nat.eqb_refl. Qed.

Lemma update_ne obj state objects r : r ≠ obj → update obj state objects r = objects r.
Proof. intros Hr. unfold update. by apply Nat.eqb_neq in Hr as ->. Qed.

Lemma decorate_other d func objects r : r ≠ func → decorate d func objects r = objects r.
Proof.
  intros Hr. destruct d; unfold decorate, api_description, api_parameter_format, setattr;
    by apply update_ne.
Qed.

Lemma decorated_other decorators func objects r :
  r ≠ func → foldr (λ d objects, decorate d func objects) objects decorators r = objects r.
Proof.
  intros Hr. induction decorators as [|d ds IH]; [done|].
  cbn [foldr]. by rewrite decorate_other.
Qed.

(** The object of a [def]: it can be called, and its description is that of
    the topmost [api_description] line. *)
Lemma decorated_new decorators func objects :
  let o := foldr (λ d objects, decorate d func objects) (update func new_callable objects)
             decorators func in
  callable o = true ∧ attributes o !! "_description" = described_as decorators.
Proof.
  induction decorators as [|d ds [IHc IHa]]; cbn [foldr described_as].
  { by rewrite update_eq. }
  destruct d as [t|f]; unfold decorate, api_description, api_parameter_format, setattr;
    rewrite update_eq; cbn [callable attributes].
  - split; [done|]. by rewrite lookup_insert_eq.
  - split; [done|]. by rewrite lookup_insert_ne.
Qed.

Lemma bind_fresh name obj (globals : namespace) :
  name ∉ globals.*1 → bind name obj globals = globals ++ [(name, obj)].
Proof.
  induction globals as [|[n o] rest IH]; [done|].
  cbn [fmap list_fmap fst]. rewrite not_elem_of_cons. intros [Hne Hrest].
  cbn [bind]. destruct (String.eqb n name) eqn:Heq.
  - apply String.eqb_eq in Heq. by subst.
  - cbn [app]. by rewrite IH.
Qed.

Lemma described_old (objects objects' : store) (globals : namespace) bound :
  Forall (λ item, item.2 < bound)%nat globals →
  (∀ r, (r < bound)%nat → objects' r = objects r) →
  omap (described objects') globals = omap (described objects) globals.
Proof.
  intros Hwf Hsame. induction Hwf as [|[n r] rest Hr _ IH]; [done|].
  cbn [omap list_omap]. rewrite IH. unfold described. cbn [fst snd] in *.
  by rewrite (Hsame r Hr).
Qed.

(** What a [def] under a fresh name does to the listing, and that it leaves
    the module well formed. *)
Lemma def_listing name decorators st :
  well_formed st → name ∉ (globals st).*1 →
  get (def name decorators st)
  = get st ++ match described_as decorators with
              | Some description =>
                  [ {| entry_value := name; entry_name := description |} ]
              | None => []
              end
  ∧ well_formed (def name decorators st)
  ∧ (globals (def name decorators st)).*1 = (globals st).*1 ++ [name].
Proof.
  intros Hwf Hfresh. rewrite !get_described. unfold def. cbn [globals objects next].
  rewrite bind_fresh by done. split; [|split].
  - rewrite omap_app. f_equal.
    + apply (described_old _ _ _ (next st)); [done|]. intros r Hr.
      rewrite decorated_other by lia. apply update_ne. lia.
    + cbn [omap list_omap]. unfold described. cbn [fst snd].
      destruct (decorated_new decorators (next st) (objects st)) as [-> ->].
      by destruct (described_as decorators).
  - unfold well_formed. cbn [globals next]. apply Forall_app. split.
    + eapply Forall_impl; [exact Hwf|]. intros [n r] Hr. cbn [snd] in *. lia.
    + apply Forall_singleton. cbn [snd]. lia.
  - by rewrite fmap_app.
Qed.


(** [api_parameter_format] has no effect on the listing: setting a parameter
    format on any object leaves the listing as it is, and a [def] whose
    decorator lines hold no [api_description] is not listed. *)
Theorem parameter_format_is_not_listed name parameterFormat decorators func
    (st : module_state) :
  get (with_objects (api_parameter_format parameterFormat func) st) = get st
  ∧ (well_formed st → name ∉ (globals st).*1 →
     described_as decorators = None →
     get (def name decorators st) = get st).
Proof.
  split.
  - rewrite !get_described. unfold with_objects. cbn [globals objects].
    induction (globals st) as [|[n r] rest IH]; [done|].
    cbn [omap list_omap]. rewrite IH.
    assert (described (api_parameter_format parameterFormat func (objects st)) (n, r)
            = described (objects st) (n, r)) as ->; [|done].
    unfold described, api_parameter_format, setattr. cbn [fst snd].
    destruct (Nat.eqb r func) eqn:Hr.
    + apply Nat.eqb_eq in Hr as ->. rewrite update_eq. cbn [callable attributes].
      by rewrite lookup_insert_ne.
    + apply Nat.eqb_neq in Hr. by rewrite update_ne.
  - intros Hwf Hfresh Hd. destruct (def_listing name decorators st Hwf Hfresh) as [-> _].
    by rewrite Hd, app_nil_r.
Qed.

(** The listing of the module itself, when nothing it imports is described
    or shadows its names: the four registered functions in definition order,
    [query_weather] (whose body is [pass]) included; the decorators and the
    resource class are not listed. *)
Theorem module_listing (imports : module_state) :
  well_formed imports →
  Forall (λ item, described (objects imports) item = None) (globals imports) →
  Forall (λ name, name ∉ (globals imports).*1)
    ["api_description"; "api_parameter_format"; "ExtendedDataApiList";
     "query_user_balance"; "query_weather"; "query_current_time"; "query_bing"] →
  get (module_globals imports)
  = [ {| entry_value := "query_user_balance"; entry_name := balance_description |};
      {| entry_value := "query_weather"; entry_name := weather_description |};
      {| entry_value := "query_current_time"; entry_name := time_description |};
      {| entry_value := "query_bing"; entry_name := bing_description |} ].
Proof.
  intros Hwf Himp Hnames. unfold module_globals. cbv zeta.
  repeat (apply Forall_cons in Hnames as [? Hnames]).
  assert (Hnone : get imports = []).
  { rewrite get_described. clear -Himp.
    induction Himp as [|item rest Hitem _ IH]; [done|].
    cbn [omap list_omap]. by rewrite Hitem. }
  assert (Hfresh : ∀ name (own : list string),
            name ∉ (globals imports).*1 → name ∉ own →
            name ∉ (globals imports).*1 ++ own).
  { intros name own ??. rewrite elem_of_app. tauto. }
  pose proof (def_listing "api_description" [] imports Hwf ltac:(done)) as (L1 & W1 & N1).
  pose proof (def_listing "api_parameter_format" [] _ W1) as (L2 & W2 & N2).
  { rewrite N1. apply Hfresh; [done|].
    rewrite !not_elem_of_cons. repeat split; (done || apply not_elem_of_nil). }
  pose proof (def_listing "ExtendedDataApiList" [] _ W2) as (L3 & W3 & N3).
  { rewrite N2, N1, <- app_assoc. apply Hfresh; [done|]. cbn [app].
    rewrite !not_elem_of_cons. repeat split; (done || apply not_elem_of_nil). }
  pose proof (def_listing "query_user_balance"
                [Description balance_description;
                 ParameterFormat (PStr "{stu_num='*******'}")] _ W3) as (L4 & W4 & N4).
  { rewrite N3, N2, N1, <- !app_assoc. apply Hfresh; [done|]. cbn [app].
    rewrite !not_elem_of_cons. repeat split; (done || apply not_elem_of_nil). }
  pose proof (def_listing "query_weather"
                [Description weather_description;
                 ParameterFormat (PStr "{location='*****'}")] _ W4) as (L5 & W5 & N5).
  { rewrite N4, N3, N2, N1, <- !app_assoc. apply Hfresh; [done|]. cbn [app].
    rewrite !not_elem_of_cons. repeat split; (done || apply not_elem_of_nil). }
  pose proof (def_listing "query_current_time" [Description time_description] _ W5)
    as (L6 & W6 & N6).
  { rewrite N5, N4, N3, N2, N1, <- !app_assoc. apply Hfresh; [done|]. cbn [app].
    rewrite !not_elem_of_cons. repeat split; (done || apply not_elem_of_nil). }
  pose proof (def_listing "query_bing"
                [Description bing_description; ParameterFormat (PStr "{query='*****'}")]
                _ W6) as (L7 & _ & _).
  { rewrite N6, N5, N4, N3, N2, N1, <- !app_assoc. apply Hfresh; [done|]. cbn [app].
    rewrite !not_elem_of_cons. repeat split; (done || apply not_elem_of_nil). }
  rewrite L7, L6, L5, L4, L3, L2, L1, Hnone. reflexivity.
Qed.

Lemma w_ret_bind {A B} (a : A) (f : A → W B) : mret a ≫= f = f a.
Proof. unfold mbind, W_bind, mret, W_ret; simpl. by destruct (f a). Qed.

Lemma w_fail_bind {A B} e (f : A → W B) : fail e ≫= f = fail e.
Proof. reflexivity. Qed.

Lemma w_tell_bind {A} ev (m : W A) : (tell ev;; m) = (ev :: m.1, m.2).
Proof. unfold mbind, W_bind, tell. simpl. by destruct (m.2). Qed.

Lemma item_eval (o : gmap string json) key x :
  o !! key = Some x → item (JObj o) key = mret x.
Proof. intros H. unfold item. by rewrite H. Qed.

Lemma item_missing (o : gmap string json) key :
  o !! key = None → item (JObj o) key = fail (EKey (JStr key)).
Proof. intros H. unfold item. by rewrite H. Qed.

Lemma string_app_assoc (a b c : string) : ((a +:+ b) +:+ c = a +:+ (b +:+ c))%string.
Proof.
  induction a as [|x a IH]; [done|].
  change (String x ((a +:+ b) +:+ c) = String x (a +:+ (b +:+ c)))%string.
  by rewrite IH.
Qed.

Lemma string_app_nil_r (a : string) : (a +:+ "")%string = a.
Proof.
  induction a as [|x a IH]; [done|].
  change (String x (a +:+ "") = String x a)%string. by rewrite IH.
Qed.

Lemma render_well_formed w results lines i text :
  Forall2 well_formed_result results lines →
  render w results i text = mret (text +:+ rendered lines i).
Proof.
  intros Hwf. revert i text.
  induction Hwf as [|result [name snippet] results lines (r & -> & Hn & Hs) _ IH];
    intros i text.
  { cbn [render rendered]. by rewrite string_app_nil_r. }
  cbn [render rendered]. cbn [fst snd] in Hn, Hs.
  rewrite (item_eval _ _ _ Hn), w_ret_bind, (item_eval _ _ _ Hs), w_ret_bind.
  rewrite IH. cbn [shown]. f_equal. by rewrite !string_app_assoc.
Qed.

Lemma render_malformed w good lines r rest i text :
  Forall2 well_formed_result good lines →
  r !! "name" = None →
  render w (good ++ JObj r :: rest) i text = fail (EKey (JStr "name")).
Proof.
  intros Hwf Hnone. revert i text.
  induction Hwf as [|result [name snippet] results lines' (r' & -> & Hn & Hs) _ IH];
    intros i text.
  { cbn [app render]. by rewrite (item_missing _ _ Hnone). }
  cbn [app render]. cbn [fst snd] in Hn, Hs.
  rewrite (item_eval _ _ _ Hn), w_ret_bind, (item_eval _ _ _ Hs), w_ret_bind.
  apply IH.
Qed.

Section Bing.
Variables (w : Web) (query : json) (response : http_response).
Hypothesis Hsent : bing_get w query = inr response.
Hypothesis Hstatus : ¬ (400 ≤ status_code response < 600).

Lemma query_bing_body :
  query_bing w query =
  (tell (BingRequest query);;
   response ← of_result (body response);
   pages ← item response "webPages";
   value ← item pages "value";
   search_results ← first_three w value;
   match search_results with
   | JList results => render w results 0 ""
   | JStr s => render w (characters s) 0 ""
   | _ => fail EType
   end).
Proof.
  unfold query_bing. rewrite Hsent.
  change (of_result (inr response)) with (mret response : W http_response).
  rewrite w_ret_bind. unfold raise_for_status.
  destruct ((400 <=? status_code response) && (status_code response <? 600)) eqn:Hs.
  { apply andb_true_iff in Hs as [H1%Z.leb_le H2%Z.ltb_lt]. lia. }
  by rewrite w_ret_bind.
Qed.
End Bing.

(** On a successful response whose first three results have a string [name]
    and [snippet], [query_bing] sends one request and returns one line
    [<n>: <name> - <snippet>] per result, numbered from 1, for at most three
    results. *)
Theorem bing_renders_first_three w query code (resp pages : gmap string json)
    results lines :
  bing_get w query = inr {| status_code := code; body := inr (JObj resp) |} →
  ¬ (400 ≤ code < 600) →
  resp !! "webPages" = Some (JObj pages) →
  pages !! "value" = Some (JList results) →
  Forall2 well_formed_result (take 3 results) lines →
  query_bing w query = ([BingRequest query], inr (rendered lines 0))
  ∧ length lines = Nat.min 3 (length results).
Proof.
  intros Hsent Hcode Hpages Hvalue Hwf. split.
  - rewrite (query_bing_body w query _ Hsent Hcode). cbn [body].
    change (of_result (inr (JObj resp))) with (mret (JObj resp) : W json).
    rewrite w_ret_bind, (item_eval _ _ _ Hpages), w_ret_bind.
    rewrite (item_eval _ _ _ Hvalue), w_ret_bind.
    unfold first_three. rewrite w_ret_bind.
    by rewrite (render_well_formed _ _ _ _ _ Hwf).
  - apply Forall2_length in Hwf. rewrite <- Hwf, length_take. lia.
Qed.

(** A result without [name] among the first three makes [query_bing] raise
    [KeyError('name')]; the lines already built are lost. *)
Theorem bing_malformed_result w query code (resp pages : gmap string json)
    results good lines r rest :
  bing_get w query = inr {| status_code := code; body := inr (JObj resp) |} →
  ¬ (400 ≤ code < 600) →
  resp !! "webPages" = Some (JObj pages) →
  pages !! "value" = Some (JList results) →
  take 3 results = good ++ JObj r :: rest →
  Forall2 well_formed_result good lines →
  r !! "name" = None →
  query_bing w query = ([BingRequest query], inl (EKey (JStr "name"))).
Proof.
  intros Hsent Hcode Hpages Hvalue Htake Hwf Hnone.
  rewrite (query_bing_body w query _ Hsent Hcode). cbn [body].
  change (of_result (inr (JObj resp))) with (mret (JObj resp) : W json).
  rewrite w_ret_bind, (item_eval _ _ _ Hpages), w_ret_bind.
  rewrite (item_eval _ _ _ Hvalue), w_ret_bind.
  unfold first_three. rewrite w_ret_bind, Htake.
  by rewrite (render_malformed _ _ _ _ _ _ _ Hwf Hnone).
Qed.

(** What [query_bing] raises: the error of the request itself; an
    [HTTPError] for a 4xx or 5xx status; the decoding error of the body; a
    [KeyError] for a body without [webPages].  In each case one request has
    been sent. *)
Theorem bing_failures w query :
  (∀ e, bing_get w query = inl e → query_bing w query = ([BingRequest query], inl e))
  ∧ (∀ response, bing_get w query = inr response →
       400 ≤ status_code response < 600 →
       query_bing w query = ([BingRequest query], inl (ERequest "HTTPError")))
  ∧ (∀ response e, bing_get w query = inr response →
       ¬ (400 ≤ status_code response < 600) →
       body response = inl e →
       query_bing w query = ([BingRequest query], inl e))
  ∧ (∀ response (resp : gmap string json), bing_get w query = inr response →
       ¬ (400 ≤ status_code response < 600) →
       body response = inr (JObj resp) →
       resp !! "webPages" = None →
       query_bing w query = ([BingRequest query], inl (EKey (JStr "webPages")))).
Proof.
  repeat split.
  - intros e He. unfold query_bing. by rewrite He.
  - intros response Hsent [H1 H2]. unfold query_bing, raise_for_status. rewrite Hsent.
    change (of_result (inr response)) with (mret response : W http_response).
    rewrite w_ret_bind.
    replace ((400 <=? status_code response) && (status_code response <? 600)) with true;
      [done|].
    symmetry. apply andb_true_iff. split; [by apply Z.leb_le | by apply Z.ltb_lt].
  - intros response e Hsent Hcode Hbody.
    rewrite (query_bing_body w query _ Hsent Hcode), Hbody. done.
  - intros response resp Hsent Hcode Hbody Hnone.
    rewrite (query_bing_body w query _ Hsent Hcode), Hbody.
    change (of_result (inr (JObj resp))) with (mret (JObj resp) : W json).
    by rewrite w_ret_bind, (item_missing _ _ Hnone).
Qed.

(** ** The balance lookup *)

Lemma query_user_balance_nonempty w c s :
  query_user_balance w (JStr (String c s)) =
  (let url := (balance_endpoint w +:+ String c s)%string in
   tell (BalanceRequest url);;
   response ← of_result (get_json w url);
   student_number ← first_result response "idserial";
   last_swipe_time ← first_result response "txdate";
   balance ← (x ← first_result response "balance";
              cents ← python_int w x;
              hundredth cents);
   last_swipe_time_formatted ←
     match last_swipe_time with
     | JStr t => match reformat_time w t with
                 | Some t' => mret t'
                 | None => fail EValue
                 end
     | _ => fail EType
     end;
   let output := JObj (<["student_number" := student_number]>
                       (<["last_swipe_time" := JStr last_swipe_time_formatted]>
                        {[ "balance" := JFloat balance ]})) in
   tell (Printed output);;
   mret output).
Proof. reflexivity. Qed.

Lemma quiet_cases {A} (m : W A) : quiet m → (∃ e, m = fail e) ∨ (∃ a, m = mret a).
Proof.
  destruct m as [t [e|a]]; unfold quiet; simpl; intros ->; [left | right]; by eexists.
Qed.

Lemma quiet_bind {A B} (m : W A) (f : A → W B) :
  quiet m → (∀ a, quiet (f a)) → quiet (m ≫= f).
Proof.
  intros Hm Hf. destruct (quiet_cases m Hm) as [[e ->]|[a ->]]; [done|].
  rewrite w_ret_bind. apply Hf.
Qed.

Lemma item_quiet v key : quiet (item v key).
Proof. destruct v; try done. unfold item. by destruct (o !! key). Qed.

Lemma first_item_quiet v : quiet (first_item v).
Proof.
  destruct v as [| | | |s|[|x l]|]; try done. unfold first_item.
  by destruct (Utf8.chars s).
Qed.

Lemma python_int_quiet w v : quiet (python_int w v).
Proof. destruct v; try done. unfold python_int. by destruct (int_of_str w s). Qed.

Lemma hundredth_quiet n : quiet (hundredth n).
Proof. unfold hundredth. by destruct (_ <=? _). Qed.

Lemma first_result_quiet response field : quiet (first_result response field).
Proof.
  unfold first_result. apply quiet_bind; [apply item_quiet|]. intros a.
  apply quiet_bind; [apply item_quiet|]. intros b.
  apply quiet_bind; [apply first_item_quiet|]. intros c. apply item_quiet.
Qed.

(** The two ways a lookup for a non-empty number ends: an exception after the
    request, or the output, printed and returned. *)
Lemma query_user_balance_shape w c s :
  let url := (balance_endpoint w +:+ String c s)%string in
  let r := query_user_balance w (JStr (String c s)) in
  (∃ e, r = ([BalanceRequest url], inl e))
  ∨ (∃ output, r = ([BalanceRequest url; Printed output], inr output)).
Proof.
  intros url r. subst r. rewrite query_user_balance_nonempty. cbv zeta. fold url.
  destruct (get_json w url) as [e|response]; [left; by exists e|].
  change (of_result (inr response)) with (mret response : W json).
  rewrite w_ret_bind.
  destruct (quiet_cases _ (first_result_quiet response "idserial")) as [[e ->]|[x1 ->]];
    [left; by exists e|]. rewrite w_ret_bind.
  destruct (quiet_cases _ (first_result_quiet response "txdate")) as [[e ->]|[x2 ->]];
    [left; by exists e|]. rewrite w_ret_bind.
  destruct (quiet_cases _ (first_result_quiet response "balance")) as [[e ->]|[x3 ->]];
    [left; by exists e|]. rewrite w_ret_bind.
  destruct (quiet_cases _ (python_int_quiet w x3)) as [[e ->]|[cents ->]];
    [left; by exists e|]. rewrite w_ret_bind.
  destruct (quiet_cases _ (hundredth_quiet cents)) as [[e ->]|[balance ->]];
    [left; by exists e|]. rewrite w_ret_bind.
  destruct x2 as [| | | |t| |]; try (left; by eexists).
  destruct (reformat_time w t) as [t'|]; [|left; by eexists].
  rewrite w_ret_bind. right. by eexists.
Qed.

(** [query_user_balance] sends no request for the empty student number and
    answers with the fixed message; for any other string it sends exactly one
    request, to the endpoint followed by the number as given; for a value
    that is not a string it raises [TypeError] without a request. *)
Theorem balance_requests w stu_num :
  let r := query_user_balance w stu_num in
  (stu_num = JStr "" → r = ([], inr missing_number))
  ∧ (∀ s, stu_num = JStr s → s ≠ "" →
       filter (λ e, is_request e = true) r.1
       = [BalanceRequest (balance_endpoint w +:+ s)])
  ∧ ((∀ s, stu_num ≠ JStr s) → r = ([], inl EType)).
Proof.
  intros r. subst r. repeat split.
  - by intros ->.
  - intros s -> Hs. destruct s as [|c s]; [done|].
    by destruct (query_user_balance_shape w c s) as [[e ->]|[output ->]].
  - intros Hns. destruct stu_num; try done. by destruct (Hns s).
Qed.

(** [query_user_balance] prints at most its result: if something was
    printed, the call returned it. *)
Theorem balance_prints_what_it_returns w stu_num output :
  Printed output ∈ (query_user_balance w stu_num).1 →
  (query_user_balance w stu_num).2 = inr output.
Proof.
  destruct stu_num as [| | | |[|c s]| |]; try by intros ?%elem_of_nil.
  destruct (query_user_balance_shape w c s) as [[e ->]|[output' ->]]; cbn [fst snd].
  - intros H%list_elem_of_singleton. discriminate H.
  - rewrite elem_of_cons, list_elem_of_singleton. intros [H|H]; [discriminate H|].
    by injection H as ->.
Qed.


(** What [query_user_balance] raises after its request: the error of the
    request or of decoding its body; [KeyError('retJSON')] for a body without
    that key; [IndexError] for an empty result list.  Nothing is printed. *)
Theorem balance_failures w s (response retjson : gmap string json) :
  s ≠ "" →
  let url := (balance_endpoint w +:+ s)%string in
  let r := query_user_balance w (JStr s) in
  (∀ e, get_json w url = inl e → r = ([BalanceRequest url], inl e))
  ∧ (get_json w url = inr (JObj response) → response !! "retJSON" = None →
     r = ([BalanceRequest url], inl (EKey (JStr "retJSON"))))
  ∧ (get_json w url = inr (JObj response) → response !! "retJSON" = Some (JObj retjson) →
     retjson !! "result" = Some (JList []) →
     r = ([BalanceRequest url], inl EIndex)).
Proof.
  intros Hs url r. subst r url. destruct s as [|c s]; [done|].
  rewrite query_user_balance_nonempty. cbv zeta. repeat split.
  - by intros e ->.
  - intros -> Hnone.
    change (of_result (inr (JObj response))) with (mret (JObj response) : W json).
    rewrite w_ret_bind.
    assert (first_result (JObj response) "idserial" = fail (EKey (JStr "retJSON"))) as ->;
      [|done].
    unfold first_result. by rewrite (item_missing _ _ Hnone).
  - intros -> Hret Hres.
    change (of_result (inr (JObj response))) with (mret (JObj response) : W json).
    rewrite w_ret_bind.
    assert (first_result (JObj response) "idserial" = fail EIndex) as ->; [|done].
    unfold first_result.
    by rewrite (item_eval _ _ _ Hret), w_ret_bind, (item_eval _ _ _ Hres), w_ret_bind.
Qed.

(** * The audio endpoints *)

Lemma common_clauses_sound e :
  match (Audio.common_clauses e).2 with
  | Audio.Http _ => True
  | Audio.Same e' =>
      e' = e
      ∧ (Audio.instance_of e Audio.ValueError = true
         ∨ Audio.instance_of e Audio.Exception = false)
      ∧ Forall (λ c, Audio.instance_of e c = false) translated_classes
  | Audio.AttributeError =>
      Audio.description e = None
      ∧ (Audio.instance_of e Audio.ProviderTokenNotInitError = true
         ∨ Audio.instance_of e Audio.InvokeError = true)
  end.
Proof.
  unfold Audio.common_clauses, Audio.with_description, translated_classes.
  repeat (match goal with
          | |- context [if Audio.instance_of e ?c then _ else _] =>
              destruct (Audio.instance_of e c) eqn:?
          | |- context [match Audio.description e with _ => _ end] =>
              destruct (Audio.description e) eqn:?
          end; cbn [snd]; try done).
  all: repeat split; auto.
  all: by repeat (apply List.Forall_cons; [assumption|]).
Qed.

(** When the service raises, each of the three audio endpoints raises too:
    an HTTP error of its own; or the exception it caught, and then that one
    is a [ValueError] (or no [Exception] at all) and an instance of none of
    the translated classes; or an [AttributeError], and then the exception
    is a provider-token or invocation error without [description]. *)
Theorem audio_errors_are_translated {R} (e : Audio.exception) :
  (∃ log r, Audio.chat_message_audio (inl e : _ + R) = (log, inl r)
            ∧ translation_sound Audio.AppModelConfigBrokenError e r)
  ∧ (∃ log r, Audio.chat_message_text (inl e : _ + R) = (log, inl r)
              ∧ translation_sound Audio.AppModelConfigBrokenError e r)
  ∧ (∃ log r, Audio.text_modes (inl e : _ + R) = (log, inl r)
              ∧ translation_sound
                  Audio.ProviderNotSupportTextToSpeechLanageServiceError e r).
Proof.
  pose proof (common_clauses_sound e) as Hc.
  unfold Audio.chat_message_audio, Audio.chat_message_text, Audio.text_modes.
  destruct (Audio.common_clauses e) as [log r']. cbn [snd] in Hc.
  repeat split.
  - destruct (Audio.instance_of e Audio.AppModelConfigBrokenError) eqn:Hf;
      [by eexists _, _|].
    exists log, r'. split; [done|]. destruct r'; try done.
    unfold translation_sound. tauto.
  - destruct (Audio.instance_of e Audio.AppModelConfigBrokenError) eqn:Hf;
      [by eexists _, _|].
    exists log, r'. split; [done|]. destruct r'; try done.
    unfold translation_sound. tauto.
  - destruct (Audio.instance_of e Audio.ProviderNotSupportTextToSpeechLanageServiceError)
      eqn:Hf; [by eexists _, _|].
    exists log, r'. split; [done|]. destruct r'; try done.
    unfold translation_sound. tauto.
Qed.

(** * The further properties at sample inputs *)

(** On the three sample fragments, the second of which has lost its
    segment. *)
Lemma projection_records_witness :
  outcome (compact_retrieve_response Sample.world Sample.dataset Sample.embedding_handle
             "what is alpha" [Sample.fragment1; Sample.fragment2; Sample.fragment3])
  = inr {| query_content := "what is alpha"; query_tsne_position := Sample.position 0;
           records :=
             aligned_records Sample.world Sample.dataset
               [Sample.position 1; Sample.position 2; Sample.position 3]
               [Sample.fragment1; Sample.fragment2; Sample.fragment3] |}.
Proof.
  apply (projection_records Sample.world Sample.dataset Sample.embedding_handle
           "what is alpha" [Sample.fragment1; Sample.fragment2; Sample.fragment3]
           [1; 0]%Q [[0; 1]; [0; 1]; [0; 1]]%Q (Sample.position 0)
           [Sample.position 1; Sample.position 2; Sample.position 3]).
  - vm_compute. reflexivity.
  - vm_compute. reflexivity.
  - vm_compute. reflexivity.
  - repeat constructor; eexists; vm_compute; reflexivity.
  - simpl. lia.
Defined.

(** On the three sample fragments: the records are those of the first and
    the third. *)
Lemma records_follow_fragments_witness :
  ∃ result,
    outcome (compact_retrieve_response Sample.world Sample.dataset Sample.embedding_handle
               "what is alpha" [Sample.fragment1; Sample.fragment2; Sample.fragment3])
    = inr result
    ∧ rec_segment <$> records result
      = omap (stored_segment Sample.world Sample.dataset)
          [Sample.fragment1; Sample.fragment2; Sample.fragment3].
Proof.
  assert (∃ result,
            outcome (compact_retrieve_response Sample.world Sample.dataset
                       Sample.embedding_handle "what is alpha"
                       [Sample.fragment1; Sample.fragment2; Sample.fragment3])
            = inr result) as [result H].
  { eexists. vm_compute. reflexivity. }
  exists result. split; [exact H|].
  exact (proj1 (records_follow_fragments Sample.world Sample.dataset Sample.embedding_handle
                  "what is alpha" [Sample.fragment1; Sample.fragment2; Sample.fragment3]
                  result H)).
Defined.

(** Two fragments with stored segments and a solver that returns two rows
    for three vectors. *)
Lemma projection_index_error_witness :
  outcome (compact_retrieve_response Scenario.world_with_short_solver Sample.dataset
             Sample.embedding_handle "what is alpha" [Sample.fragment1; Sample.fragment3])
  = inl IndexError.
Proof.
  apply (projection_index_error Scenario.world_with_short_solver Sample.dataset
           Sample.embedding_handle "what is alpha" [Sample.fragment1; Sample.fragment3]
           [1; 0]%Q [[0; 1]; [0; 1]]%Q [Sample.position 0; Sample.position 1]
           1%nat Sample.fragment3).
  - vm_compute. reflexivity.
  - vm_compute. reflexivity.
  - vm_compute. reflexivity.
  - repeat constructor; eexists; vm_compute; reflexivity.
  - reflexivity.
  - eexists. vm_compute. reflexivity.
  - simpl. lia.
Defined.

(** One fragment without index key. *)
Lemma projection_key_error_witness :
  outcome (compact_retrieve_response Sample.world Sample.dataset Sample.embedding_handle
             "what is alpha" [Scenario.stray_fragment])
  = inl (KeyError "doc_id").
Proof.
  apply (projection_key_error Sample.world Sample.dataset Sample.embedding_handle
           "what is alpha" [Scenario.stray_fragment] [1; 0]%Q [[0; 1]]%Q
           [Sample.position 0; Sample.position 1]).
  - vm_compute. reflexivity.
  - vm_compute. reflexivity.
  - vm_compute. reflexivity.
  - simpl. lia.
  - constructor. vm_compute. reflexivity.
Defined.

(** The embedding model does not resolve: the call raises and writes no
    log. *)
Lemma failed_search_is_not_logged_witness :
  outcome (retrieve Sample.world_without_models Sample.dataset "what is alpha"
             Sample.account PNone 10)
  = inl (ProviderError "ModelNotInitializedError")
  ∧ calls is_log_write
      (trace_of (retrieve Sample.world_without_models Sample.dataset "what is alpha"
                   Sample.account PNone 10)) = 0%nat.
Proof.
  destruct (failed_search_is_not_logged Sample.world_without_models Sample.dataset
              "what is alpha" Sample.account PNone 10
              (ProviderError "ModelNotInitializedError"))
    as (Hout & Hlog & _).
  - unfold empty_dataset. simpl. lia.
  - vm_compute. reflexivity.
  - split; [exact Hout | exact Hlog].
Defined.

(** The searches find nothing and the embedding provider fails on the
    query: the call raises after the log write. *)
Lemma failed_projection_is_logged_witness :
  outcome (retrieve Scenario.world_without_embeddings Sample.dataset "what is alpha"
             Sample.account PNone 10)
  = inl (ProviderError "InvokeConnectionError")
  ∧ filter (λ ev, is_log_write ev = true)
      (trace_of (retrieve Scenario.world_without_embeddings Sample.dataset "what is alpha"
                   Sample.account PNone 10))
    = [DbAddCommit (dataset_query Sample.dataset "what is alpha" Sample.account)].
Proof.
  apply (failed_projection_is_logged Scenario.world_without_embeddings Sample.dataset
           "what is alpha" Sample.account PNone 10 Sample.embedding_handle []
           (ProviderError "InvokeConnectionError")).
  - unfold empty_dataset. simpl. lia.
  - vm_compute. reflexivity.
  - vm_compute. reflexivity.
Defined.

(** The default configuration with searches that find nothing. *)
Lemma no_hits_result_witness :
  outcome (retrieve Sample.world Sample.dataset "what is alpha" Sample.account PNone 10)
  = inr (empty_result "what is alpha")
  ∧ calls is_log_write
      (trace_of (retrieve Sample.world Sample.dataset "what is alpha" Sample.account
                   PNone 10)) = 1%nat
  ∧ calls is_solver
      (trace_of (retrieve Sample.world Sample.dataset "what is alpha" Sample.account
                   PNone 10)) = 0%nat.
Proof.
  apply (no_hits_result Sample.world Sample.dataset "what is alpha" Sample.account PNone 10
           Sample.embedding_handle [1; 0]%Q).
  - unfold empty_dataset. simpl. lia.
  - vm_compute. reflexivity.
  - vm_compute. reflexivity.
  - vm_compute. reflexivity.
Defined.

(** The semantic search of a hybrid configuration with reranking on and
    the score threshold off. *)
Lemma search_arguments_witness :
  ∃ m, effective_retrieval_model Sample.dataset Sample.hybrid_config = PDict m
       ∧ m !! "top_k" = Some (PInt 3)
       ∧ config_value_if m "score_threshold_enabled" "score_threshold" = Some PNone
       ∧ config_value_if m "reranking_enable" "reranking_model"
         = Some (PDict Scenario.rerank_names).
Proof.
  destruct (search_arguments Sample.world Sample.dataset "what is alpha" Sample.account
              Sample.hybrid_config 10 Scenario.hybrid_kwargs)
    as (m & Hm & _ & _ & _ & Htop & _ & Hst & Hrr & _).
  - unfold empty_dataset. simpl. lia.
  - left. vm_compute. repeat constructor.
  - exists m. repeat split; [exact Hm | exact Htop | exact Hst | exact Hrr].
Defined.

(** Both searches of a hybrid configuration. *)
Lemma searches_share_arguments_witness :
  EmbeddingSearch Scenario.hybrid_kwargs
    ∈ trace_of (retrieve Sample.world Sample.dataset "what is alpha" Sample.account
                  Sample.hybrid_config 10)
  ∧ FullTextIndexSearch Scenario.hybrid_kwargs
      ∈ trace_of (retrieve Sample.world Sample.dataset "what is alpha" Sample.account
                    Sample.hybrid_config 10)
  ∧ Scenario.hybrid_kwargs = Scenario.hybrid_kwargs.
Proof.
  assert (H1 : EmbeddingSearch Scenario.hybrid_kwargs
                 ∈ trace_of (retrieve Sample.world Sample.dataset "what is alpha"
                               Sample.account Sample.hybrid_config 10)).
  { vm_compute. repeat constructor. }
  assert (H2 : FullTextIndexSearch Scenario.hybrid_kwargs
                 ∈ trace_of (retrieve Sample.world Sample.dataset "what is alpha"
                               Sample.account Sample.hybrid_config 10)).
  { vm_compute. repeat constructor. }
  split; [exact H1|]. split; [exact H2|].
  apply (searches_share_arguments Sample.world Sample.dataset "what is alpha" Sample.account
           Sample.hybrid_config 10 Scenario.hybrid_kwargs Scenario.hybrid_kwargs).
  - unfold empty_dataset. simpl. lia.
  - exact H1.
  - exact H2.
Defined.

(** The sample hybrid configuration in the sample world. *)
Lemma hybrid_search_phase_witness :
  retrieve_search Sample.world Sample.dataset "what is alpha" Sample.account
    Sample.hybrid_config
  = ([GetModelInstance "tenant-1" TEXT_EMBEDDING (PStr "openai")
        (PStr "text-embedding-ada-002");
      EmbeddingSearch Scenario.hybrid_kwargs;
      FullTextIndexSearch Scenario.hybrid_kwargs;
      GetModelInstance "tenant-1" RERANK (PStr "cohere") (PStr "rerank-english-v2.0");
      RerankRun "what is alpha" [] PNone (PInt 3) "account-acct-7"],
     inr (Sample.embedding_handle, [])).
Proof.
  refine (hybrid_search_phase Sample.world Sample.dataset "what is alpha" Sample.account
            Sample.hybrid_config Sample.hybrid_config_map Scenario.hybrid_kwargs
            Scenario.rerank_names (PStr "cohere") (PStr "rerank-english-v2.0")
            _ _ _ _ _ _ _ _); vm_compute; reflexivity.
Defined.

(** No configuration in the request, none on the sample dataset. *)
Lemma default_configuration_witness :
  retrieve_search Sample.world Sample.dataset "what is alpha" Sample.account PNone
  = ([GetModelInstance "tenant-1" TEXT_EMBEDDING (PStr "openai")
        (PStr "text-embedding-ada-002");
      EmbeddingSearch
        {| kw_dataset_id := "ds-1"; kw_query := "what is alpha"; kw_top_k := PInt 2;
           kw_score_threshold := PNone; kw_reranking_model := PNone;
           kw_search_method := PStr "semantic_search";
           kw_embeddings := Sample.embedding_handle |}],
     inr (Sample.embedding_handle, [])).
Proof.
  refine (default_configuration Sample.world Sample.dataset "what is alpha" Sample.account
            PNone _ _ _); reflexivity.
Defined.

(** The search method [keyword_search]. *)
Lemma unknown_search_method_witness :
  retrieve_search Sample.world Sample.dataset "what is alpha" Sample.account
    (PDict Scenario.keyword_config_map)
  = ([GetModelInstance "tenant-1" TEXT_EMBEDDING (PStr "openai")
        (PStr "text-embedding-ada-002")],
     inr (Sample.embedding_handle, [])).
Proof.
  refine (unknown_search_method Sample.world Sample.dataset "what is alpha" Sample.account
            (PDict Scenario.keyword_config_map) Scenario.keyword_config_map
            (PStr "keyword_search") _ _ _ _ _ _); vm_compute; reflexivity.
Defined.

(** A configuration without [search_method], and a string in place of a
    configuration. *)
Lemma unreadable_configuration_witness :
  retrieve Sample.world Sample.dataset "what is alpha" Sample.account
    (PDict {[ "top_k" := PInt 3 ]}) 10
  = ([GetModelInstance "tenant-1" TEXT_EMBEDDING (PStr "openai")
        (PStr "text-embedding-ada-002")],
     inl (KeyError "search_method"))
  ∧ retrieve Sample.world Sample.dataset "what is alpha" Sample.account
      (PStr "hybrid_search") 10
    = ([GetModelInstance "tenant-1" TEXT_EMBEDDING (PStr "openai")
          (PStr "text-embedding-ada-002")],
       inl TypeError).
Proof.
  split.
  - refine (proj2 (unreadable_configuration Sample.world Sample.dataset "what is alpha"
                     Sample.account (PDict {[ "top_k" := PInt 3 ]}) 10 _ _)
              {[ "top_k" := PInt 3 ]} _ _).
    + unfold empty_dataset. simpl. lia.
    + reflexivity.
    + vm_compute. reflexivity.
    + vm_compute. reflexivity.
  - refine (proj1 (unreadable_configuration Sample.world Sample.dataset "what is alpha"
                     Sample.account (PStr "hybrid_search") 10 _ _) _).
    + unfold empty_dataset. simpl. lia.
    + reflexivity.
    + intros m. vm_compute. discriminate.
Defined.

(** Three vectors: the perplexity is 5/2. *)
Lemma tsne_perplexity_valid_witness :
  ∃ perplexity,
    filter (λ e, is_solver e = true)
      (trace_of (get_tsne_positions_from_embeddings Sample.world
                   [[1; 0]; [0; 1]; [1; 1]]%Q))
    = [TsneFitTransform perplexity [[1; 0]; [0; 1]; [1; 1]]%Q]
    ∧ perplexity = PFloat (inject_Z 3 / 2 + 1)%Q.
Proof.
  destruct (tsne_perplexity_valid Sample.world [[1; 0]; [0; 1]; [1; 1]]%Q)
    as (perplexity & Hrun & _ & Hthree).
  - simpl. lia.
  - exists perplexity. split; [exact Hrun|]. apply Hthree. simpl. lia.
Defined.

(** A query of 100 Chinese characters. *)
Lemma args_check_passes_only_witness :
  ∃ q, ({[ "query" := PStr (Utf8.utf8 (replicate 100 23398%N)) ]} : gmap string pyval)
         !! "query" = Some q
       ∧ truthy q = true.
Proof.
  destruct (args_check_passes_only
              {[ "query" := PStr (Utf8.utf8 (replicate 100 23398%N)) ]})
    as (q & Hq & Ht & _).
  - vm_compute. reflexivity.
  - exists q. split; [exact Hq | exact Ht].
Defined.


(** A helper with a parameter format and no description. *)
Lemma parameter_format_is_not_listed_witness :
  get (def "helper" [ParameterFormat (PStr "{}")] Scenario.imports) = get Scenario.imports.
Proof.
  apply (proj2 (parameter_format_is_not_listed "helper" (PStr "{}")
                  [ParameterFormat (PStr "{}")] 0%nat Scenario.imports)).
  - apply (bool_decide_unpack _). vm_compute. exact I.
  - apply (bool_decide_unpack _). vm_compute. exact I.
  - reflexivity.
Defined.

(** The module on top of its imports. *)
Lemma module_listing_witness :
  get (module_globals Scenario.imports)
  = [ {| entry_value := "query_user_balance"; entry_name := balance_description |};
      {| entry_value := "query_weather"; entry_name := weather_description |};
      {| entry_value := "query_current_time"; entry_name := time_description |};
      {| entry_value := "query_bing"; entry_name := bing_description |} ].
Proof.
  apply (module_listing Scenario.imports).
  - apply (bool_decide_unpack _). vm_compute. exact I.
  - repeat constructor.
  - repeat (constructor; [apply (bool_decide_unpack _); vm_compute; exact I|]).
    constructor.
Defined.

(** Four results: three lines. *)
Lemma bing_renders_first_three_witness :
  query_bing Scenario.web (JStr "dify")
  = ([BingRequest (JStr "dify")],
     inr (rendered [("Dify", "An LLM application platform");
                    ("Dify docs", "Getting started");
                    ("Dify on GitHub", "Source code")] 0)).
Proof.
  refine (proj1 (bing_renders_first_three Scenario.web (JStr "dify") 200
                   {[ "webPages" := JObj {[ "value" := JList Scenario.four_results ]} ]}
                   {[ "value" := JList Scenario.four_results ]}
                   Scenario.four_results
                   [("Dify", "An LLM application platform");
                    ("Dify docs", "Getting started");
                    ("Dify on GitHub", "Source code")] _ _ _ _ _)).
  - reflexivity.
  - lia.
  - vm_compute. reflexivity.
  - vm_compute. reflexivity.
  - repeat (constructor; [eexists; split; [reflexivity|]; split; vm_compute; reflexivity|]).
    constructor.
Defined.

(** The second result has no name. *)
Lemma bing_malformed_result_witness :
  query_bing Scenario.web (JStr "partial")
  = ([BingRequest (JStr "partial")], inl (EKey (JStr "name"))).
Proof.
  refine (bing_malformed_result Scenario.web (JStr "partial") 200
            {[ "webPages" :=
                 JObj {[ "value" :=
                           JList [Scenario.search_result "Dify" "An LLM application platform";
                                  JObj Scenario.nameless_result] ]} ]}
            {[ "value" := JList [Scenario.search_result "Dify" "An LLM application platform";
                                 JObj Scenario.nameless_result] ]}
            [Scenario.search_result "Dify" "An LLM application platform";
             JObj Scenario.nameless_result]
            [Scenario.search_result "Dify" "An LLM application platform"]
            [("Dify", "An LLM application platform")]
            Scenario.nameless_result [] _ _ _ _ _ _ _).
  - reflexivity.
  - lia.
  - vm_compute. reflexivity.
  - vm_compute. reflexivity.
  - reflexivity.
  - repeat (constructor; [eexists; split; [reflexivity|]; split; vm_compute; reflexivity|]).
    constructor.
  - vm_compute. reflexivity.
Defined.

(** The student the card system knows. *)
Lemma balance_prints_what_it_returns_witness :
  (query_user_balance Scenario.web (JStr "2021000001")).2 = inr Scenario.card_output.
Proof.
  apply (balance_prints_what_it_returns Scenario.web (JStr "2021000001")
           Scenario.card_output).
  vm_compute. repeat constructor.
Defined.


(** An empty result list, and a request that fails. *)
Lemma balance_failures_witness :
  query_user_balance Scenario.web (JStr "0")
  = ([BalanceRequest "http://cards.example/balance?idserial=0"], inl EIndex)
  ∧ query_user_balance Scenario.web (JStr "2021000002")
    = ([BalanceRequest "http://cards.example/balance?idserial=2021000002"],
       inl (ERequest "ConnectionError")).
Proof.
  split.
  - refine (proj2 (proj2 (balance_failures Scenario.web "0" (Scenario.card_body [])
                            (Scenario.card_result []) _)) _ _ _).
    + discriminate.
    + reflexivity.
    + vm_compute. reflexivity.
    + vm_compute. reflexivity.
  - refine (proj1 (balance_failures Scenario.web "2021000002" ∅ ∅ _) _ _).
    + discriminate.
    + reflexivity.
Defined.
